(** * ctapipe: event reduction, reweighting, selection and training tables

    A shallow embedding of

    - [ctapipe/irf/preprocessing.py]  ([EventPreprocessor], [EventLoader]),
    - [ctapipe/tools/make_irf.py]     ([IrfTool.calculate_selections],
                                      [IrfTool._stack_background]),
    - [ctapipe/tools/train_energy_regressor.py]
                                      ([TrainEnergyRegressor._read_table]),

    together with the properties of the streaming reduction that the
    specification states about them.

    Conventions.  Python exceptions are values of [exn] and a function that
    may raise returns a [result].  An astropy table is a list of column
    names, a column-attribute map and a list of rows; a row maps a column
    name to its cell, and an absent key is a masked cell.  A float64 cell is
    an extended rational ([Real], the two infinities, [NaN]): comparisons
    follow IEEE-754, rounding is not modelled.  Functions of pyirf, numpy and
    astropy that the code calls per element are fields of [Externals]. *)

From Stdlib Require Import QArith Qabs.
From stdpp Require Import gmap strings list fin_maps sorting.

Set Default Proof Using "Type".
Open Scope string_scope.
Open Scope list_scope.

(** ** Units of a flux *)

(** The unit of the normalisation of a spectrum, up to equivalence: the
    point-source flux unit, the diffuse flux unit (the same per solid
    angle), or the class of any other unit. *)
Inductive flux_unit : Type :=
| POINT_SOURCE_FLUX_UNIT
| DIFFUSE_FLUX_UNIT
| OTHER_UNIT (class : nat).

#[global] Instance flux_unit_eq_dec : EqDecision flux_unit.
Proof. solve_decision. Defined.

(** ** Exceptions and results *)

(** [UnitConversionError] is astropy's, a subclass of [ValueError]; it
    carries the units of the two fluxes whose ratio is not a pure number. *)
Inductive exn : Type :=
| ValueError (msg : string)
| KeyError (msg : string)
| IndexError (msg : string)
| NotImplementedError (msg : string)
| TooFewEvents (msg : string)
| TableMergeError (msg : string)
| UnitConversionError (target simulated : flux_unit)
| Exception (msg : string).

Inductive result (A : Type) : Type :=
| Ok (a : A)
| Raise (e : exn).

Arguments Ok {A} a.
Arguments Raise {A} e.

#[global] Instance result_ret : MRet result := fun _ a => Ok a.

#[global] Instance result_bind : MBind result :=
  fun _ _ f m => match m with Ok a => f a | Raise e => Raise e end.

#[global] Instance result_fmap : FMap result :=
  fun _ _ f m => match m with Ok a => Ok (f a) | Raise e => Raise e end.

Definition is_ok {A} (m : result A) : bool :=
  match m with Ok _ => true | Raise _ => false end.

(** ** Cells *)

Inductive float : Type :=
| Real (q : Q)
| PosInf
| NegInf
| NaN.

Definition Qlt_bool (a b : Q) : bool := negb (Qle_bool b a).

(** [x <= y] on float64; false as soon as one side is NaN. *)
Definition float_le (x y : float) : bool :=
  match x, y with
  | NaN, _ | _, NaN => false
  | NegInf, _ => true
  | _, PosInf => true
  | Real a, Real b => Qle_bool a b
  | _, _ => false
  end.

(** [x < y] on float64. *)
Definition float_lt (x y : float) : bool :=
  match x, y with
  | NaN, _ | _, NaN => false
  | PosInf, _ => false
  | _, NegInf => false
  | Real a, Real b => Qlt_bool a b
  | _, _ => true
  end.

Definition float_ge (x y : float) : bool := float_le y x.
Definition float_gt (x y : float) : bool := float_lt y x.

Definition float_eqb (x y : float) : bool :=
  match x, y with
  | Real a, Real b => Qeq_bool a b
  | PosInf, PosInf | NegInf, NegInf => true
  | _, _ => false
  end.

Definition isfinite (x : float) : bool :=
  match x with Real _ => true | _ => false end.

Inductive value : Type :=
| VInt (n : Z)
| VFloat (x : float)
| VBool (b : bool).

(** numpy's conversion of a cell to float64; a masked cell reads as NaN. *)
Definition as_float (c : option value) : float :=
  match c with
  | Some (VFloat x) => x
  | Some (VInt n) => Real (inject_Z n)
  | Some (VBool b) => Real (if b then 1 else 0)
  | None => NaN
  end.

(** Truth value of a cell used as a boolean mask entry. *)
Definition as_bool (c : option value) : bool :=
  match c with
  | Some (VBool b) => b
  | Some (VInt n) => negb (n =? 0)%Z
  | Some (VFloat x) => negb (float_eqb x (Real 0))
  | None => false
  end.

(** Elementwise [!=] of numpy. *)
Definition cell_neqb (c : option value) (v : value) : bool :=
  negb (float_eqb (as_float c) (as_float (Some v))).

(** ** Tables *)

Abbreviation row := (gmap string value).

Record colattrs : Type := ColAttrs {
  unit : option string;
  description : option string
}.

Record Table : Type := MkTable {
  colnames : list string;
  colinfo : gmap string colattrs;
  rows : list row
}.

Definition has_col (c : string) (t : Table) : bool :=
  bool_decide (c ∈ colnames t).

(** [len(table)] *)
Definition len (t : Table) : nat := length (rows t).

(** [table[name]]: the column as an array of cells. *)
Definition get_col (c : string) (t : Table) : result (list (option value)) :=
  if has_col c t then Ok ((fun r : row => r !! c) <$> rows t)
  else Raise (KeyError c).

Definition add_colname (c : string) (names : list string) : list string :=
  if bool_decide (c ∈ names) then names else names ++ [c].

Definition set_unit (c : string) (u : option string)
    (info : gmap string colattrs) : gmap string colattrs :=
  match info !! c with
  | Some a => <[c := ColAttrs u (description a)]> info
  | None => <[c := ColAttrs u None]> info
  end.

(** [table[name] = array]: replaces the column, or appends it when new.  The
    array carries a unit when it is a Quantity. *)
Definition set_col (c : string) (u : option string) (vals : list value)
    (t : Table) : result Table :=
  if bool_decide (length vals = len t) then
    Ok (MkTable (add_colname c (colnames t))
                (<[c := ColAttrs u None]> (colinfo t))
                (zip_with (fun (r : row) v => <[c := v]> r) (rows t) vals))
  else Raise (ValueError "Inconsistent data column lengths").

(** [table[name] = column]: as [set_col], for an array of cells that may be
    masked. *)
Definition set_col_cells (c : string) (u : option string)
    (cells : list (option value)) (t : Table) : result Table :=
  if bool_decide (length cells = len t) then
    Ok (MkTable (add_colname c (colnames t))
                (<[c := ColAttrs u None]> (colinfo t))
                (zip_with (fun (r : row) v => partial_alter (fun _ => v) c r)
                          (rows t) cells))
  else Raise (ValueError "Inconsistent data column lengths").

(** [table[name] = scalar]: the scalar is broadcast to every row. *)
Definition set_col_scalar (c : string) (u : option string) (v : value)
    (t : Table) : result Table :=
  set_col c u (replicate (len t) v) t.

(** [array[mask]] of numpy for a boolean mask. *)
Fixpoint compress {A} (mask : list bool) (xs : list A) : list A :=
  match mask, xs with
  | b :: mask', x :: xs' =>
      if b then x :: compress mask' xs' else compress mask' xs'
  | _, _ => []
  end.

(** [table[mask]] *)
Definition select_mask (mask : list bool) (t : Table) : result Table :=
  if bool_decide (length mask = len t) then
    Ok (MkTable (colnames t) (colinfo t) (compress mask (rows t)))
  else Raise (IndexError "boolean index did not match indexed array").

(** [array[mask] = values] of numpy. *)
Fixpoint assign_masked (c : string) (mask : list bool) (vals : list value)
    (rs : list row) : list row :=
  match mask, rs with
  | true :: mask', r :: rs' =>
      match vals with
      | v :: vals' => <[c := v]> r :: assign_masked c mask' vals' rs'
      | [] => r :: rs'
      end
  | false :: mask', r :: rs' => r :: assign_masked c mask' vals rs'
  | _, _ => rs
  end.

(** [table[name][mask] = values] *)
Definition set_col_masked (c : string) (mask : list bool) (vals : list value)
    (t : Table) : result Table :=
  if has_col c t then
    if bool_decide (length mask = len t) then
      if bool_decide (length vals = length (compress mask (rows t))) then
        Ok (MkTable (colnames t) (colinfo t)
                    (assign_masked c mask vals (rows t)))
      else Raise (ValueError "shape mismatch in boolean index assignment")
    else Raise (IndexError "boolean index did not match indexed array")
  else Raise (KeyError c).

Definition restrict_row (names : list string) (r : row) : row :=
  filter (fun kv => kv.1 ∈ names) r.

(** [table[names]]: the projection on a list of column names, in that
    order. *)
Definition project (names : list string) (t : Table) : result Table :=
  match List.find (fun c => negb (has_col c t)) names with
  | Some c => Raise (KeyError c)
  | None =>
      if bool_decide (NoDup names) then
        Ok (MkTable names
                    (filter (fun kv => kv.1 ∈ names) (colinfo t))
                    (restrict_row names <$> rows t))
      else Raise (ValueError "Duplicate column names")
  end.

(** [table[idx]] for an array of row indices. *)
Definition take_rows (idx : list nat) (t : Table) : result Table :=
  match mapM (fun i => rows t !! i) idx with
  | Some rs => Ok (MkTable (colnames t) (colinfo t) rs)
  | None => Raise (IndexError "index out of bounds")
  end.

(** The cell of [name] moves to [new_name]. *)
Definition rename_row (name new_name : string) (r : row) : row :=
  partial_alter (fun _ => r !! name) new_name (delete name r).

Definition rename_info (name new_name : string)
    (info : gmap string colattrs) : gmap string colattrs :=
  partial_alter (fun _ => info !! name) new_name (delete name info).

(** [Table.rename_column]: the column keeps its position. *)
Definition rename_column (name new_name : string) (t : Table) : result Table :=
  if negb (has_col name t) then
    Raise (KeyError ("Column " +:+ name +:+ " does not exist"))
  else if bool_decide (name = new_name) then Ok t
  else if has_col new_name t then
    Raise (KeyError ("Column " +:+ new_name +:+ " already exists"))
  else
    Ok (MkTable
          ((fun c => if bool_decide (c = name) then new_name else c)
             <$> colnames t)
          (rename_info name new_name (colinfo t))
          (rename_row name new_name <$> rows t)).

(** [Table.rename_columns]: one [rename_column] per pair, in order. *)
Fixpoint rename_columns (names new_names : list string) (t : Table)
    : result Table :=
  match names, new_names with
  | name :: names', new_name :: new_names' =>
      t' ← rename_column name new_name t;
      rename_columns names' new_names' t'
  | [], [] => Ok t
  | _, _ =>
      Raise (ValueError
        "input 'names' and 'new_names' list arguments must be the same length")
  end.

(** Merge of column attributes under [metadata_conflicts="silent"]: an
    attribute set on the right replaces the one on the left. *)
Definition merge_attrs (a b : colattrs) : colattrs :=
  ColAttrs (match unit b with Some u => Some u | None => unit a end)
           (match description b with Some d => Some d | None => description a end).

Definition merge_info (m1 m2 : gmap string colattrs) : gmap string colattrs :=
  union_with (fun a b => Some (merge_attrs a b)) m1 m2.

Definition same_columns (t1 t2 : Table) : bool :=
  forallb (fun c => has_col c t2) (colnames t1)
  && forallb (fun c => has_col c t1) (colnames t2).

(** [vstack(tables, join_type="exact", metadata_conflicts="silent")] *)
Definition vstack_exact (tables : list Table) : result Table :=
  match tables with
  | [] => Raise (ValueError "no values provided to stack.")
  | [t] => Ok t
  | t0 :: rest =>
      if forallb (same_columns t0) rest then
        Ok (MkTable (colnames t0)
                    (foldl merge_info (colinfo t0) (colinfo <$> rest))
                    (concat (rows <$> tables)))
      else
        Raise (TableMergeError "Inconsistent columns in input arrays")
  end.

(** [vstack(tables)], with the default [join_type="outer"]: the columns are
    the union in order of first appearance and a cell without a source is
    masked. *)
Definition vstack (tables : list Table) : result Table :=
  match tables with
  | [] => Raise (ValueError "no values provided to stack.")
  | [t] => Ok t
  | t0 :: rest =>
      Ok (MkTable (foldl (fun acc t => foldl (fun a c => add_colname c a) acc (colnames t))
                         (colnames t0) rest)
                  (foldl merge_info (colinfo t0) (colinfo <$> rest))
                  (concat (rows <$> tables)))
  end.

(** ** External collaborators *)

(** [Unit.is_equivalent] *)
Definition is_equivalent (u v : flux_unit) : bool := bool_decide (u = v).

(** [operator.ge] and [operator.le] *)
Inductive operator : Type := op_ge | op_le.

(** What the code imports from pyirf, astropy.coordinates, numpy.random and
    [ctapipe.containers].  The array functions act element by element, so
    each is given on one element. *)
Class Externals : Type := {
  (** a pyirf spectrum ([PowerLaw], [LogParabola], ...) *)
  Spectrum : Type;
  (** [spectrum.normalization.unit], up to equivalence *)
  normalization_unit : Spectrum -> flux_unit;
  (** [spectrum.integrate_cone(inner, outer)] *)
  integrate_cone : Spectrum -> float -> float -> Spectrum;
  (** [calculate_event_weights(true_energy, target_spectrum, simulated_spectrum)]
      on one energy, for two spectra whose normalisations have equivalent
      units: the ratio of the two fluxes as a pure number *)
  calculate_event_weights : float -> Spectrum -> Spectrum -> float;
  (** [calculate_theta]: reco az, reco alt, assumed source az, assumed source alt *)
  calculate_theta : float -> float -> float -> float -> float;
  (** [calculate_source_fov_offset]: az, alt, pointing az, pointing alt *)
  calculate_source_fov_offset : float -> float -> float -> float -> float;
  (** [reco.transform_to(NominalFrame(origin=pointing)).fov_lon]:
      pointing alt, pointing az, reco alt, reco az *)
  nominal_fov_lon : float -> float -> float -> float -> float;
  (** the same for [fov_lat] *)
  nominal_fov_lat : float -> float -> float -> float -> float;
  (** the table of binned cuts read by [OptimizationResultStore] *)
  CutTable : Type;
  (** [evaluate_binned_cut(values, bin_values, cut_table, op)] *)
  evaluate_binned_cut : float -> float -> CutTable -> operator -> bool;
  (** [CoordinateFrameType.ALTAZ.value] *)
  ALTAZ : value;
  (** [numpy.random.Generator] *)
  Generator : Type;
  (** [np.random.default_rng(seed)] *)
  default_rng : Z -> Generator;
  (** [rng.choice(a, size, replace=False)], with the generator it leaves *)
  choice : Generator -> nat -> nat -> list nat * Generator
}.

(** ** numpy reductions *)

Definition float_neg (x : float) : float :=
  match x with
  | Real q => Real (- q)
  | PosInf => NegInf
  | NegInf => PosInf
  | NaN => NaN
  end.

Definition finite_value (x : float) : option Q :=
  match x with Real q => Some q | _ => None end.

Definition Qsum (qs : list Q) : Q := foldr Qplus 0%Q qs.

Definition Qmean (qs : list Q) : Q :=
  (Qsum qs / inject_Z (Z.of_nat (length qs)))%Q.

Definition Qvariance (qs : list Q) : Q :=
  Qmean ((fun q => (q - Qmean qs) * (q - Qmean qs))%Q <$> qs).

(** [array.std() > tol] for [tol >= 0], decided on the variance.  The
    standard deviation of an empty array, or of one holding a non-finite
    entry, is NaN and compares false.  The variance is the exact one: the
    rounding of float64, and the overflow of a sum of huge entries to
    infinity, are not modelled, so the test is that of numpy for entries of
    moderate size whose deviation is not at the threshold. *)
Definition std_gt (xs : list float) (tol : Q) : bool :=
  match mapM finite_value xs with
  | Some (q :: qs) => Qlt_bool (tol * tol) (Qvariance (q :: qs))
  | _ => false
  end.

(** ** ctapipe/irf/preprocessing.py *)

(** A quality criterion: its name and its predicate on a row. *)
Definition QualityCriteria : Type := list (string * (row -> bool)).

(** The configuration of [EventPreprocessor]: its traits and the criteria of
    its [event_selection] component. *)
Record EventPreprocessor : Type := {
  energy_reconstructor : string;
  geometry_reconstructor : string;
  gammaness_classifier : string;
  irf_pre_processing : bool;
  optional_dl3_columns : bool;
  raise_error_for_optional : bool;
  event_selection : QualityCriteria
}.

(** The list [keep_columns] of [normalise_column_names] before the renamed
    columns are added to it. *)
Definition base_keep_columns (epp : EventPreprocessor) : list string :=
  ["obs_id"; "event_id"]
  ++ (if irf_pre_processing epp then ["true_energy"; "true_az"; "true_alt"]
      else ["time"]
           ++ (if optional_dl3_columns epp then ["tels_with_trigger"] else [])).

Definition rename_from_required (epp : EventPreprocessor) : list string :=
  [ energy_reconstructor epp +:+ "_energy";
    geometry_reconstructor epp +:+ "_az";
    geometry_reconstructor epp +:+ "_alt";
    gammaness_classifier epp +:+ "_prediction";
    "subarray_pointing_lat";
    "subarray_pointing_lon" ].

Definition rename_to_required : list string :=
  [ "reco_energy"; "reco_az"; "reco_alt"; "gh_score";
    "pointing_alt"; "pointing_az" ].

Definition rename_from_optional (epp : EventPreprocessor) : list string :=
  [ energy_reconstructor epp +:+ "_energy_uncert";
    geometry_reconstructor epp +:+ "_ang_distance_uncert";
    geometry_reconstructor epp +:+ "_core_x";
    geometry_reconstructor epp +:+ "_core_y";
    geometry_reconstructor epp +:+ "_core_uncert_x";
    geometry_reconstructor epp +:+ "_core_uncert_y";
    geometry_reconstructor epp +:+ "_h_max";
    geometry_reconstructor epp +:+ "_h_max_uncert" ].

Definition rename_to_optional : list string :=
  [ "reco_energy_uncert"; "reco_dir_uncert"; "reco_core_x"; "reco_core_y";
    "reco_core_uncert_x"; "reco_core_uncert_y"; "reco_h_max";
    "reco_h_max_uncert" ].

(** The pairs (old name, new name) that [normalise_column_names] renames on
    a table with the given columns. *)
Definition renames (epp : EventPreprocessor) (events : Table)
    : list (string * string) :=
  zip (rename_from_required epp) rename_to_required
  ++ (if optional_dl3_columns epp then
        if negb (raise_error_for_optional epp) then
          List.filter (fun p => has_col p.1 events)
                      (zip (rename_from_optional epp) rename_to_optional)
        else zip (rename_from_optional epp) rename_to_optional
      else []).

(** The columns [normalise_column_names] requires. *)
Definition required_columns (epp : EventPreprocessor) (events : Table)
    : list string :=
  base_keep_columns epp ++ (renames epp events).*1.

Definition missing_column_error (c : string) : exn :=
  ValueError ("Input files must conform to the ctapipe DL2 data model. "
              +:+ "Required column " +:+ c +:+ " is missing.").

Definition varying_pointing_error : exn :=
  NotImplementedError "No support for making irfs from varying pointings yet".

Definition pointing_frame_error : exn :=
  NotImplementedError "At the moment only pointing in altaz is supported.".

Section preprocessing.
Context `{Externals}.

(** [EventPreprocessor.normalise_column_names] *)
Definition normalise_column_names (epp : EventPreprocessor) (events : Table)
    : result Table :=
  varying ←
    (if irf_pre_processing epp then
       lat ← get_col "subarray_pointing_lat" events;
       Ok (std_gt (as_float <$> lat) (1 # 1000))
     else Ok false);
  if (varying : bool) then Raise varying_pointing_error
  else
    frame ← get_col "subarray_pointing_frame" events;
    if existsb (fun c => cell_neqb c ALTAZ) frame then
      Raise pointing_frame_error
    else
      match List.find (fun c => negb (has_col c events))
                      (required_columns epp events) with
      | Some c => Raise (missing_column_error c)
      | None =>
          rename_columns (renames epp events).*1 (renames epp events).*2
                         events
      end.

(** The persisted column set of [keep_nescessary_columns_only]. *)
Definition persisted_columns : list string :=
  [ "obs_id"; "event_id"; "true_energy"; "true_az"; "true_alt";
    "reco_energy"; "reco_az"; "reco_alt"; "reco_fov_lat"; "reco_fov_lon";
    "pointing_az"; "pointing_alt"; "theta"; "true_source_fov_offset";
    "reco_source_fov_offset"; "gh_score"; "weight" ].

(** [EventPreprocessor.keep_nescessary_columns_only] *)
Definition keep_nescessary_columns_only (events : Table) : result Table :=
  project persisted_columns events.

Definition header_columns : list (string * colattrs) :=
  [ ("obs_id", ColAttrs None (Some "Observation block ID"));
    ("event_id", ColAttrs None (Some "Array event ID"));
    ("true_energy", ColAttrs (Some "TeV") (Some "Simulated energy"));
    ("true_az", ColAttrs (Some "deg") (Some "Simulated azimuth"));
    ("true_alt", ColAttrs (Some "deg") (Some "Simulated altitude"));
    ("reco_energy", ColAttrs (Some "TeV") (Some "Reconstructed energy"));
    ("reco_az", ColAttrs (Some "deg") (Some "Reconstructed azimuth"));
    ("reco_alt", ColAttrs (Some "deg") (Some "Reconstructed altitude"));
    ("reco_fov_lat",
       ColAttrs (Some "deg") (Some "Reconstructed field of view lat"));
    ("reco_fov_lon",
       ColAttrs (Some "deg") (Some "Reconstructed field of view lon"));
    ("pointing_az", ColAttrs (Some "deg") (Some "Pointing azimuth"));
    ("pointing_alt", ColAttrs (Some "deg") (Some "Pointing altitude"));
    ("theta",
       ColAttrs (Some "deg")
                (Some "Reconstructed angular offset from source position"));
    ("true_source_fov_offset",
       ColAttrs (Some "deg")
                (Some "Simulated angular offset from pointing direction"));
    ("reco_source_fov_offset",
       ColAttrs (Some "deg")
                (Some "Reconstructed angular offset from pointing direction"));
    ("gh_score",
       ColAttrs (Some "")
                (Some ("prediction of the classifier, defined between [0,1],"
                       +:+ " where values close to 1 mean that the positive class"
                       +:+ " (e.g. gamma in gamma-ray analysis) is more likely")));
    ("weight", ColAttrs (Some "") (Some "Event weight")) ].

(** [EventPreprocessor.make_empty_table]: the typed header without rows.  The
    dimensionless unit is the empty string. *)
Definition make_empty_table : Table :=
  MkTable header_columns.*1 (list_to_map header_columns) [].

(** Modelled from the spec: [EventQualitySelection.calculate_selection] of
    ctapipe/irf/cuts.py is missing.  It evaluates the ordered criteria on
    every row and stores their conjunction in the column [selected]; the
    criteria are pure functions of the row. *)
Definition calculate_selection (criteria : QualityCriteria) (events : Table)
    : result Table :=
  set_col "selected" None
    ((fun r => VBool (forallb (fun c => c.2 r) criteria)) <$> rows events)
    events.

(** [column.unit = u] on an existing column. *)
Definition set_col_unit (c : string) (u : option string) (t : Table)
    : result Table :=
  if has_col c t then
    Ok (MkTable (colnames t) (set_unit c u (colinfo t)) (rows t))
  else Raise (KeyError c).

(** The element of [zip(a, b, c, d)] mapped by [f]. *)
Definition map4 (f : float -> float -> float -> float -> float)
    (a b c d : list (option value)) : list value :=
  zip_with (fun ab cd => VFloat (f (as_float ab.1) (as_float ab.2)
                                   (as_float cd.1) (as_float cd.2)))
           (zip a b) (zip c d).

(** [EventLoader.make_derived_columns] *)
Definition make_derived_columns (events : Table) : result Table :=
  events ← set_col_scalar "weight" (Some "") (VFloat (Real 1)) events;
  events ← set_col_unit "gh_score" (Some "") events;
  true_az ← get_col "true_az" events;
  true_alt ← get_col "true_alt" events;
  reco_az ← get_col "reco_az" events;
  reco_alt ← get_col "reco_alt" events;
  events ← set_col "theta" (Some "deg")
             (map4 calculate_theta reco_az reco_alt true_az true_alt) events;
  true_az ← get_col "true_az" events;
  true_alt ← get_col "true_alt" events;
  pointing_az ← get_col "pointing_az" events;
  pointing_alt ← get_col "pointing_alt" events;
  events ← set_col "true_source_fov_offset" (Some "deg")
             (map4 calculate_source_fov_offset
                   true_az true_alt pointing_az pointing_alt) events;
  reco_az ← get_col "reco_az" events;
  reco_alt ← get_col "reco_alt" events;
  pointing_az ← get_col "pointing_az" events;
  pointing_alt ← get_col "pointing_alt" events;
  events ← set_col "reco_source_fov_offset" (Some "deg")
             (map4 calculate_source_fov_offset
                   reco_az reco_alt pointing_az pointing_alt) events;
  pointing_alt ← get_col "pointing_alt" events;
  pointing_az ← get_col "pointing_az" events;
  reco_alt ← get_col "reco_alt" events;
  reco_az ← get_col "reco_az" events;
  events ← set_col "reco_fov_lon" (Some "deg")
             (map4 (fun a b c d => float_neg (nominal_fov_lon a b c d))
                   pointing_alt pointing_az reco_alt reco_az) events;
  set_col "reco_fov_lat" (Some "deg")
          (map4 nominal_fov_lat pointing_alt pointing_az reco_alt reco_az)
          events.

(** Modelled from the spec: [TableLoader.read_subarray_events_chunked] of
    ctapipe/io is missing.  The chunk source yields the triples
    [(start, stop, chunk)] that cover the table in row order, [chunk_size]
    rows at a time: [ceil(n / chunk_size)] chunks, for a positive
    [chunk_size]. *)
Definition read_chunked (chunk_size : nat) (t : Table)
    : list (nat * nat * Table) :=
  (fun i =>
     (i * chunk_size, (i * chunk_size + chunk_size) `min` len t,
      MkTable (colnames t) (colinfo t)
              (take chunk_size (drop (i * chunk_size) (rows t)))))
  <$> seq 0 ((len t + chunk_size - 1) `div` chunk_size).

(** [EventLoader]: its preprocessor, its target spectrum and the events of
    its input file. *)
Record EventLoader : Type := {
  epp : EventPreprocessor;
  target_spectrum : option Spectrum;
  file : Table
}.

(** The body of the loop of [load_preselected_events] on one chunk. *)
Definition preselect_chunk (epp : EventPreprocessor) (events : Table)
    : result Table :=
  events ← normalise_column_names epp events;
  events ← make_derived_columns events;
  events ← calculate_selection (event_selection epp) events;
  mask ← get_col "selected" events;
  selected ← select_mask (as_bool <$> mask) events;
  keep_nescessary_columns_only selected.

(** The loop of [load_preselected_events]: [bits] grows by one table per
    chunk. *)
Fixpoint preselect_chunks (epp : EventPreprocessor)
    (chunks : list (nat * nat * Table)) (bits : list Table)
    : result (list Table) :=
  match chunks with
  | [] => Ok bits
  | (_, _, events) :: chunks' =>
      selected ← preselect_chunk epp events;
      preselect_chunks epp chunks' (bits ++ [selected])
  end.

(** The list [bits] that [load_preselected_events] hands to [vstack]. *)
Definition stacked_bits (epp : EventPreprocessor)
    (chunks : list (nat * nat * Table)) : result (list Table) :=
  let header := make_empty_table in
  bits ← preselect_chunks epp chunks [header];
  Ok (bits ++ [header]).

(** [EventLoader.load_preselected_events] on the chunks read from the file. *)
Definition load_chunks (epp : EventPreprocessor)
    (chunks : list (nat * nat * Table)) : result Table :=
  bits ← stacked_bits epp chunks;
  vstack_exact bits.

(** [EventLoader.load_preselected_events] *)
Definition load_preselected_events (self : EventLoader) (chunk_size : nat)
    : result Table :=
  load_chunks (epp self) (read_chunked chunk_size (file self)).

(** The whole table normalised, derived and filtered as a single unit. *)
Definition load_whole (self : EventLoader) : result Table :=
  load_chunks (epp self) [(0, len (file self), file self)].

(** [calculate_event_weights] of pyirf on a column of energies: the ratio
    of the two fluxes is converted to a pure number, which raises
    [UnitConversionError] unless the two normalisations have equivalent
    units, whatever the energies, also when there is none. *)
Definition event_weights (true_energy : list (option value))
    (target simulated : Spectrum) : result (list value) :=
  if is_equivalent (normalization_unit target) (normalization_unit simulated)
  then Ok ((fun e => VFloat (calculate_event_weights (as_float e) target
                               simulated)) <$> true_energy)
  else Raise (UnitConversionError (normalization_unit target)
                                  (normalization_unit simulated)).

(** The body of the loop of [make_event_weights] over one offset bin.  The
    loop runs for a point-like target and a diffuse simulated spectrum only,
    and the cone integral of a diffuse flux is a point-source flux: the two
    units are equivalent and the conversion of [calculate_event_weights]
    cannot fail here. *)
Definition weight_bin (target spectrum : Spectrum) (low high : float)
    (events : Table) : result Table :=
  offset ← get_col "true_source_fov_offset" events;
  let fov_mask :=
    (fun o => float_ge (as_float o) low && float_lt (as_float o) high)
      <$> offset in
  masked ← select_mask fov_mask events;
  energy ← get_col "true_energy" masked;
  set_col_masked "weight" fov_mask
    ((fun e => VFloat (calculate_event_weights (as_float e) target
                         (integrate_cone spectrum low high))) <$> energy)
    events.

Fixpoint weight_bins (target spectrum : Spectrum)
    (bins : list (float * float)) (events : Table) : result Table :=
  match bins with
  | [] => Ok events
  | (low, high) :: bins' =>
      events ← weight_bin target spectrum low high events;
      weight_bins target spectrum bins' events
  end.

(** [zip(edges[:-1], edges[1:])] *)
Definition bin_pairs (edges : list float) : list (float * float) :=
  zip (take (length edges - 1) edges) (drop 1 edges).

(** [EventLoader.make_event_weights] *)
Definition make_event_weights (self : EventLoader) (events : Table)
    (spectrum : Spectrum) (kind : string)
    (fov_offset_bins : option (list float)) : result Table :=
  match target_spectrum self with
  | None =>
      Raise (Exception
        "No spectrum is defined, need a spectrum for events weighting")
  | Some target =>
      if bool_decide (kind = "gammas")
         && is_equivalent (normalization_unit target) POINT_SOURCE_FLUX_UNIT
         && is_equivalent (normalization_unit spectrum) DIFFUSE_FLUX_UNIT
      then
        match fov_offset_bins with
        | None =>
            Raise (ValueError
              ("gamma_target_spectrum is point-like, but no fov offset bins "
               +:+ "for the integration of the simulated diffuse spectrum were given."))
        | Some edges => weight_bins target spectrum (bin_pairs edges) events
        end
      else
        energy ← get_col "true_energy" events;
        weights ← event_weights energy target spectrum;
        set_col "weight" None weights events
  end.

End preprocessing.

(** ** ctapipe/tools/make_irf.py *)

Section make_irf.
Context `{Externals}.

(** [OptimizationResultStore]: the cut tables read from the cuts file. *)
Record OptimizationResult : Type := {
  gh_cuts : CutTable;
  theta_cuts : CutTable
}.

(** The attributes of [IrfTool] that [calculate_selections] reads and
    writes. *)
Record IrfTool : Type := {
  full_enclosure : bool;
  do_background : bool;
  opt_result : OptimizationResult;
  signal_events : Table;
  background_events : Table
}.

(** [evaluate_binned_cut(values, bin_values, cut_table, op)] on two
    columns. *)
Definition binned_cut (values bin_values : list (option value))
    (cut_table : CutTable) (op : operator) : list value :=
  zip_with (fun v b => VBool (evaluate_binned_cut (as_float v) (as_float b)
                                                  cut_table op))
           values bin_values.

(** [a & b] on two boolean columns. *)
Definition column_and (a b : list (option value)) : list value :=
  zip_with (fun x y => VBool (as_bool x && as_bool y)) a b.

(** The selection columns of one event table: [calculate_selections] runs
    these statements on [signal_events] and then on [background_events]. *)
Definition add_selections (self : IrfTool) (events : Table) : result Table :=
  gh_score ← get_col "gh_score" events;
  reco_energy ← get_col "reco_energy" events;
  events ← set_col "selected_gh" None
             (binned_cut gh_score reco_energy (gh_cuts (opt_result self)) op_ge)
             events;
  if negb (full_enclosure self) then
    theta ← get_col "theta" events;
    reco_energy ← get_col "reco_energy" events;
    events ← set_col "selected_theta" None
               (binned_cut theta reco_energy (theta_cuts (opt_result self))
                           op_le)
               events;
    selected_theta ← get_col "selected_theta" events;
    selected_gh ← get_col "selected_gh" events;
    set_col "selected" None (column_and selected_theta selected_gh) events
  else
    selected_gh ← get_col "selected_gh" events;
    set_col_cells "selected" None selected_gh events.

(** [IrfTool.calculate_selections]; its debug message is left out. *)
Definition calculate_selections (self : IrfTool) : result IrfTool :=
  signal ← add_selections self (signal_events self);
  background ←
    (if do_background self then add_selections self (background_events self)
     else Ok (background_events self));
  Ok {| full_enclosure := full_enclosure self;
        do_background := do_background self;
        opt_result := opt_result self;
        signal_events := signal;
        background_events := background |}.

End make_irf.

(** ** ctapipe/tools/train_energy_regressor.py *)

Inductive log_level : Type := DEBUG | INFO | WARNING.

(** A call of [self.log]: level, format string, arguments. *)
Record LogRecord : Type := Log {
  level : log_level;
  message : string;
  args : list nat
}.

Section train_energy_regressor.
Context `{Externals}.

(** What a run of the tool changes: the generator [self.rng] and the log. *)
Record ToolState : Type := {
  rng : Generator;
  log : list LogRecord
}.

(** A method of the tool: it reads and writes the state and may raise. *)
Definition Tool (A : Type) : Type := ToolState -> result A * ToolState.

#[global] Instance tool_ret : MRet Tool := fun _ a s => (Ok a, s).

#[global] Instance tool_bind : MBind Tool :=
  fun _ _ f m s =>
    match m s with
    | (Ok a, s') => f a s'
    | (Raise e, s') => (Raise e, s')
    end.

Definition raise {A} (e : exn) : Tool A := fun s => (Raise e, s).

Definition lift {A} (r : result A) : Tool A := fun s => (r, s).

Definition emit (l : log_level) (msg : string) (a : list nat) : Tool () :=
  fun s => (Ok (), {| rng := rng s; log := log s ++ [Log l msg a] |}).

(** [self.rng.choice(n, size, replace=False)] *)
Definition rng_choice (n size : nat) : Tool (list nat) :=
  fun s =>
    let '(idx, g) := choice (rng s) n size in
    (Ok idx, {| rng := g; log := log s |}).

(** The configuration of [TrainEnergyRegressor] and of its regressor, and
    the telescope events of the input file by telescope type. *)
Record TrainEnergyRegressor : Type := {
  n_events : string -> option nat;
  chunk_size : nat;
  random_seed : Z;
  quality_query : QualityCriteria;
  feature_generator : list (string * (row -> value));
  features : list string;
  target : string;
  telescope_events : string -> Table
}.

(** [setup]: the state the tool starts from. *)
Definition setup (self : TrainEnergyRegressor) : ToolState :=
  {| rng := default_rng (random_seed self); log := [] |}.

(** Modelled from the spec: [QualityQuery.get_table_mask] of ctapipe/core is
    missing.  The mask of a row is the conjunction of the criteria, each a
    pure function of the row. *)
Definition get_table_mask (criteria : QualityCriteria) (t : Table)
    : list bool :=
  (fun r => forallb (fun c => c.2 r) criteria) <$> rows t.

(** Modelled from the spec: [FeatureGenerator.__call__] of ctapipe/core is
    missing.  Each feature, in order, becomes a column computed from the
    row. *)
Fixpoint generate_features (fs : list (string * (row -> value))) (t : Table)
    : result Table :=
  match fs with
  | [] => Ok t
  | (name, expr) :: fs' =>
      t' ← set_col name None (expr <$> rows t) t;
      generate_features fs' t'
  end.

(** Modelled from the spec: [check_valid_rows] of ctapipe/reco/preprocessing
    is missing.  A row is valid when none of its cells is non-finite or
    masked. *)
Definition check_valid_rows (t : Table) : list bool :=
  (fun r : row => forallb (fun c => isfinite (as_float (r !! c))) (colnames t))
  <$> rows t.

(** The loop of [_read_table] over the chunk iterator, from chunk number
    [chunk] on; the progress bar is left out. *)
Fixpoint read_chunks (self : TrainEnergyRegressor)
    (chunk_iterator : list (nat * nat * Table)) (chunk : nat)
    (table : list Table) (n_events_in_file n_valid_events_in_file : nat)
    : Tool (list Table * nat * nat) :=
  match chunk_iterator with
  | [] => mret (table, n_events_in_file, n_valid_events_in_file)
  | (start, stop, table_chunk) :: rest =>
      _ ← emit DEBUG "Events read from chunk %d: %d" [chunk; len table_chunk];
      let n_events_in_file := n_events_in_file + len table_chunk in
      let mask := get_table_mask (quality_query self) table_chunk in
      table_chunk ← lift (select_mask mask table_chunk);
      _ ← emit DEBUG "Events in chunk %d after applying quality_query: %d"
                     [chunk; len table_chunk];
      let n_valid_events_in_file := n_valid_events_in_file + len table_chunk in
      table_chunk ← lift (generate_features (feature_generator self)
                                            table_chunk);
      let feature_names := features self ++ [target self] in
      table_chunk ← lift (project feature_names table_chunk);
      read_chunks self rest (S chunk) (table ++ [table_chunk])
                  n_events_in_file n_valid_events_in_file
  end.

(** The statements of [_read_table] after the loop: [vstack], the two
    counters, the check for an empty table and the drop of invalid rows. *)
Definition stack_and_validate (telescope_type : string)
    (table : list Table) (n_events_in_file n_valid_events_in_file : nat)
    : Tool Table :=
  table ← lift (vstack table);
  _ ← emit INFO "Events read from input: %d" [n_events_in_file];
  _ ← emit INFO "Events after applying quality query: %d"
                [n_valid_events_in_file];
  if bool_decide (len table = 0) then
    raise (TooFewEvents ("No events after quality query for telescope type "
                         +:+ telescope_type))
  else
    let valid := check_valid_rows table in
    if negb (forallb id valid) then
      _ ← emit WARNING "Dropping non-predictable events." [];
      lift (select_mask valid table)
    else mret table.

(** The last statements of [_read_table]: the optional sampling. *)
Definition sample_events (self : TrainEnergyRegressor)
    (telescope_type : string) (table : Table) : Tool Table :=
  match n_events self telescope_type with
  | Some n =>
      if bool_decide (len table < n) then
        _ ← emit WARNING
              "Number of events in table (%d) is less than requested number of events %d"
              [len table; n];
        mret table
      else
        _ ← emit INFO "Sampling %d events" [n];
        idx ← rng_choice (len table) n;
        let idx := merge_sort le idx in
        lift (take_rows idx table)
  | None => mret table
  end.

(** [_read_table] up to the drop of invalid rows, on the chunks the
    iterator yields. *)
Definition reduce_table (self : TrainEnergyRegressor)
    (telescope_type : string) (chunk_iterator : list (nat * nat * Table))
    : Tool Table :=
  r ← read_chunks self chunk_iterator 0 [] 0 0;
  stack_and_validate telescope_type r.1.1 r.1.2 r.2.

(** [_read_table] on the chunks the iterator yields. *)
Definition read_table_chunks (self : TrainEnergyRegressor)
    (telescope_type : string) (chunk_iterator : list (nat * nat * Table))
    : Tool Table :=
  table ← reduce_table self telescope_type chunk_iterator;
  sample_events self telescope_type table.

(** [TrainEnergyRegressor._read_table] *)
Definition _read_table (self : TrainEnergyRegressor) (telescope_type : string)
    : Tool Table :=
  read_table_chunks self telescope_type
    (read_chunked (chunk_size self) (telescope_events self telescope_type)).

End train_energy_regressor.

(** ** A concrete instance of the external collaborators

    Small total functions that stand for pyirf, astropy and numpy on the
    test inputs below: a spectrum is its unit and a constant flux, the
    angular separation is the Manhattan distance, a cut table lists
    [(low, high, cut)], the generator is a counter and draws the highest
    indices first. *)

Definition float_binop (f : Q -> Q -> Q) (x y : float) : float :=
  match x, y with
  | Real a, Real b => Real (Qred (f a b))
  | _, _ => NaN
  end.

Definition example_separation (a b c d : float) : float :=
  float_binop Qplus (float_binop (fun x y => Qabs (x - y)) a c)
                    (float_binop (fun x y => Qabs (x - y)) b d).

Definition example_cut (v b : float) (cuts : list (Q * Q * Q))
    (op : operator) : bool :=
  match List.find (fun c => float_ge b (Real c.1.1) && float_lt b (Real c.1.2))
                  cuts with
  | Some c =>
      match op with
      | op_ge => float_ge v (Real c.2)
      | op_le => float_le v (Real c.2)
      end
  | None => false
  end.

Definition example_externals : Externals := {|
  Spectrum := flux_unit * Q;
  normalization_unit := fst;
  integrate_cone := fun s low high =>
    match float_binop Qminus high low with
    | Real w => (POINT_SOURCE_FLUX_UNIT, Qred (s.2 * w))
    | _ => (POINT_SOURCE_FLUX_UNIT, 0%Q)
    end;
  calculate_event_weights := fun e target simulated =>
    float_binop Qmult e (Real (target.2 / simulated.2));
  calculate_theta := example_separation;
  calculate_source_fov_offset := example_separation;
  nominal_fov_lon := fun palt paz ralt raz =>
    float_binop Qminus raz paz;
  nominal_fov_lat := fun palt paz ralt raz =>
    float_binop Qminus ralt palt;
  CutTable := list (Q * Q * Q);
  evaluate_binned_cut := example_cut;
  ALTAZ := VInt 0;
  Generator := nat;
  default_rng := Z.to_nat;
  choice := fun g n size => (take size (reverse (seq 0 n)), S g)
|}.

Definition num (n : Z) : value := VFloat (Real (inject_Z n)).

(** A DL2 row of the default reconstructors. *)
Definition dl2_row (event_id : Z) (pointing_lat gammaness offset : Z) : row :=
  list_to_map
    [ ("obs_id", VInt 1); ("event_id", VInt event_id);
      ("true_energy", num 2); ("true_az", num offset); ("true_alt", num 70);
      ("RandomForestRegressor_energy", num 3);
      ("HillasReconstructor_az", num 1); ("HillasReconstructor_alt", num 71);
      ("RandomForestClassifier_prediction", num gammaness);
      ("subarray_pointing_lat", num pointing_lat);
      ("subarray_pointing_lon", num 0);
      ("subarray_pointing_frame", VInt 0) ].

Definition dl2_colnames : list string :=
  [ "obs_id"; "event_id"; "true_energy"; "true_az"; "true_alt";
    "RandomForestRegressor_energy"; "HillasReconstructor_az";
    "HillasReconstructor_alt"; "RandomForestClassifier_prediction";
    "subarray_pointing_lat"; "subarray_pointing_lon";
    "subarray_pointing_frame" ].

Definition dl2_table (rs : list row) : Table := MkTable dl2_colnames ∅ rs.

Definition default_epp (criteria : QualityCriteria) : EventPreprocessor :=
  {| energy_reconstructor := "RandomForestRegressor";
     geometry_reconstructor := "HillasReconstructor";
     gammaness_classifier := "RandomForestClassifier";
     irf_pre_processing := true;
     optional_dl3_columns := false;
     raise_error_for_optional := true;
     event_selection := criteria |}.

(** The criterion [gh_score > 0]. *)
Definition positive_score : QualityCriteria :=
  [ ("positive_score",
     fun r : row => float_gt (as_float (r !! "gh_score")) (Real 0)) ].

(** ** What the table operations do to one row *)

(** The renames of [normalise_column_names] on one row. *)
Definition normalise_row (pairs : list (string * string)) (r : row) : row :=
  foldl (fun r p => if bool_decide (p.1 = p.2) then r
                    else rename_row p.1 p.2 r) r pairs.

Definition look (c : string) (r : row) : option value := r !! c.

Definition cell4 (f : float -> float -> float -> float -> float)
    (a b c d : string) (r : row) : value :=
  VFloat (f (as_float (r !! a)) (as_float (r !! b))
            (as_float (r !! c)) (as_float (r !! d))).

Section row_level.
Context `{Externals}.

(** The columns [make_derived_columns] adds, on one row. *)
Definition derive_row (r : row) : row :=
  let r := <["weight" := VFloat (Real 1)]> r in
  let r := <["theta" := cell4 calculate_theta
               "reco_az" "reco_alt" "true_az" "true_alt" r]> r in
  let r := <["true_source_fov_offset" := cell4 calculate_source_fov_offset
               "true_az" "true_alt" "pointing_az" "pointing_alt" r]> r in
  let r := <["reco_source_fov_offset" := cell4 calculate_source_fov_offset
               "reco_az" "reco_alt" "pointing_az" "pointing_alt" r]> r in
  <["reco_fov_lat" := cell4 nominal_fov_lat
      "pointing_alt" "pointing_az" "reco_alt" "reco_az" r]>
    (<["reco_fov_lon" :=
         cell4 (fun a b c d => float_neg (nominal_fov_lon a b c d))
               "pointing_alt" "pointing_az" "reco_alt" "reco_az" r]> r).

(** The conjunction of the quality criteria on one row. *)
Definition passes (criteria : QualityCriteria) (r : row) : bool :=
  forallb (fun c => c.2 r) criteria.

Definition mark_selected (criteria : QualityCriteria) (r : row) : row :=
  <["selected" := VBool (passes criteria r)]> r.

(** The rows one chunk contributes to the reduced table. *)
Definition reduce_rows (epp : EventPreprocessor)
    (pairs : list (string * string)) (rs : list row) : list row :=
  restrict_row persisted_columns
  <$> List.filter (fun r => as_bool (look "selected" r))
        (mark_selected (event_selection epp)
         <$> (derive_row <$> (normalise_row pairs <$> rs))).

(** The test of one offset bin of [make_event_weights] on a row. *)
Definition in_bin (low high : float) (r : row) : bool :=
  float_ge (as_float (r !! "true_source_fov_offset")) low
  && float_lt (as_float (r !! "true_source_fov_offset")) high.

(** The weight [make_event_weights] gives a row of the bin [low, high). *)
Definition bin_weight (target spectrum : Spectrum) (low high : float)
    (r : row) : value :=
  VFloat (calculate_event_weights (as_float (r !! "true_energy")) target
            (integrate_cone spectrum low high)).

Definition weight_row_bin (target spectrum : Spectrum) (r : row)
    (bin : float * float) : row :=
  if in_bin bin.1 bin.2 r
  then <["weight" := bin_weight target spectrum bin.1 bin.2 r]> r
  else r.

(** The loop of [make_event_weights] over the bins, on one row. *)
Definition weight_row (target spectrum : Spectrum)
    (bins : list (float * float)) (r : row) : row :=
  foldl (weight_row_bin target spectrum) r bins.

End row_level.

(** Bin edges in nondecreasing order. *)
Definition edges_sorted (edges : list float) : bool :=
  forallb (fun p => float_le p.1 p.2) (bin_pairs edges).

(** The chunks of [read_chunked] cover the table: same columns, and the
    rows in order. *)
Definition covers (chunks : list (nat * nat * Table)) (t : Table) : Prop :=
  Forall (fun ch => colnames ch.2 = colnames t /\ colinfo ch.2 = colinfo t)
         chunks
  /\ concat ((fun ch => rows ch.2) <$> chunks) = rows t.

(** ** What the training reduction does to one row *)

(** The features of [generate_features] on one row. *)
Definition feature_row (fs : list (string * (row -> value))) (r : row) : row :=
  foldl (fun r f => <[f.1 := f.2 r]> r) r fs.

(** [check_valid_rows] on one row of a table with the columns [cols]. *)
Definition row_valid (cols : list string) (r : row) : bool :=
  forallb (fun c => isfinite (as_float (r !! c))) cols.

Section train_row_level.
Context `{Externals}.

Definition feature_names (self : TrainEnergyRegressor) : list string :=
  features self ++ [target self].

(** What the loop of [_read_table] does to a chunk, its log calls apart. *)
Definition train_chunk (self : TrainEnergyRegressor) (table_chunk : Table)
    : result Table :=
  table_chunk ← select_mask (get_table_mask (quality_query self) table_chunk)
                            table_chunk;
  table_chunk ← generate_features (feature_generator self) table_chunk;
  project (feature_names self) table_chunk.

(** The rows a chunk contributes to the training table. *)
Definition train_rows (self : TrainEnergyRegressor) (rs : list row)
    : list row :=
  restrict_row (feature_names self)
  <$> (feature_row (feature_generator self)
       <$> List.filter (passes (quality_query self)) rs).

(** The rows [sample_events] keeps, for the generator it starts from. *)
Definition sample_rows (self : TrainEnergyRegressor) (telescope_type : string)
    (g : Generator) (rs : list row) : option (list row) :=
  match n_events self telescope_type with
  | Some n =>
      if bool_decide (length rs < n) then Some rs
      else mapM (fun i => rs !! i) (merge_sort le (choice g (length rs) n).1)
  | None => Some rs
  end.

(** The tool with another chunk size. *)
Definition with_chunk_size (c : nat) (self : TrainEnergyRegressor)
    : TrainEnergyRegressor :=
  {| n_events := n_events self;
     chunk_size := c;
     random_seed := random_seed self;
     quality_query := quality_query self;
     feature_generator := feature_generator self;
     features := features self;
     target := target self;
     telescope_events := telescope_events self |}.

End train_row_level.


(** ** The runs of the training reduction *)

Definition total_len (ts : list Table) : nat := sum_list (len <$> ts).

Definition feature_colnames (fs : list (string * (row -> value)))
    (names : list string) : list string :=
  foldl (fun a f => add_colname f.1 a) names fs.

Definition feature_info (fs : list (string * (row -> value)))
    (info : gmap string colattrs) : gmap string colattrs :=
  foldl (fun i f => <[f.1 := ColAttrs None None]> i) info fs.

Section train_runs.
Context `{Externals}.

Definition add_log (s : ToolState) (l : list LogRecord) : ToolState :=
  {| rng := rng s; log := log s ++ l |}.

(** The chunk after the quality query and the feature generator. *)
Definition featured (self : TrainEnergyRegressor) (table_chunk : Table)
    : Table :=
  MkTable (feature_colnames (feature_generator self) (colnames table_chunk))
          (feature_info (feature_generator self) (colinfo table_chunk))
          (feature_row (feature_generator self)
           <$> List.filter (passes (quality_query self)) (rows table_chunk)).

(** The tables the loop of [_read_table] collects. *)
Fixpoint train_chunks (self : TrainEnergyRegressor)
    (chunks : list (nat * nat * Table)) : result (list Table) :=
  match chunks with
  | [] => Ok []
  | ch :: chunks' =>
      sel ← train_chunk self ch.2;
      sels ← train_chunks self chunks';
      Ok (sel :: sels)
  end.

Definition too_few_events (telescope_type : string) : exn :=
  TooFewEvents ("No events after quality query for telescope type "
                +:+ telescope_type).

(** The outcome of the check for an empty table and of the drop of invalid
    rows on the stacked table. *)
Definition validated (telescope_type : string) (t : Table) : result Table :=
  if bool_decide (len t = 0) then Raise (too_few_events telescope_type)
  else Ok (MkTable (colnames t) (colinfo t)
                   (List.filter (row_valid (colnames t)) (rows t))).

Definition counters_log (n_events_in_file n_valid_events_in_file : nat)
    : list LogRecord :=
  [ Log INFO "Events read from input: %d" [n_events_in_file];
    Log INFO "Events after applying quality query: %d"
        [n_valid_events_in_file] ].

Definition dropping_warning : LogRecord :=
  Log WARNING "Dropping non-predictable events." [].

Definition validation_log (t : Table) : list LogRecord :=
  if bool_decide (len t = 0) then []
  else if forallb (row_valid (colnames t)) (rows t) then []
  else [dropping_warning].

End train_runs.


(** ** Test inputs *)

(** Two events whose pointing latitude differs by one degree. *)
Definition varying_pointing_file : Table :=
  dl2_table [dl2_row 1 70 1 0; dl2_row 2 71 1 0].

(** Five events with a fixed pointing; events 2 and 4 have a classifier score
    of zero. *)
Definition steady_file : Table :=
  dl2_table [dl2_row 1 70 1 0; dl2_row 2 70 0 1; dl2_row 3 70 1 2;
             dl2_row 4 70 0 3; dl2_row 5 70 1 4].

Definition example_loader (events : Table) : @EventLoader example_externals :=
  @Build_EventLoader example_externals (default_epp positive_score)
    (Some (POINT_SOURCE_FLUX_UNIT, 3%Q)) events.

Definition training_row (x y : float) : row :=
  list_to_map [("hillas_intensity", VFloat x); ("true_energy", VFloat y)].

(** Six telescope events: the second fails the quality query and the fourth
    has a NaN feature. *)
Definition training_events : Table :=
  MkTable ["hillas_intensity"; "true_energy"] ∅
    [ training_row (Real 10) (Real 1); training_row (Real 0) (Real 2);
      training_row (Real 30) (Real 3); training_row NaN (Real 4);
      training_row (Real 50) (Real 5); training_row (Real 60) (Real 6) ].

Definition example_tool (n : option nat) (events : Table)
    : TrainEnergyRegressor :=
  {| n_events := fun _ => n;
     chunk_size := 2;
     random_seed := 0;
     quality_query :=
       [("intensity",
         fun r : row =>
           negb (float_le (as_float (r !! "hillas_intensity")) (Real 0)))];
     feature_generator :=
       [("intensity_doubled",
         fun r : row =>
           VFloat (float_binop Qplus (as_float (r !! "hillas_intensity"))
                                     (as_float (r !! "hillas_intensity"))))];
     features := ["hillas_intensity"; "intensity_doubled"];
     target := "true_energy";
     telescope_events := fun _ => events |}.

Definition start_state : @ToolState example_externals :=
  @Build_ToolState example_externals 0 [].


(** Whether a run of the tool completed. *)
Definition ran_ok `{Externals} {A} (r : result A * ToolState) : bool :=
  is_ok r.1.


(** [a <= b] on float64, or the same value: the reflexive closure of
    [float_le], which is not reflexive at NaN. *)
Definition float_le_refl (a b : float) : Prop :=
  a = b \/ float_le a b = true.

(** The last bin of the list that holds the row, if any. *)
Definition last_bin (bins : list (float * float)) (r : row)
    : option (float * float) :=
  List.find (fun b => in_bin b.1 b.2 r) (reverse bins).

(** The columns the loop over the offset bins reads and writes. *)
Definition weight_columns (names : list string) : bool :=
  bool_decide ("true_source_fov_offset" ∈ names)
  && bool_decide ("true_energy" ∈ names)
  && bool_decide ("weight" ∈ names).


Definition weighted_row (energy offset : Q) : row :=
  list_to_map [ ("true_energy", VFloat (Real energy));
                ("true_source_fov_offset", VFloat (Real offset));
                ("weight", VFloat (Real 1)) ].

(** Four reduced events at the offsets 1/2, 3/2, 2 and 5 degrees. *)
Definition weighted_events : Table :=
  MkTable ["true_energy"; "true_source_fov_offset"; "weight"] ∅
    [ weighted_row 2 (1 # 2); weighted_row 4 (3 # 2);
      weighted_row 2 2; weighted_row 2 5 ].

(** The offset bins [0, 1) and [1, 2). *)
Definition offset_edges : list float := [Real 0; Real 1; Real 2].

Definition diffuse_spectrum : @Spectrum example_externals :=
  (DIFFUSE_FLUX_UNIT, 2%Q).

Definition point_like_message : string :=
  "gamma_target_spectrum is point-like, but no fov offset bins "
  +:+ "for the integration of the simulated diffuse spectrum were given.".


(** ** The selection flags of [calculate_selections] *)

Section selection_flags.
Context `{Externals}.

(** The classifier cut of a row. *)
Definition gh_cut (self : IrfTool) (r : row) : bool :=
  evaluate_binned_cut (as_float (r !! "gh_score"))
                      (as_float (r !! "reco_energy"))
                      (gh_cuts (opt_result self)) op_ge.

(** The angular cut of a row. *)
Definition theta_cut (self : IrfTool) (r : row) : bool :=
  evaluate_binned_cut (as_float (r !! "theta"))
                      (as_float (r !! "reco_energy"))
                      (theta_cuts (opt_result self)) op_le.

(** The table [after] holds, for every row of [before] and at the same
    index, the flags of that row: [selected_gh] always; in full-enclosure
    mode [selected] is the classifier cut; otherwise [selected_theta] is
    there too and [selected] is the conjunction of the two cuts. *)
Definition selection_flags (self : IrfTool) (before after : Table) : Prop :=
  len after = len before
  /\ has_col "selected_gh" after = true
  /\ has_col "selected" after = true
  /\ (full_enclosure self = false -> has_col "selected_theta" after = true)
  /\ forall i r,
       rows before !! i = Some r ->
       exists r',
         rows after !! i = Some r'
         /\ r' !! "selected_gh" = Some (VBool (gh_cut self r))
         /\ if full_enclosure self
            then r' !! "selected" = Some (VBool (gh_cut self r))
            else r' !! "selected_theta" = Some (VBool (theta_cut self r))
                 /\ r' !! "selected"
                    = Some (VBool (theta_cut self r && gh_cut self r)).

(** The columns [calculate_selections] reads from an event table. *)
Definition cut_columns (self : IrfTool) (events : Table) : bool :=
  has_col "gh_score" events && has_col "reco_energy" events
  && (full_enclosure self || has_col "theta" events).

End selection_flags.

Definition cut_row (gh_score reco_energy theta : Q) : row :=
  list_to_map [ ("gh_score", VFloat (Real gh_score));
                ("reco_energy", VFloat (Real reco_energy));
                ("theta", VFloat (Real theta)) ].

Definition cut_events (rs : list row) : Table :=
  MkTable ["gh_score"; "reco_energy"; "theta"] ∅ rs.

(** A point-like analysis with background: the classifier cut is 1/2 and
    the angular cut 1 in the energy bin [0, 10). *)
Definition example_irf_tool (full : bool) : @IrfTool example_externals :=
  @Build_IrfTool example_externals full true
    (@Build_OptimizationResult example_externals
       [(0%Q, 10%Q, 1 # 2)] [(0%Q, 10%Q, 1%Q)])
    (cut_events [cut_row (9 # 10) 1 (1 # 2); cut_row (9 # 10) 1 2;
                 cut_row (1 # 10) 1 (1 # 2); cut_row (9 # 10) 20 (1 # 2)])
    (cut_events [cut_row (1 # 10) 1 2; cut_row (9 # 10) 1 (1 # 2)]).


(** Whether every column of the header carries a description. *)
Definition header_described : bool :=
  forallb (fun c => match c.2 with
                    | ColAttrs _ (Some _) => true
                    | _ => false
                    end) header_columns.


(** ** The guards and the names of [normalise_column_names] *)

Section normalise_guards.
Context `{Externals}.

(** The two pointing guards let the table through: the columns they read
    are there, the pointing latitude does not vary and every pointing frame
    is ALTAZ. *)
Definition pointing_guards (epp : EventPreprocessor) (events : Table) : bool :=
  (if irf_pre_processing epp then
     has_col "subarray_pointing_lat" events
     && negb (std_gt (as_float <$> (look "subarray_pointing_lat"
                                    <$> rows events)) (1 # 1000))
   else true)
  && has_col "subarray_pointing_frame" events
  && negb (existsb (fun c => cell_neqb c ALTAZ)
                   (look "subarray_pointing_frame" <$> rows events)).

End normalise_guards.

(** Every pair [normalise_column_names] may rename. *)
Definition all_renames (epp : EventPreprocessor) : list (string * string) :=
  zip (rename_from_required epp ++ rename_from_optional epp)
      (rename_to_required ++ rename_to_optional).

(** The old names as a prefix and a suffix. *)
Definition rename_from_parts (epp : EventPreprocessor)
    : list (string * string) :=
  [ (energy_reconstructor epp, "_energy");
    (geometry_reconstructor epp, "_az");
    (geometry_reconstructor epp, "_alt");
    (gammaness_classifier epp, "_prediction");
    ("", "subarray_pointing_lat");
    ("", "subarray_pointing_lon");
    (energy_reconstructor epp, "_energy_uncert");
    (geometry_reconstructor epp, "_ang_distance_uncert");
    (geometry_reconstructor epp, "_core_x");
    (geometry_reconstructor epp, "_core_y");
    (geometry_reconstructor epp, "_core_uncert_x");
    (geometry_reconstructor epp, "_core_uncert_y");
    (geometry_reconstructor epp, "_h_max");
    (geometry_reconstructor epp, "_h_max_uncert") ].

(** Two suffixes differ on the characters they would share at the end of a
    string. *)
Definition suffix_clash (t1 t2 : string) : bool :=
  let k1 := String.list_ascii_of_string t1 in
  let k2 := String.list_ascii_of_string t2 in
  negb (bool_decide (drop (length k1 - length k2) k1
                     = drop (length k2 - length k1) k2)).

Fixpoint pairwise_clash (ts : list string) : bool :=
  match ts with
  | [] => true
  | t :: ts' => forallb (suffix_clash t) ts' && pairwise_clash ts'
  end.

(** An event whose pointing frame is not ALTAZ. *)
Definition icrs_file : Table :=
  dl2_table [<["subarray_pointing_frame" := VInt 1]> (dl2_row 1 70 1 0)].

(** ** What the later properties speak of *)

(** The table [after] has the rows of [before], one for one, with every cell
    outside the columns [cols] as it was, and every column of [before]. *)
Definition same_outside (cols : list string) (before after : Table) : Prop :=
  len after = len before
  /\ (forall c, c ∈ colnames before -> c ∈ colnames after)
  /\ forall i r,
       rows before !! i = Some r ->
       exists r',
         rows after !! i = Some r' /\ forall c, c ∉ cols -> r' !! c = r !! c.

Definition selection_columns : list string :=
  ["selected_gh"; "selected_theta"; "selected"].

Section selection_rows.
Context `{Externals}.

(** The statements of [calculate_selections] on one row. *)
Definition select_row (self : IrfTool) (r : row) : row :=
  let r := <["selected_gh" := VBool (gh_cut self r)]> r in
  if full_enclosure self then
    partial_alter (fun _ => r !! "selected_gh") "selected" r
  else
    let r := <["selected_theta" := VBool (theta_cut self r)]> r in
    <["selected" := VBool (as_bool (r !! "selected_theta")
                           && as_bool (r !! "selected_gh"))]> r.

(** The first column [calculate_selections] reads from an event table and
    does not find. *)
Definition missing_cut_column (self : IrfTool) (events : Table)
    : option string :=
  if negb (has_col "gh_score" events) then Some "gh_score"
  else if negb (has_col "reco_energy" events) then Some "reco_energy"
  else if negb (full_enclosure self) && negb (has_col "theta" events)
       then Some "theta"
  else None.

End selection_rows.

(** The columns [make_derived_columns] reads, in the order it first reads
    them, and the columns it writes, in the order it writes them. *)
Definition derived_reads : list string :=
  [ "gh_score"; "true_az"; "true_alt"; "reco_az"; "reco_alt";
    "pointing_az"; "pointing_alt" ].

Definition derived_columns : list string :=
  [ "weight"; "theta"; "true_source_fov_offset"; "reco_source_fov_offset";
    "reco_fov_lon"; "reco_fov_lat" ].

(** The errors a table operation raises are index, key or value errors. *)
Definition table_error (e : exn) : Prop :=
  match e with
  | KeyError _ | ValueError _ | IndexError _ => True
  | _ => False
  end.

(** ** [IrfTool._stack_background] of ctapipe/tools/make_irf.py *)

(** [reduced_events[key]] on the dict of reduced event tables. *)
Definition dict_get (key : string) (reduced_events : gmap string Table)
    : result Table :=
  match reduced_events !! key with
  | Some t => Ok t
  | None => Raise (KeyError key)
  end.

(** [IrfTool._stack_background]: [proton_file] and [electron_file] are the
    two path traits, [None] when not given; a path is always true. *)
Definition _stack_background (proton_file electron_file : option string)
    (reduced_events : gmap string Table) : result Table :=
  let bkgs :=
    match proton_file with Some _ => ["protons"] | None => [] end
    ++ match electron_file with Some _ => ["electrons"] | None => [] end in
  if bool_decide (length bkgs = 2) then
    protons ← dict_get "protons" reduced_events;
    electrons ← dict_get "electrons" reduced_events;
    vstack [protons; electrons]
  else
    match bkgs !! 0 with
    | Some key => dict_get key reduced_events
    | None => Raise (IndexError "list index out of range")
    end.

(** ** [EventLoader.get_simulation_information] of
    ctapipe/irf/preprocessing.py *)

(** A row of the simulation configuration table the loader reads, with the
    columns the method uses. *)
Record SimulationRun : Type := {
  spectral_index : float;
  energy_range_min : float;
  energy_range_max : float;
  max_scatter_range : float;
  max_viewcone_radius : float;
  min_viewcone_radius : float;
  n_showers : Z
}.

(** Equality of two float64 as [np.unique] sees it: NaN equals NaN. *)
Definition same_float (x y : float) : bool :=
  match x, y with
  | NaN, NaN => true
  | _, _ => float_eqb x y
  end.

(** The values [np.unique] keeps, one for each class of equal values; it
    returns them sorted, and only their number is used. *)
Fixpoint np_unique (xs : list float) : list float :=
  match xs with
  | [] => []
  | x :: xs' =>
      x :: List.filter (fun y => negb (same_float x y)) (np_unique xs')
  end.

(** The value of a sum of int64: it wraps around. *)
Definition int64 (z : Z) : Z := ((z + 2 ^ 63) mod 2 ^ 64 - 2 ^ 63)%Z.

Definition differs_error (itm : string) : exn :=
  NotImplementedError
    ("Unsupported: '" +:+ itm +:+ "' differs across simulation runs").

(** The columns the loop of [get_simulation_information] checks, in its
    order. *)
Definition checked_items : list (string * (SimulationRun -> float)) :=
  [ ("spectral_index", spectral_index);
    ("energy_range_min", energy_range_min);
    ("energy_range_max", energy_range_max) ].

Section simulation_information.
Context `{Externals}.

(** [SimulatedEventsInfo] of pyirf and its constructor, with the arguments
    in the order of the call: [n_showers], [energy_min], [energy_max],
    [max_impact], [spectral_index], [viewcone_max], [viewcone_min]. *)
Variable SimulatedEventsInfo : Type.
Variable simulated_events_info :
  Z -> float -> float -> float -> float -> float -> float ->
  result SimulatedEventsInfo.

(** [PowerLaw.from_simulation(sim_info, obstime)] *)
Variable from_simulation : SimulatedEventsInfo -> float -> result Spectrum.

(** [EventLoader.get_simulation_information]: [sim] is the table
    [read_simulation_configuration] returns, [shower_distribution] the
    column [n_entries] of the table [read_shower_distribution] returns, or
    [None] when it raises [NoSuchNodeError].  The result is the pair of the
    values of the dict [meta]. *)
Definition get_simulation_information (sim : list SimulationRun)
    (shower_distribution : option (list Z)) (obs_time : float)
    : result (SimulatedEventsInfo * Spectrum) :=
  let show :=
    match shower_distribution with
    | Some n_entries => n_entries
    | None => n_showers <$> sim
    end in
  match List.find
          (fun itm => Nat.ltb 1 (length (np_unique (itm.2 <$> sim))))
          checked_items with
  | Some itm => Raise (differs_error itm.1)
  | None =>
      let total := int64 (foldr Z.add 0%Z show) in
      match sim with
      | [] =>
          Raise (IndexError "index 0 is out of bounds for axis 0 with size 0")
      | run :: _ =>
          sim_info ← simulated_events_info total
                       (energy_range_min run) (energy_range_max run)
                       (max_scatter_range run) (spectral_index run)
                       (max_viewcone_radius run) (min_viewcone_radius run);
          spectrum ← from_simulation sim_info obs_time;
          Ok (sim_info, spectrum)
      end
  end.

End simulation_information.

(** A column holds the same value in every run. *)
Definition constant (col : SimulationRun -> float) (sim : list SimulationRun)
    : Prop :=
  forall a b, a ∈ sim -> b ∈ sim -> same_float (col a) (col b) = true.

(** Two runs of a power law of index -2 between 0.01 and 100 TeV that differ
    in their scatter range, their viewcone and their number of showers. *)
Definition example_runs : list SimulationRun :=
  [ {| spectral_index := Real (-2); energy_range_min := Real (1 # 100);
       energy_range_max := Real 100; max_scatter_range := Real 1000;
       max_viewcone_radius := Real 10; min_viewcone_radius := Real 0;
       n_showers := 500 |};
    {| spectral_index := Real (-2); energy_range_min := Real (1 # 100);
       energy_range_max := Real 100; max_scatter_range := Real 2000;
       max_viewcone_radius := Real 5; min_viewcone_radius := Real 1;
       n_showers := 700 |} ].

(** The constructor of [SimulatedEventsInfo] as a record of its arguments,
    and a spectrum made from it. *)
Definition example_sim_info (n : Z) (e_min e_max impact index v_max v_min : float)
    : result (Z * list float) :=
  Ok (n, [e_min; e_max; impact; index; v_max; v_min]).

Definition example_from_simulation (info : Z * list float) (obs_time : float)
    : result (@Spectrum example_externals) :=
  Ok (DIFFUSE_FLUX_UNIT, inject_Z info.1).

(** The steady file without the columns [true_energy] and
    [HillasReconstructor_az]. *)
Definition incomplete_file : Table :=
  MkTable [ "obs_id"; "event_id"; "true_az"; "true_alt";
            "RandomForestRegressor_energy"; "HillasReconstructor_alt";
            "RandomForestClassifier_prediction"; "subarray_pointing_lat";
            "subarray_pointing_lon"; "subarray_pointing_frame" ]
          ∅ (rows steady_file).

(** * Properties *)

(** ** The result monad *)

Lemma bind_Ok {A B} (m : result A) (f : A -> result B) (b : B) :
  mbind f m = Ok b -> exists a, m = Ok a /\ f a = Ok b.
Proof. destruct m as [a|e]; simpl; [eauto | discriminate]. Qed.

Ltac inv_bind H :=
  let a := fresh "x" in
  let Ha := fresh "E" in
  apply bind_Ok in H as (a & Ha & H).

(** ** Lists, masks and columns *)

Lemma compress_fmap {A} (p : A -> bool) (xs : list A) :
  compress (p <$> xs) xs = List.filter p xs.
Proof. induction xs as [|x xs IH]; csimpl; [done|]. by rewrite IH. Qed.

Lemma filter_app' {A} (p : A -> bool) (l1 l2 : list A) :
  List.filter p (l1 ++ l2) = List.filter p l1 ++ List.filter p l2.
Proof. apply List.filter_app. Qed.

Lemma get_col_Ok c t l :
  get_col c t = Ok l -> has_col c t = true /\ l = look c <$> rows t.
Proof. unfold get_col. destruct (has_col c t); [by intros [= <-] | done]. Qed.

Lemma get_col_has c t :
  has_col c t = true -> get_col c t = Ok (look c <$> rows t).
Proof. unfold get_col. by intros ->. Qed.

Lemma set_col_fmap c u (f : row -> value) names info rs :
  set_col c u (f <$> rs) (MkTable names info rs) =
  Ok (MkTable (add_colname c names) (<[c := ColAttrs u None]> info)
              ((fun r => <[c := f r]> r) <$> rs)).
Proof.
  unfold set_col, len; simpl.
  rewrite length_fmap, bool_decide_eq_true_2 by done.
  do 2 f_equal. induction rs as [|r rs IH]; csimpl; [done|].
  by rewrite IH.
Qed.

Lemma set_col_fmap2 c u (f : row -> value) (g : row -> row) names info rs :
  set_col c u (f <$> rs) (MkTable names info (g <$> rs)) =
  Ok (MkTable (add_colname c names) (<[c := ColAttrs u None]> info)
              ((fun r => <[c := f r]> (g r)) <$> rs)).
Proof.
  unfold set_col, len; simpl.
  rewrite !length_fmap, bool_decide_eq_true_2 by done.
  do 2 f_equal. induction rs as [|r rs IH]; csimpl; [done|].
  by rewrite IH.
Qed.

Lemma set_col_scalar_fmap c u v names info rs :
  set_col_scalar c u v (MkTable names info rs) =
  Ok (MkTable (add_colname c names) (<[c := ColAttrs u None]> info)
              ((fun r => <[c := v]> r) <$> rs)).
Proof.
  unfold set_col_scalar.
  rewrite <- (set_col_fmap c u (fun _ => v) names info rs).
  f_equal. unfold len; simpl. induction rs as [|r rs IH]; csimpl; [done|].
  by rewrite IH.
Qed.

Lemma map4_rows f a b c d (rs : list row) :
  map4 f (look a <$> rs) (look b <$> rs) (look c <$> rs) (look d <$> rs)
  = cell4 f a b c d <$> rs.
Proof.
  unfold map4. induction rs as [|r rs IH]; csimpl; [done|].
  by rewrite IH.
Qed.

Lemma has_col_add c c' names info rs :
  has_col c (MkTable names info rs) = true ->
  has_col c (MkTable (add_colname c' names) info rs) = true.
Proof.
  unfold has_col, add_colname; simpl. intros Hc%bool_decide_eq_true.
  apply bool_decide_eq_true. case_bool_decide; [done|].
  apply elem_of_app; by left.
Qed.

Lemma bind_Ok_l {A B} (a : A) (f : A -> result B) : mbind f (Ok a) = f a.
Proof. done. Qed.

Lemma select_mask_fmap (p : row -> bool) names info rs :
  select_mask (p <$> rs) (MkTable names info rs) =
  Ok (MkTable names info (List.filter p rs)).
Proof.
  unfold select_mask, len; simpl.
  rewrite length_fmap, bool_decide_eq_true_2 by done.
  by rewrite compress_fmap.
Qed.

Lemma project_Ok names t t' :
  project names t = Ok t' ->
  colnames t' = names /\ rows t' = restrict_row names <$> rows t
  /\ colinfo t' = filter (fun kv => kv.1 ∈ names) (colinfo t)
  /\ NoDup names /\ Forall (fun c => c ∈ colnames t) names.
Proof.
  unfold project. destruct (List.find _ names) eqn:Hf; [done|].
  case_bool_decide; [|done]. intros [= <-]; simpl. repeat split; try done.
  apply Forall_forall. intros c Hc.
  apply list_elem_of_In in Hc.
  pose proof (List.find_none _ _ Hf c Hc) as Hn. simpl in Hn.
  apply negb_false_iff, bool_decide_eq_true in Hn. done.
Qed.

(** ** Row-wise reading of the preprocessing steps *)

Section preprocessing_facts.
Context `{Externals}.

Ltac derive_step H :=
  first
    [ rewrite bind_Ok_l in H
    | match type of H with
      | mbind _ (set_col _ _ (map4 ?f _ _ _ _) _) = _ =>
          rewrite (map4_rows f), set_col_fmap in H
      | set_col _ _ (map4 ?f _ _ _ _) _ = _ =>
          rewrite (map4_rows f), set_col_fmap2 in H
      end
    | let x := fresh "col" in
      let E := fresh "E" in
      apply bind_Ok in H as (x & E & H); apply get_col_Ok in E as [_ ->] ].

Lemma make_derived_columns_rows events events' :
  make_derived_columns events = Ok events' ->
  rows events' = derive_row <$> rows events.
Proof.
  unfold make_derived_columns. intros Hm. destruct events as [names info rs].
  rewrite set_col_scalar_fmap, bind_Ok_l in Hm.
  unfold set_col_unit in Hm.
  match type of Hm with context [has_col ?c ?t] =>
    destruct (has_col c t); [|done] end.
  rewrite bind_Ok_l in Hm. cbn [rows colnames colinfo] in Hm.
  repeat (derive_step Hm; cbn [rows colnames colinfo] in Hm).
  injection Hm as <-. simpl.
  rewrite <- !list_fmap_compose. by apply list_fmap_ext.
Qed.

Lemma rename_column_rows a b t t' :
  rename_column a b t = Ok t' ->
  rows t' = normalise_row [(a, b)] <$> rows t.
Proof.
  unfold rename_column, normalise_row. simpl.
  destruct (negb (has_col a t)); [done|].
  case_bool_decide.
  - intros [= <-]. by rewrite list_fmap_id.
  - destruct (has_col b t); [done|]. by intros [= <-].
Qed.

Lemma rename_columns_rows pairs t t' :
  rename_columns pairs.*1 pairs.*2 t = Ok t' ->
  rows t' = normalise_row pairs <$> rows t.
Proof.
  revert t. induction pairs as [|[a b] pairs IH]; intros t; csimpl.
  - intros [= <-]. by rewrite list_fmap_id.
  - intros Hr. inv_bind Hr. apply rename_column_rows in E.
    rewrite (IH _ Hr), E, <- list_fmap_compose. by apply list_fmap_ext.
Qed.

Lemma normalise_column_names_rows epp events events' :
  normalise_column_names epp events = Ok events' ->
  rows events' = normalise_row (renames epp events) <$> rows events.
Proof.
  unfold normalise_column_names. intros Hn.
  inv_bind Hn. destruct x; [done|].
  inv_bind Hn. destruct (existsb _ _); [done|].
  destruct (List.find _ _); [done|].
  by apply rename_columns_rows.
Qed.

Lemma preselect_chunk_rows epp events selected :
  preselect_chunk epp events = Ok selected ->
  rows selected = reduce_rows epp (renames epp events) (rows events).
Proof.
  unfold preselect_chunk, reduce_rows. intros Hp.
  inv_bind Hp. apply normalise_column_names_rows in E.
  inv_bind Hp. apply make_derived_columns_rows in E0.
  unfold calculate_selection in Hp. destruct x0 as [names info rs].
  simpl in E0. subst rs. cbn [rows] in Hp.
  rewrite set_col_fmap, bind_Ok_l in Hp.
  inv_bind Hp. apply get_col_Ok in E0 as [_ ->]. cbn [rows] in Hp.
  rewrite <- list_fmap_compose, select_mask_fmap, bind_Ok_l in Hp.
  unfold keep_nescessary_columns_only in Hp.
  apply project_Ok in Hp as (_ & -> & _). simpl.
  by rewrite E.
Qed.

End preprocessing_facts.

(** ** Chunking *)

Lemma take_add_drop {A} (l : list A) n m :
  take (n + m) l = take n l ++ take m (drop n l).
Proof.
  revert l. induction n as [|n IH]; intros [|x l]; simpl; try done.
  - by rewrite take_nil.
  - by rewrite IH.
Qed.

Lemma concat_chunks {A} (l : list A) c k :
  concat ((fun i => take c (drop (i * c) l)) <$> seq 0 k) = take (k * c) l.
Proof.
  induction k as [|k IH]; [done|].
  rewrite seq_S, fmap_app, concat_app, IH. simpl.
  rewrite app_nil_r, (Nat.add_comm c), take_add_drop. done.
Qed.

Lemma chunk_count_covers n c : 0 < c -> n <= (n + c - 1) `div` c * c.
Proof.
  intros Hc. pose proof (Nat.div_mod (n + c - 1) c ltac:(lia)) as Hd.
  pose proof (Nat.mod_upper_bound (n + c - 1) c ltac:(lia)) as Hm.
  nia.
Qed.

Lemma read_chunked_covers c t : 0 < c -> covers (read_chunked c t) t.
Proof.
  intros Hc. unfold covers, read_chunked. split.
  - apply Forall_fmap, Forall_forall. by intros i _.
  - rewrite <- list_fmap_compose.
    change (concat ((fun i => take c (drop (i * c) (rows t)))
                    <$> seq 0 ((len t + c - 1) `div` c)) = rows t).
    rewrite concat_chunks. apply take_ge. by apply chunk_count_covers.
Qed.

Lemma whole_covers t : covers [(0, len t, t)] t.
Proof.
  split; [by repeat constructor|]. simpl. by rewrite app_nil_r.
Qed.

Lemma renames_colnames epp t1 t2 :
  colnames t1 = colnames t2 -> renames epp t1 = renames epp t2.
Proof.
  intros Hc. unfold renames, has_col. by rewrite Hc.
Qed.

Lemma vstack_exact_rows ts t :
  vstack_exact ts = Ok t -> rows t = concat (rows <$> ts).
Proof.
  destruct ts as [|t0 [|t1 ts]]; simpl; [done| |].
  - intros [= <-]. by rewrite app_nil_r.
  - destruct (same_columns t0 t1 && _); [|done]. by intros [= <-].
Qed.

Section loader_facts.
Context `{Externals}.

Lemma reduce_rows_app epp pairs l1 l2 :
  reduce_rows epp pairs (l1 ++ l2)
  = reduce_rows epp pairs l1 ++ reduce_rows epp pairs l2.
Proof.
  unfold reduce_rows. by rewrite !fmap_app, filter_app', fmap_app.
Qed.

Lemma reduce_rows_concat epp pairs ls :
  reduce_rows epp pairs (concat ls) = concat (reduce_rows epp pairs <$> ls).
Proof.
  induction ls as [|l ls IH]; csimpl; [done|].
  by rewrite reduce_rows_app, IH.
Qed.

(** The tables the loop appends are the reduced chunks, in order. *)
Lemma preselect_chunks_Ok epp chunks bits bits' :
  preselect_chunks epp chunks bits = Ok bits' ->
  exists sels, bits' = bits ++ sels
    /\ Forall2 (fun ch sel => preselect_chunk epp ch.2 = Ok sel) chunks sels.
Proof.
  revert bits. induction chunks as [|[[start stop] events] chunks IH];
    intros bits; simpl.
  - intros [= <-]. exists []. by rewrite app_nil_r.
  - intros Hp. inv_bind Hp. apply IH in Hp as (sels & -> & HF).
    exists (x :: sels). rewrite <- app_assoc. split; [done|].
    by constructor.
Qed.

Lemma stacked_bits_Ok epp chunks bits :
  stacked_bits epp chunks = Ok bits ->
  exists sels, bits = make_empty_table :: sels ++ [make_empty_table]
    /\ Forall2 (fun ch sel => preselect_chunk epp ch.2 = Ok sel) chunks sels.
Proof.
  unfold stacked_bits. intros Hs. inv_bind Hs.
  apply preselect_chunks_Ok in E as (sels & -> & HF).
  injection Hs as <-. by exists sels.
Qed.

Lemma load_chunks_Ok epp chunks t :
  load_chunks epp chunks = Ok t ->
  exists sels,
    Forall2 (fun ch sel => preselect_chunk epp ch.2 = Ok sel) chunks sels
    /\ rows t = concat (rows <$> sels).
Proof.
  unfold load_chunks. intros Hl. inv_bind Hl.
  apply stacked_bits_Ok in E as (sels & -> & HF).
  apply vstack_exact_rows in Hl. exists sels. split; [done|].
  rewrite Hl. csimpl. rewrite fmap_app, concat_app. csimpl.
  by rewrite !app_nil_r.
Qed.

(** A reduction that completes yields the rows of the table reduced row by
    row, whatever the chunks. *)
Lemma load_chunks_rows epp chunks events t :
  covers chunks events ->
  load_chunks epp chunks = Ok t ->
  rows t = reduce_rows epp (renames epp events) (rows events).
Proof.
  intros [Hcols Hrows] Hl.
  apply load_chunks_Ok in Hl as (sels & HF & ->).
  rewrite <- Hrows, reduce_rows_concat, <- list_fmap_compose. f_equal.
  clear Hrows. induction HF as [|ch sel chunks sels Hch HF IH]; [done|].
  apply Forall_cons in Hcols as [[Hc _] Hcols]. csimpl.
  rewrite (IH Hcols). f_equal.
  rewrite (preselect_chunk_rows _ _ _ Hch).
  by rewrite (renames_colnames epp _ _ Hc).
Qed.

End loader_facts.

(** ** The training reduction *)

Lemma forallb_fmap {A} (p : A -> bool) (l : list A) :
  forallb id (p <$> l) = forallb p l.
Proof. induction l as [|x l IH]; csimpl; [done|]. by rewrite IH. Qed.

Lemma filter_all {A} (p : A -> bool) (l : list A) :
  forallb p l = true -> List.filter p l = l.
Proof.
  induction l as [|x l IH]; simpl; [done|].
  intros [Hx Hl]%andb_true_iff. by rewrite Hx, IH.
Qed.

Lemma foldl_add_colname_id (names l : list string) :
  (forall c, c ∈ l -> c ∈ names) ->
  foldl (fun a c => add_colname c a) names l = names.
Proof.
  induction l as [|c l IH]; simpl; [done|]. intros Hl.
  unfold add_colname at 2.
  rewrite bool_decide_eq_true_2 by (apply Hl; left).
  apply IH. intros c' Hc'. apply Hl. by right.
Qed.

Lemma vstack_rows ts t : vstack ts = Ok t -> rows t = concat (rows <$> ts).
Proof.
  destruct ts as [|t0 [|t1 ts]]; simpl; [done| |].
  - intros [= <-]. by rewrite app_nil_r.
  - by intros [= <-].
Qed.

Lemma foldl_colnames_id (names : list string) (ts : list Table) :
  Forall (fun t => colnames t = names) ts ->
  foldl (fun acc t => foldl (fun a c => add_colname c a) acc (colnames t))
        names ts = names.
Proof.
  induction 1 as [|t ts' Ht Hf IH]; simpl; [done|].
  by rewrite Ht, foldl_add_colname_id.
Qed.

Lemma vstack_colnames names ts t :
  Forall (fun t => colnames t = names) ts ->
  vstack ts = Ok t -> colnames t = names.
Proof.
  destruct ts as [|t0 [|t1 ts]]; [done| |].
  - intros Hf%Forall_cons_1 [= <-]. by destruct Hf.
  - intros [H0 Hf]%Forall_cons_1 [= <-]. cbn [colnames]. rewrite H0.
    exact (foldl_colnames_id names (t1 :: ts) Hf).
Qed.

Lemma vstack_nonempty ts : ts <> [] -> exists t, vstack ts = Ok t.
Proof. destruct ts as [|t0 [|t1 ts]]; simpl; [done| |]; eauto. Qed.

Lemma generate_features_eq fs names info rs :
  generate_features fs (MkTable names info rs) =
  Ok (MkTable (feature_colnames fs names) (feature_info fs info)
              (feature_row fs <$> rs)).
Proof.
  revert names info rs. induction fs as [|[name expr] fs IH];
    intros names info rs; simpl.
  - by rewrite list_fmap_id.
  - rewrite set_col_fmap, bind_Ok_l, IH. do 2 f_equal.
    rewrite <- list_fmap_compose. by apply list_fmap_ext.
Qed.

Section train_facts.
Context `{Externals}.

Lemma select_mask_quality criteria t :
  select_mask (get_table_mask criteria t) t =
  Ok (MkTable (colnames t) (colinfo t)
              (List.filter (passes criteria) (rows t))).
Proof. destruct t as [names info rs]. apply (select_mask_fmap (passes criteria)). Qed.

Lemma train_chunk_eq self table_chunk :
  train_chunk self table_chunk
  = project (feature_names self) (featured self table_chunk).
Proof.
  unfold train_chunk. rewrite select_mask_quality, bind_Ok_l.
  by rewrite generate_features_eq, bind_Ok_l.
Qed.

Lemma train_chunk_Ok self table_chunk sel :
  train_chunk self table_chunk = Ok sel ->
  colnames sel = feature_names self
  /\ rows sel = train_rows self (rows table_chunk)
  /\ len sel = length (List.filter (passes (quality_query self))
                                   (rows table_chunk)).
Proof.
  rewrite train_chunk_eq. intros (Hc & Hr & _)%project_Ok.
  split; [done|]. split; [done|].
  unfold len. rewrite Hr. simpl. by rewrite !length_fmap.
Qed.

End train_facts.

Section train_run_facts.
Context `{Externals}.

Lemma add_log_nil s : add_log s [] = s.
Proof. destruct s. unfold add_log; simpl. by rewrite app_nil_r. Qed.

Lemma add_log_app s l1 l2 : add_log (add_log s l1) l2 = add_log s (l1 ++ l2).
Proof. unfold add_log; simpl. by rewrite app_assoc. Qed.

Lemma run_bind {A B} (m : Tool A) (f : A -> Tool B) s :
  mbind f m s =
  match m s with
  | (Ok a, s') => f a s'
  | (Raise e, s') => (Raise e, s')
  end.
Proof. done. Qed.

Lemma run_emit {B} l msg a (f : () -> Tool B) s :
  mbind f (emit l msg a) s = f () (add_log s [Log l msg a]).
Proof. done. Qed.

Lemma run_lift {A B} (r : result A) (f : A -> Tool B) s :
  mbind f (lift r) s =
  match r with Ok a => f a s | Raise e => (Raise e, s) end.
Proof. rewrite run_bind. unfold lift. by destruct r. Qed.

(** The loop of [_read_table] collects the reduced chunks and counts the
    rows read and the rows that pass the quality query; it logs at debug
    level only and leaves the generator alone. *)
Lemma read_chunks_run self chunks k tbl a b s :
  exists dbg, Forall (fun e => level e = DEBUG) dbg /\
    read_chunks self chunks k tbl a b s =
    match train_chunks self chunks with
    | Ok sels =>
        (Ok (tbl ++ sels, a + total_len (snd <$> chunks),
             b + total_len sels), add_log s dbg)
    | Raise e => (Raise e, add_log s dbg)
    end.
Proof.
  revert k tbl a b s.
  induction chunks as [|[[start stop] tc] chunks IH]; intros k tbl a b s.
  - exists []. split; [done|]. simpl.
    by rewrite app_nil_r, add_log_nil, !Nat.add_0_r.
  - cbn [read_chunks train_chunks snd].
    rewrite run_emit, select_mask_quality, run_lift, run_emit.
    rewrite train_chunk_eq.
    destruct tc as [names info rs]. cbn [rows colnames colinfo].
    rewrite generate_features_eq, run_lift, run_lift.
    fold (feature_names self).
    change (MkTable _ _ (feature_row _ <$> List.filter _ rs))
      with (featured self (MkTable names info rs)).
    destruct (project _ _) as [sel|e] eqn:Hp.
    + rewrite bind_Ok_l.
      edestruct IH as (dbg & Hdbg & ->).
      exists ([Log DEBUG "Events read from chunk %d: %d"
                   [k; len (MkTable names info rs)];
               Log DEBUG "Events in chunk %d after applying quality_query: %d"
                   [k; len (MkTable names info
                              (List.filter (passes (quality_query self)) rs))]]
              ++ dbg).
      split; [by repeat constructor|].
      destruct (train_chunks self chunks) as [sels|e].
      * rewrite bind_Ok_l, !add_log_app, <- app_assoc.
        assert (len sel = length (List.filter (passes (quality_query self)) rs))
          as Hlen.
        { apply project_Ok in Hp as (_ & Hr & _). unfold len. rewrite Hr.
          simpl. by rewrite !length_fmap. }
        unfold total_len. csimpl. rewrite Hlen, !Nat.add_assoc. done.
      * simpl. by rewrite !add_log_app.
    + simpl. eexists. split; [|by rewrite !add_log_app].
      by repeat constructor.
Qed.

Lemma stack_and_validate_run tel tables a b s t :
  vstack tables = Ok t ->
  stack_and_validate tel tables a b s =
  (validated tel t, add_log s (counters_log a b ++ validation_log t)).
Proof.
  intros Hv. unfold stack_and_validate. rewrite Hv, run_lift, !run_emit.
  unfold validated, validation_log. clear Hv.
  destruct t as [names info rs]. case_bool_decide.
  - unfold raise. by rewrite !add_log_app, app_nil_r.
  - unfold check_valid_rows. rewrite forallb_fmap. cbn [rows colnames colinfo].
    change (forallb _ rs) with (forallb (row_valid names) rs).
    destruct (forallb (row_valid names) rs) eqn:Hall; cbn [negb].
    + rewrite filter_all by done. by rewrite !add_log_app, app_nil_r.
    + rewrite run_emit.
      change (lift (select_mask _ _) _)
        with (lift (select_mask (row_valid names <$> rs)
                                (MkTable names info rs))
                   (add_log (add_log (add_log s
                      [Log INFO "Events read from input: %d" [a]])
                      [Log INFO "Events after applying quality query: %d" [b]])
                      [Log WARNING "Dropping non-predictable events." []])).
      rewrite select_mask_fmap. unfold lift. by rewrite !add_log_app.
Qed.

(** The run of [_read_table] up to the drop of invalid rows. *)
Lemma reduce_table_run self tel chunks s :
  exists dbg, Forall (fun e => level e = DEBUG) dbg /\
    reduce_table self tel chunks s =
    match train_chunks self chunks with
    | Raise e => (Raise e, add_log s dbg)
    | Ok sels =>
        match vstack sels with
        | Raise e => (Raise e, add_log s dbg)
        | Ok t =>
            (validated tel t,
             add_log s (dbg ++ counters_log (total_len (snd <$> chunks))
                                            (total_len sels)
                            ++ validation_log t))
        end
    end.
Proof.
  destruct (read_chunks_run self chunks 0 [] 0 0 s) as (dbg & Hdbg & Hr).
  exists dbg. split; [done|]. unfold reduce_table. rewrite run_bind, Hr.
  destruct (train_chunks self chunks) as [sels|e]; [|done].
  cbn [fst snd app]. destruct (vstack sels) as [t|e] eqn:Hv.
  - by rewrite (stack_and_validate_run _ _ _ _ _ _ Hv), add_log_app.
  - unfold stack_and_validate. by rewrite Hv, run_lift.
Qed.

(** The rows [sample_events] returns depend on the rows it is given and on
    the generator only. *)
Lemma sample_events_Ok self tel t s t' s' :
  sample_events self tel t s = (Ok t', s') ->
  sample_rows self tel (rng s) (rows t) = Some (rows t')
  /\ colnames t' = colnames t /\ colinfo t' = colinfo t.
Proof.
  unfold sample_events, sample_rows, len.
  destruct (n_events self tel) as [n|]; [|by intros [= <- _]].
  case_bool_decide.
  - rewrite run_emit. by intros [= <- _].
  - rewrite run_emit, run_bind. unfold rng_choice. cbn [rng add_log].
    destruct (choice (rng s) (length (rows t)) n) as [idx g].
    unfold lift, take_rows. cbn [fst].
    destruct (mapM _ _) as [rs|]; [|done]. by intros [= <- _].
Qed.

End train_run_facts.

Section chunk_independence.
Context `{Externals}.

Lemma train_rows_app self l1 l2 :
  train_rows self (l1 ++ l2) = train_rows self l1 ++ train_rows self l2.
Proof. unfold train_rows. by rewrite filter_app', !fmap_app. Qed.

Lemma train_chunks_Ok self chunks sels :
  train_chunks self chunks = Ok sels ->
  Forall (fun t => colnames t = feature_names self) sels
  /\ length sels = length chunks
  /\ concat (rows <$> sels)
     = train_rows self (concat ((fun ch => rows ch.2) <$> chunks)).
Proof.
  revert sels. induction chunks as [|ch chunks IH]; intros sels; simpl.
  - by intros [= <-].
  - intros Ht. inv_bind Ht. inv_bind Ht. injection Ht as <-.
    apply train_chunk_Ok in E as (Hc & Hr & _).
    destruct (IH _ E0) as (HF & Hlen & Hrows).
    split; [by constructor|]. split; [simpl; by rewrite Hlen|].
    csimpl. by rewrite train_rows_app, Hr, Hrows.
Qed.

(** A run of [_read_table] that completes returns the sample of the valid
    rows of the table reduced row by row, whatever the chunks. *)
Lemma read_table_chunks_rows self tel chunks events s t s' :
  covers chunks events ->
  read_table_chunks self tel chunks s = (Ok t, s') ->
  sample_rows self tel (rng s)
    (List.filter (row_valid (feature_names self))
                 (train_rows self (rows events)))
  = Some (rows t).
Proof.
  intros [_ Hrows] Hr. unfold read_table_chunks in Hr.
  rewrite run_bind in Hr.
  destruct (reduce_table_run self tel chunks s) as (dbg & _ & Hred).
  rewrite Hred in Hr. clear Hred.
  destruct (train_chunks self chunks) as [sels|e] eqn:Hsels; [|done].
  apply train_chunks_Ok in Hsels as (Hcols & _ & Hsel).
  destruct (vstack sels) as [st|e] eqn:Hv; [|done].
  pose proof (vstack_colnames _ _ _ Hcols Hv) as Hnames.
  apply vstack_rows in Hv.
  unfold validated in Hr. case_bool_decide; [done|].
  apply sample_events_Ok in Hr as (Hs & _). cbn [rows rng add_log] in Hs.
  by rewrite Hnames, Hv, Hsel, Hrows in Hs.
Qed.

End chunk_independence.

(** ** C1: independence of the chunk size *)

(** C1, as stated, fails: the guard of [normalise_column_names] on the
    spread of the pointing latitude is evaluated chunk by chunk.  On the two
    events of [varying_pointing_file] the reduction completes with one event
    per chunk and raises with both events in one chunk, so the chunk size
    decides whether there is a reduced table at all. *)
Lemma chunk_size_dependence :
  ~ (forall (loader : @EventLoader example_externals) (c1 c2 : nat),
       0 < c1 -> 0 < c2 ->
       rows <$> load_preselected_events loader c1
       = rows <$> load_preselected_events loader c2).
Proof.
  intros Hclaim.
  specialize (Hclaim (example_loader varying_pointing_file) 1 2
                     ltac:(lia) ltac:(lia)).
  apply (f_equal is_ok) in Hclaim. vm_compute in Hclaim. discriminate.
Qed.

(** C1 (amended): for every input table and all chunk sizes [c1, c2 > 0],
    whenever the chunked reduction completes for both chunk sizes it yields
    the same rows, in the same order and with the same derived-column values,
    and the same rows as the reduction of the whole table as a single chunk
    whenever that completes too; this holds for
    [EventLoader.load_preselected_events] and for
    [TrainEnergyRegressor._read_table] run from the same tool state, and
    more generally for any two ways of cutting the table into chunks. *)
Theorem chunk_size_independence `{Externals}
    (loader : EventLoader) (tool : TrainEnergyRegressor)
    (telescope_type : string) (s : ToolState) (c1 c2 : nat) :
  0 < c1 -> 0 < c2 ->
  (forall r1 r2,
     load_preselected_events loader c1 = Ok r1 ->
     load_preselected_events loader c2 = Ok r2 ->
     rows r1 = rows r2)
  /\ (forall r w,
        load_preselected_events loader c1 = Ok r ->
        load_whole loader = Ok w ->
        rows r = rows w)
  /\ (forall t1 s1 t2 s2,
        _read_table (with_chunk_size c1 tool) telescope_type s = (Ok t1, s1) ->
        _read_table (with_chunk_size c2 tool) telescope_type s = (Ok t2, s2) ->
        rows t1 = rows t2)
  /\ (forall t s1 w sw,
        _read_table (with_chunk_size c1 tool) telescope_type s = (Ok t, s1) ->
        read_table_chunks tool telescope_type
          [(0, len (telescope_events tool telescope_type),
            telescope_events tool telescope_type)] s = (Ok w, sw) ->
        rows t = rows w)
  /\ (forall chunks1 chunks2 r1 r2,
        covers chunks1 (file loader) -> covers chunks2 (file loader) ->
        load_chunks (epp loader) chunks1 = Ok r1 ->
        load_chunks (epp loader) chunks2 = Ok r2 ->
        rows r1 = rows r2)
  /\ (forall chunks1 chunks2 t1 s1 t2 s2,
        covers chunks1 (telescope_events tool telescope_type) ->
        covers chunks2 (telescope_events tool telescope_type) ->
        read_table_chunks tool telescope_type chunks1 s = (Ok t1, s1) ->
        read_table_chunks tool telescope_type chunks2 s = (Ok t2, s2) ->
        rows t1 = rows t2).
Proof.
  intros Hc1 Hc2.
  assert (forall chunks1 chunks2 r1 r2,
            covers chunks1 (file loader) -> covers chunks2 (file loader) ->
            load_chunks (epp loader) chunks1 = Ok r1 ->
            load_chunks (epp loader) chunks2 = Ok r2 ->
            rows r1 = rows r2) as Hloader.
  { intros chunks1 chunks2 r1 r2 Hcov1 Hcov2 H1 H2.
    apply (load_chunks_rows _ _ _ _ Hcov1) in H1.
    apply (load_chunks_rows _ _ _ _ Hcov2) in H2.
    by rewrite H1, H2. }
  assert (forall chunks1 chunks2 t1 s1 t2 s2,
            covers chunks1 (telescope_events tool telescope_type) ->
            covers chunks2 (telescope_events tool telescope_type) ->
            read_table_chunks tool telescope_type chunks1 s = (Ok t1, s1) ->
            read_table_chunks tool telescope_type chunks2 s = (Ok t2, s2) ->
            rows t1 = rows t2) as Htool.
  { intros chunks1 chunks2 t1 s1 t2 s2 Hcov1 Hcov2 H1 H2.
    apply (read_table_chunks_rows _ _ _ _ _ _ _ Hcov1) in H1.
    apply (read_table_chunks_rows _ _ _ _ _ _ _ Hcov2) in H2.
    rewrite H1 in H2. by injection H2. }
  split; [|split; [|split; [|split; [|split; [exact Hloader|exact Htool]]]]].
  - intros r1 r2. apply Hloader; by apply read_chunked_covers.
  - intros r w. apply Hloader; [by apply read_chunked_covers|].
    apply whole_covers.
  - intros t1 s1 t2 s2 H1 H2.
    apply (read_table_chunks_rows _ _ _ (telescope_events tool telescope_type))
      in H1, H2; try by apply (read_chunked_covers _ _).
    change (sample_rows (with_chunk_size c1 tool))
      with (sample_rows tool) in H1.
    change (sample_rows (with_chunk_size c2 tool))
      with (sample_rows tool) in H2.
    change (train_rows (with_chunk_size c1 tool)) with (train_rows tool) in H1.
    change (train_rows (with_chunk_size c2 tool)) with (train_rows tool) in H2.
    change (feature_names (with_chunk_size c1 tool))
      with (feature_names tool) in H1.
    change (feature_names (with_chunk_size c2 tool))
      with (feature_names tool) in H2.
    rewrite H1 in H2. by injection H2.
  - intros t s1 w sw H1 H2.
    apply (read_table_chunks_rows _ _ _ (telescope_events tool telescope_type))
      in H1, H2; [| apply whole_covers | by apply (read_chunked_covers _ _)].
    change (sample_rows (with_chunk_size c1 tool))
      with (sample_rows tool) in H1.
    change (train_rows (with_chunk_size c1 tool)) with (train_rows tool) in H1.
    change (feature_names (with_chunk_size c1 tool))
      with (feature_names tool) in H1.
    rewrite H1 in H2. by injection H2.
Qed.

Lemma chunk_size_independence_witness :
  0 < 2 /\ 0 < 3 /\
  match @load_preselected_events example_externals
          (example_loader steady_file) 2,
        @load_preselected_events example_externals
          (example_loader steady_file) 3,
        @load_whole example_externals (example_loader steady_file),
        @_read_table example_externals
          (with_chunk_size 2 (example_tool (Some 2) training_events))
          "LST" start_state,
        @_read_table example_externals
          (with_chunk_size 3 (example_tool (Some 2) training_events))
          "LST" start_state,
        @read_table_chunks example_externals
          (example_tool (Some 2) training_events) "LST"
          [(0, len training_events, training_events)] start_state
  with
  | Ok r1, Ok r2, Ok w, (Ok t1, _), (Ok t2, _), (Ok tw, _) =>
      rows r1 = rows r2 /\ rows r1 = rows w
      /\ rows t1 = rows t2 /\ rows t1 = rows tw
  | _, _, _, _, _, _ => False
  end.
Proof.
  split; [lia|]. split; [lia|].
  destruct (chunk_size_independence (H := example_externals)
              (example_loader steady_file)
              (example_tool (Some 2) training_events) "LST" start_state 2 3
              ltac:(lia) ltac:(lia)) as (HA & HB & HC & HD & _).
  destruct (load_preselected_events _ 2) as [r1|] eqn:E1;
    [|apply (f_equal is_ok) in E1; vm_compute in E1; discriminate].
  destruct (load_preselected_events _ 3) as [r2|] eqn:E2;
    [|apply (f_equal is_ok) in E2; vm_compute in E2; discriminate].
  destruct (load_whole _) as [w|] eqn:E3;
    [|apply (f_equal is_ok) in E3; vm_compute in E3; discriminate].
  destruct (_read_table (with_chunk_size 2 _) _ _) as [[t1|] s1] eqn:E4;
    [|apply (f_equal ran_ok) in E4; vm_compute in E4; discriminate].
  destruct (_read_table (with_chunk_size 3 _) _ _) as [[t2|] s2] eqn:E5;
    [|apply (f_equal ran_ok) in E5; vm_compute in E5; discriminate].
  destruct (read_table_chunks _ _ _ _) as [[tw|] sw] eqn:E6;
    [|apply (f_equal ran_ok) in E6; vm_compute in E6; discriminate].
  repeat split; eauto.
Defined.

(** ** The order of float64 *)

Lemma Qlt_bool_iff a b : Qlt_bool a b = true <-> (a < b)%Q.
Proof.
  unfold Qlt_bool. rewrite negb_true_iff, <- not_true_iff_false, Qle_bool_iff.
  split; [apply Qnot_le_lt | apply Qlt_not_le].
Qed.

Lemma float_le_trans a b c :
  float_le a b = true -> float_le b c = true -> float_le a c = true.
Proof.
  destruct a, b, c; simpl; try done.
  rewrite !Qle_bool_iff. apply Qle_trans.
Qed.

Lemma float_lt_le_trans a b c :
  float_lt a b = true -> float_le b c = true -> float_lt a c = true.
Proof.
  destruct a, b, c; simpl; try done.
  rewrite !Qlt_bool_iff, Qle_bool_iff. apply Qlt_le_trans.
Qed.

Lemma float_lt_not_le a b : float_lt a b = true -> float_le b a = true -> False.
Proof.
  destruct a, b; simpl; try done.
  rewrite Qlt_bool_iff, Qle_bool_iff. apply Qlt_not_le.
Qed.

Lemma float_le_refl_trans a b c :
  float_le_refl a b -> float_le_refl b c -> float_le_refl a c.
Proof.
  intros [->|Hab] [->|Hbc]; [by left | by right | by right |].
  right. by eapply float_le_trans.
Qed.

Lemma float_le_refl_le a b c :
  float_le_refl a b -> float_le b c = true -> float_le a c = true.
Proof. intros [->|Hab] Hbc; [done|]. by eapply float_le_trans. Qed.

Lemma float_lt_le_refl a b c :
  float_lt a b = true -> float_le_refl b c -> float_lt a c = true.
Proof. intros Hab [<-|Hbc]; [done|]. by eapply float_lt_le_trans. Qed.

(** ** Offset bins *)

Lemma bin_pairs_cons a b l : bin_pairs (a :: b :: l) = (a, b) :: bin_pairs (b :: l).
Proof. unfold bin_pairs. simpl. by rewrite Nat.sub_0_r. Qed.

Lemma bin_pairs_elem lo hi edges :
  (lo, hi) ∈ bin_pairs edges -> lo ∈ edges /\ hi ∈ edges.
Proof.
  induction edges as [|a [|b l] IH]; [by intros ?%elem_of_nil..|].
  rewrite bin_pairs_cons. intros [[= -> ->]|Hin]%elem_of_cons.
  - split; [by left | right; by left].
  - destruct (IH Hin). split; by right.
Qed.

Lemma edges_sorted_cons a b l :
  edges_sorted (a :: b :: l) = true ->
  float_le a b = true /\ edges_sorted (b :: l) = true.
Proof.
  unfold edges_sorted. rewrite bin_pairs_cons. simpl.
  by intros [? ?]%andb_true_iff.
Qed.

Lemma sorted_head_le a l x :
  edges_sorted (a :: l) = true -> x ∈ a :: l -> float_le_refl a x.
Proof.
  revert a. induction l as [|b l IH]; intros a Hs Hx.
  - apply list_elem_of_singleton in Hx as ->. by left.
  - apply edges_sorted_cons in Hs as [Hab Hs].
    apply elem_of_cons in Hx as [->|Hx]; [by left|].
    eapply float_le_refl_trans; [by right | by apply IH].
Qed.

Lemma sorted_le_last l z x :
  edges_sorted l = true -> last l = Some z -> x ∈ l -> float_le_refl x z.
Proof.
  revert x. induction l as [|a [|b l] IH]; intros x Hs Hl Hx.
  - by apply elem_of_nil in Hx.
  - apply list_elem_of_singleton in Hx as ->. injection Hl as ->. by left.
  - apply edges_sorted_cons in Hs as [Hab Hs].
    change (last (b :: l) = Some z) in Hl.
    apply elem_of_cons in Hx as [->|Hx]; [|by apply IH].
    eapply float_le_refl_trans; [by right|]. apply IH; [done..|by left].
Qed.

(** ** The loop of [make_event_weights] *)

Lemma assign_masked_fmap c (p : row -> bool) (f : row -> value) rs :
  assign_masked c (p <$> rs) (f <$> List.filter p rs) rs
  = (fun r => if p r then <[c := f r]> r else r) <$> rs.
Proof.
  induction rs as [|r rs IH]; csimpl; [done|].
  destruct (p r); csimpl; by rewrite IH.
Qed.

Lemma add_colname_idemp c names :
  add_colname c (add_colname c names) = add_colname c names.
Proof.
  unfold add_colname. destruct (bool_decide (c ∈ names)) eqn:Hc.
  - by rewrite Hc.
  - rewrite bool_decide_eq_true_2; [done|]. apply elem_of_app. right. by left.
Qed.

Section weight_facts.
Context `{Externals}.

Lemma in_bin_insert_weight lo hi v (r : row) :
  in_bin lo hi (<["weight" := v]> r) = in_bin lo hi r.
Proof. unfold in_bin. by rewrite lookup_insert_ne. Qed.

Lemma bin_weight_insert_weight target spectrum lo hi v (r : row) :
  bin_weight target spectrum lo hi (<["weight" := v]> r)
  = bin_weight target spectrum lo hi r.
Proof. unfold bin_weight. by rewrite lookup_insert_ne. Qed.

(** The loop leaves a row alone or sets its weight from the last bin that
    holds it. *)
Lemma weight_row_last target spectrum bins r :
  weight_row target spectrum bins r =
  match last_bin bins r with
  | Some b => <["weight" := bin_weight target spectrum b.1 b.2 r]> r
  | None => r
  end.
Proof.
  induction bins as [|b bins IH] using rev_ind; [done|].
  unfold weight_row, last_bin in *. rewrite foldl_app, reverse_app. simpl.
  rewrite IH. unfold weight_row_bin.
  destruct (List.find _ (reverse bins)) as [b'|].
  - rewrite in_bin_insert_weight. destruct (in_bin b.1 b.2 r); [|done].
    by rewrite bin_weight_insert_weight, insert_insert_eq.
  - by destruct (in_bin b.1 b.2 r).
Qed.

Lemma last_bin_insert_weight bins v (r : row) :
  last_bin bins (<["weight" := v]> r) = last_bin bins r.
Proof.
  unfold last_bin. induction (reverse bins) as [|b l IH]; simpl; [done|].
  by rewrite in_bin_insert_weight, IH.
Qed.

Lemma weight_row_idemp target spectrum bins r :
  weight_row target spectrum bins (weight_row target spectrum bins r)
  = weight_row target spectrum bins r.
Proof.
  rewrite (weight_row_last _ _ _ r).
  destruct (last_bin bins r) as [b|] eqn:Hb.
  - rewrite weight_row_last, last_bin_insert_weight, Hb.
    by rewrite bin_weight_insert_weight, insert_insert_eq.
  - by rewrite weight_row_last, Hb.
Qed.

Lemma last_bin_None bins r :
  (forall lo hi, (lo, hi) ∈ bins -> in_bin lo hi r = false) ->
  last_bin bins r = None.
Proof.
  intros Hout. unfold last_bin.
  destruct (List.find _ _) as [[lo hi]|] eqn:Hf; [|done].
  apply List.find_some in Hf as [Hin Hb]. simpl in Hb.
  rewrite <- list_elem_of_In, elem_of_reverse in Hin.
  by rewrite (Hout _ _ Hin) in Hb.
Qed.

Lemma last_bin_Some bins r b :
  last_bin bins r = Some b -> b ∈ bins /\ in_bin b.1 b.2 r = true.
Proof.
  unfold last_bin. intros [Hin Hb]%List.find_some.
  by rewrite <- list_elem_of_In, elem_of_reverse in Hin.
Qed.

Lemma last_bin_is_Some bins r lo hi :
  (lo, hi) ∈ bins -> in_bin lo hi r = true -> is_Some (last_bin bins r).
Proof.
  intros Hin Hb. unfold last_bin.
  destruct (List.find _ _) eqn:Hf; [done|].
  assert (In (lo, hi) (reverse bins)) as Hin'
    by by rewrite <- list_elem_of_In, elem_of_reverse.
  pose proof (List.find_none _ _ Hf (lo, hi) Hin') as Hn. simpl in Hn.
  by rewrite Hb in Hn.
Qed.

(** The bins of sorted edges are disjoint. *)
Lemma sorted_bins_disjoint edges r b1 b2 :
  edges_sorted edges = true ->
  b1 ∈ bin_pairs edges -> b2 ∈ bin_pairs edges ->
  in_bin b1.1 b1.2 r = true -> in_bin b2.1 b2.2 r = true -> b1 = b2.
Proof.
  assert (forall a b l lo hi,
            edges_sorted (b :: l) = true -> (lo, hi) ∈ bin_pairs (b :: l) ->
            in_bin a b r = true -> in_bin lo hi r = true -> False) as Hhead.
  { intros a b l lo hi Hs Hin [_ Hlt]%andb_true_iff [Hge _]%andb_true_iff.
    apply bin_pairs_elem in Hin as [Hlo _].
    pose proof (sorted_head_le _ _ _ Hs Hlo) as Hle.
    eapply float_lt_not_le; [|exact Hge]. by eapply float_lt_le_refl. }
  induction edges as [|a [|b l] IH]; intros Hs H1 H2 Hb1 Hb2;
    [by apply elem_of_nil in H1..|].
  rewrite bin_pairs_cons in H1, H2.
  apply edges_sorted_cons in Hs as [_ Hs].
  apply elem_of_cons in H1 as [->|H1], H2 as [->|H2]; [done| | |by apply IH].
  - destruct b2 as [lo hi]. by destruct (Hhead a b l lo hi).
  - destruct b1 as [lo hi]. by destruct (Hhead a b l lo hi).
Qed.

(** One bin of the loop, on a table that has the three columns. *)
Lemma weight_bin_eq target spectrum lo hi names info rs :
  weight_columns names = true ->
  weight_bin target spectrum lo hi (MkTable names info rs) =
  Ok (MkTable names info
        ((fun r => weight_row_bin target spectrum r (lo, hi)) <$> rs)).
Proof.
  unfold weight_columns. intros [[Ho He]%andb_true_iff Hw]%andb_true_iff.
  unfold weight_bin. rewrite get_col_has, bind_Ok_l by done.
  cbn [rows]. rewrite <- list_fmap_compose.
  change (_ ∘ look "true_source_fov_offset") with (in_bin lo hi).
  rewrite select_mask_fmap, bind_Ok_l, get_col_has, bind_Ok_l by done.
  cbn [rows]. rewrite <- list_fmap_compose.
  unfold set_col_masked.
  change (has_col "weight" _) with (bool_decide ("weight" ∈ names)).
  rewrite Hw. unfold len. cbn [rows colnames colinfo].
  rewrite !length_fmap, bool_decide_eq_true_2 by done.
  rewrite compress_fmap, bool_decide_eq_true_2 by done.
  by rewrite (assign_masked_fmap "weight" (in_bin lo hi)
                (bin_weight target spectrum lo hi)).
Qed.

Lemma weight_bin_Ok target spectrum lo hi names info rs t :
  weight_bin target spectrum lo hi (MkTable names info rs) = Ok t ->
  weight_columns names = true.
Proof.
  unfold weight_bin, weight_columns. intros Hw.
  inv_bind Hw. apply get_col_Ok in E as [Ho _].
  inv_bind Hw. inv_bind Hw. apply get_col_Ok in E0 as [He _].
  unfold select_mask in E. case_bool_decide; [|done]. injection E as <-.
  unfold set_col_masked in Hw.
  destruct (has_col "weight" _) eqn:Hwt; [|done].
  unfold has_col in *. cbn [colnames] in *. by rewrite Ho, He, Hwt.
Qed.

Lemma weight_bins_Ok target spectrum bins names info rs t :
  weight_bins target spectrum bins (MkTable names info rs) = Ok t ->
  t = MkTable names info (weight_row target spectrum bins <$> rs)
  /\ (bins = [] \/ weight_columns names = true).
Proof.
  revert rs. induction bins as [|[lo hi] bins IH]; intros rs; simpl.
  - intros [= <-]. rewrite list_fmap_id. split; [done | by left].
  - intros Hw. inv_bind Hw.
    pose proof (weight_bin_Ok _ _ _ _ _ _ _ _ E) as Hcols.
    rewrite weight_bin_eq in E by done. injection E as <-.
    apply IH in Hw as [-> _]. split; [|by right].
    by rewrite <- list_fmap_compose.
Qed.

Lemma weight_bins_eq target spectrum bins names info rs :
  weight_columns names = true ->
  weight_bins target spectrum bins (MkTable names info rs) =
  Ok (MkTable names info (weight_row target spectrum bins <$> rs)).
Proof.
  intros Hcols. revert rs.
  induction bins as [|[lo hi] bins IH]; intros rs; simpl.
  - by rewrite list_fmap_id.
  - rewrite weight_bin_eq, bind_Ok_l, IH by done.
    by rewrite <- list_fmap_compose.
Qed.

(** The test that sends [make_event_weights] to the loop over the bins. *)
Lemma point_like_test (target spectrum : Spectrum) kind :
  kind = "gammas" ->
  normalization_unit target = POINT_SOURCE_FLUX_UNIT ->
  normalization_unit spectrum = DIFFUSE_FLUX_UNIT ->
  bool_decide (kind = "gammas")
  && is_equivalent (normalization_unit target) POINT_SOURCE_FLUX_UNIT
  && is_equivalent (normalization_unit spectrum) DIFFUSE_FLUX_UNIT = true.
Proof. by intros -> -> ->. Qed.

Lemma float_eqb_not_lt a b : float_eqb a b = true -> float_lt a b = false.
Proof.
  destruct a, b; simpl; try done.
  intros Heq%Qeq_bool_iff. apply not_true_iff_false.
  rewrite Qlt_bool_iff, Heq. apply Qlt_irrefl.
Qed.

(** Outside [first edge, last edge) a row is in no bin of sorted edges. *)
Lemma outside_no_bin edges first lst r lo hi :
  edges_sorted edges = true ->
  head edges = Some first -> last edges = Some lst ->
  float_ge (as_float (r !! "true_source_fov_offset")) first
  && float_lt (as_float (r !! "true_source_fov_offset")) lst = false ->
  (lo, hi) ∈ bin_pairs edges -> in_bin lo hi r = false.
Proof.
  intros Hs Hfirst Hlast Hout [Hlo Hhi]%bin_pairs_elem.
  apply not_true_iff_false. intros [Hge Hlt]%andb_true_iff.
  apply not_true_iff_false in Hout. apply Hout, andb_true_iff.
  destruct edges as [|a l]; [done|]. injection Hfirst as ->.
  split.
  - unfold float_ge in *. eapply float_le_refl_le; [|exact Hge].
    by apply (sorted_head_le _ l).
  - eapply float_lt_le_refl; [exact Hlt|].
    by apply (sorted_le_last (first :: l)).
Qed.

End weight_facts.

(** ** C2: a point-like target on a diffuse simulation *)

(** C2, as stated, fails: the test of [make_event_weights] also asks for
    [kind == "gammas"].  For protons a point-like target on a diffuse
    simulation takes the branch of the single global ratio, whether or not
    offset bins are supplied, and there [calculate_event_weights] cannot
    turn the ratio of a point-source flux to a diffuse flux into a pure
    number: with sorted offset bins and every column in place the call
    raises [UnitConversionError] and no weight is computed per bin. *)
Lemma point_like_target_of_protons :
  ~ (forall (self : @EventLoader example_externals) events spectrum target
            kind edges,
       target_spectrum self = Some target ->
       normalization_unit target = POINT_SOURCE_FLUX_UNIT ->
       normalization_unit spectrum = DIFFUSE_FLUX_UNIT ->
       edges_sorted edges = true ->
       weight_columns (colnames events) = true ->
       is_ok (make_event_weights self events spectrum kind (Some edges))
       = true).
Proof.
  intros Hclaim.
  specialize (Hclaim (example_loader weighted_events) weighted_events
                diffuse_spectrum (POINT_SOURCE_FLUX_UNIT, 3%Q) "protons"
                offset_edges eq_refl eq_refl eq_refl eq_refl eq_refl).
  vm_compute in Hclaim. discriminate Hclaim.
Qed.

(** C2 (amended): for every event table, when the events are gammas, the
    target spectrum is point-like and the simulated spectrum is diffuse,
    reweighting without offset bins raises the [ValueError] on the missing
    bins; with sorted offset bins and the columns it reads it returns a
    table in which every event whose offset lies in a bin has the weight
    [calculate_event_weights] gives its true energy for the target spectrum
    and the simulated spectrum integrated over the cone of that bin. *)
Theorem point_like_target_needs_offset_bins `{Externals}
    (self : EventLoader) (events : Table) (spectrum target : Spectrum)
    (kind : string) :
  kind = "gammas" ->
  target_spectrum self = Some target ->
  normalization_unit target = POINT_SOURCE_FLUX_UNIT ->
  normalization_unit spectrum = DIFFUSE_FLUX_UNIT ->
  make_event_weights self events spectrum kind None
  = Raise (ValueError point_like_message)
  /\ forall edges,
       edges_sorted edges = true ->
       weight_columns (colnames events) = true ->
       exists events',
         make_event_weights self events spectrum kind (Some edges) = Ok events'
         /\ colnames events' = colnames events
         /\ len events' = len events
         /\ forall i r low high,
              rows events !! i = Some r ->
              (low, high) ∈ bin_pairs edges ->
              float_ge (as_float (r !! "true_source_fov_offset")) low
              && float_lt (as_float (r !! "true_source_fov_offset")) high
              = true ->
              exists r',
                rows events' !! i = Some r'
                /\ r' !! "weight"
                   = Some (VFloat (calculate_event_weights
                                     (as_float (r !! "true_energy")) target
                                     (integrate_cone spectrum low high)))
                /\ forall c, c <> "weight" -> r' !! c = r !! c.
Proof.
  intros Hkind Htarget Hpoint Hdiffuse.
  unfold make_event_weights. rewrite Htarget, point_like_test by done.
  split; [done|]. intros edges Hsorted Hcols.
  destruct events as [names info rs]. cbn [colnames] in Hcols.
  rewrite weight_bins_eq by done. eexists. split; [done|].
  split; [done|]. split; [unfold len; simpl; by rewrite length_fmap|].
  intros i r low high Hr Hbin Hin. cbn [rows] in *.
  rewrite list_lookup_fmap, Hr. eexists. split; [done|].
  rewrite weight_row_last.
  destruct (last_bin_is_Some _ _ _ _ Hbin Hin) as [b Hb]. rewrite Hb.
  apply last_bin_Some in Hb as [Hb1 Hb2].
  assert (b = (low, high)) as ->
    by exact (sorted_bins_disjoint _ _ _ _ Hsorted Hb1 Hbin Hb2 Hin).
  split; [by rewrite lookup_insert_eq|].
  intros c Hc. by rewrite lookup_insert_ne.
Qed.

Lemma point_like_target_needs_offset_bins_witness :
  @make_event_weights example_externals (example_loader weighted_events)
    weighted_events diffuse_spectrum "gammas" None
  = Raise (ValueError point_like_message)
  /\ exists events',
       @make_event_weights example_externals (example_loader weighted_events)
         weighted_events diffuse_spectrum "gammas" (Some offset_edges)
       = Ok events'
       /\ exists r',
            rows events' !! 1 = Some r'
            /\ r' !! "weight" = Some (VFloat (Real 6)).
Proof.
  destruct (point_like_target_needs_offset_bins (H := example_externals)
              (example_loader weighted_events) weighted_events
              diffuse_spectrum (POINT_SOURCE_FLUX_UNIT, 3%Q) "gammas"
              eq_refl eq_refl eq_refl eq_refl) as [Hnone Hbins].
  split; [exact Hnone|].
  destruct (Hbins offset_edges eq_refl eq_refl)
    as (events' & Hrun & _ & _ & Hrows).
  exists events'. split; [exact Hrun|].
  destruct (Hrows 1 (weighted_row 4 (3 # 2)) (Real 1) (Real 2) eq_refl)
    as (r' & Hr' & Hw & _).
  - unfold offset_edges. rewrite !bin_pairs_cons. right. left.
  - reflexivity.
  - exists r'. split; [exact Hr'|]. rewrite Hw. reflexivity.
Defined.

(** ** C3: reweighting is idempotent *)

Lemma event_weights_Ok `{Externals} energy (target simulated : Spectrum) w :
  event_weights energy target simulated = Ok w ->
  normalization_unit target = normalization_unit simulated
  /\ w = (fun e => VFloat (calculate_event_weights (as_float e) target
                             simulated)) <$> energy.
Proof.
  unfold event_weights, is_equivalent. case_bool_decide; [|done].
  by intros [= <-].
Qed.

Lemma event_weights_eq `{Externals} energy (target simulated : Spectrum) :
  normalization_unit target = normalization_unit simulated ->
  event_weights energy target simulated
  = Ok ((fun e => VFloat (calculate_event_weights (as_float e) target
                            simulated)) <$> energy).
Proof.
  intros Hunits. unfold event_weights, is_equivalent.
  by rewrite bool_decide_eq_true_2.
Qed.

(** C3: for every event table, simulated spectrum, target spectrum, kind and
    optional offset bins, a second run of [make_event_weights] with the same
    arguments on the table the first run returned returns that table
    again: the weight column, and every other cell, is the same. *)
Theorem make_event_weights_idempotent `{Externals}
    (self : EventLoader) (events events' : Table) (spectrum : Spectrum)
    (kind : string) (fov_offset_bins : option (list float)) :
  make_event_weights self events spectrum kind fov_offset_bins = Ok events' ->
  make_event_weights self events' spectrum kind fov_offset_bins = Ok events'.
Proof.
  unfold make_event_weights.
  destruct (target_spectrum self) as [target|]; [|done].
  destruct events as [names info rs].
  destruct (_ && _).
  - destruct fov_offset_bins as [edges|]; [|done].
    intros [-> Hcols]%weight_bins_Ok.
    destruct Hcols as [Hnil|Hcols]; [by rewrite Hnil|].
    rewrite weight_bins_eq by done. do 2 f_equal.
    rewrite <- list_fmap_compose. apply list_fmap_ext.
    intros i r _. apply weight_row_idemp.
  - intros Hw. inv_bind Hw. apply get_col_Ok in E as [He ->].
    inv_bind Hw. apply event_weights_Ok in E as [Hunits ->].
    cbn [rows] in Hw. rewrite <- list_fmap_compose, set_col_fmap in Hw.
    injection Hw as <-.
    rewrite get_col_has, bind_Ok_l by by apply has_col_add.
    rewrite event_weights_eq, bind_Ok_l by done.
    cbn [rows]. rewrite <- list_fmap_compose, set_col_fmap.
    rewrite add_colname_idemp, insert_insert_eq. do 2 f_equal.
    rewrite <- list_fmap_compose. apply list_fmap_ext.
    intros i r _. simpl. unfold look.
    by rewrite lookup_insert_ne, insert_insert_eq.
Qed.

Lemma make_event_weights_idempotent_witness :
  exists events',
    @make_event_weights example_externals (example_loader weighted_events)
      weighted_events diffuse_spectrum "gammas" (Some offset_edges)
    = Ok events'
    /\ @make_event_weights example_externals (example_loader weighted_events)
         events' diffuse_spectrum "gammas" (Some offset_edges)
       = Ok events'.
Proof.
  destruct (@make_event_weights example_externals
              (example_loader weighted_events) weighted_events
              diffuse_spectrum "gammas" (Some offset_edges))
    as [events'|e] eqn:Hrun.
  - exists events'. split; [reflexivity|].
    exact (make_event_weights_idempotent (H := example_externals)
             _ _ _ _ _ _ Hrun).
  - apply (f_equal is_ok) in Hrun. vm_compute in Hrun. discriminate.
Defined.

(** ** The run of [make_derived_columns] *)

Lemma find_missing_none names info rs (cols : list string) :
  (forall c, c ∈ cols -> c ∈ names) ->
  List.find (fun c => negb (has_col c (MkTable names info rs))) cols = None.
Proof.
  intros Hcols. induction cols as [|c cols IH]; [done|]. simpl.
  unfold has_col at 1. simpl.
  rewrite bool_decide_eq_true_2 by (apply Hcols; left). simpl.
  apply IH. intros c' Hc'. apply Hcols. by right.
Qed.

Lemma has_col_add_ne c c' names info rs :
  c <> c' ->
  has_col c (MkTable (add_colname c' names) info rs)
  = has_col c (MkTable names info rs).
Proof.
  intros Hne. unfold has_col, add_colname; simpl.
  destruct (bool_decide (c' ∈ names)); [done|].
  apply bool_decide_ext. rewrite elem_of_app, list_elem_of_singleton.
  tauto.
Qed.

Lemma get_col_missing c t :
  has_col c t = false -> get_col c t = Raise (KeyError c).
Proof. unfold get_col. by intros ->. Qed.

Lemma has_col_names c names info rs info' rs' :
  has_col c (MkTable names info rs) = has_col c (MkTable names info' rs').
Proof. done. Qed.

Section derived_more.
Context `{Externals}.

Lemma derive_row_outside r c :
  c ∉ derived_columns -> derive_row r !! c = r !! c.
Proof.
  unfold derived_columns. intros Hc. unfold derive_row.
  rewrite !lookup_insert_ne; [done|intros <-; apply Hc; set_solver..].
Qed.

Lemma make_derived_columns_runs names info rs :
  match List.find (fun c => negb (has_col c (MkTable names info rs)))
                  derived_reads with
  | Some c => make_derived_columns (MkTable names info rs) = Raise (KeyError c)
  | None =>
      exists info',
        make_derived_columns (MkTable names info rs)
        = Ok (MkTable (foldl (fun a c => add_colname c a) names derived_columns)
                      info' (derive_row <$> rs))
  end.
Proof.
  unfold make_derived_columns.
  rewrite set_col_scalar_fmap, bind_Ok_l. unfold set_col_unit.
  rewrite has_col_add_ne by done. cbn [List.find derived_reads].
  destruct (has_col "gh_score" (MkTable names info rs)) eqn:Hgh;
    rewrite (has_col_names "gh_score" names _ _ info rs), Hgh; [|done].
  rewrite bind_Ok_l. cbn [negb colnames colinfo rows].
  destruct (has_col "true_az" (MkTable names info rs)) eqn:H1; cbn [negb].
  2: { rewrite (get_col_missing "true_az"); [done|].
       rewrite !has_col_add_ne by done. exact H1. }
  destruct (has_col "true_alt" (MkTable names info rs)) eqn:H2; cbn [negb].
  2: { rewrite (get_col_has "true_az"), bind_Ok_l by by apply has_col_add.
       rewrite (get_col_missing "true_alt"); [done|].
       rewrite !has_col_add_ne by done. exact H2. }
  destruct (has_col "reco_az" (MkTable names info rs)) eqn:H3; cbn [negb].
  2: { rewrite (get_col_has "true_az"), bind_Ok_l by by apply has_col_add.
       rewrite (get_col_has "true_alt"), bind_Ok_l by by apply has_col_add.
       rewrite (get_col_missing "reco_az"); [done|].
       rewrite !has_col_add_ne by done. exact H3. }
  destruct (has_col "reco_alt" (MkTable names info rs)) eqn:H4; cbn [negb].
  2: { rewrite (get_col_has "true_az"), bind_Ok_l by by apply has_col_add.
       rewrite (get_col_has "true_alt"), bind_Ok_l by by apply has_col_add.
       rewrite (get_col_has "reco_az"), bind_Ok_l by by apply has_col_add.
       rewrite (get_col_missing "reco_alt"); [done|].
       rewrite !has_col_add_ne by done. exact H4. }
  rewrite (get_col_has "true_az"), bind_Ok_l by by apply has_col_add.
  rewrite (get_col_has "true_alt"), bind_Ok_l by by apply has_col_add.
  rewrite (get_col_has "reco_az"), bind_Ok_l by by apply has_col_add.
  rewrite (get_col_has "reco_alt"), bind_Ok_l by by apply has_col_add.
  cbn [rows]. rewrite (map4_rows calculate_theta), set_col_fmap, bind_Ok_l.
  rewrite (get_col_has "true_az"), bind_Ok_l by by do 2 apply has_col_add.
  rewrite (get_col_has "true_alt"), bind_Ok_l by by do 2 apply has_col_add.
  destruct (has_col "pointing_az" (MkTable names info rs)) eqn:H5; cbn [negb].
  2: { rewrite (get_col_missing "pointing_az"); [done|].
       rewrite !has_col_add_ne by done. exact H5. }
  rewrite (get_col_has "pointing_az"), bind_Ok_l by by do 2 apply has_col_add.
  destruct (has_col "pointing_alt" (MkTable names info rs)) eqn:H6; cbn [negb].
  2: { rewrite (get_col_missing "pointing_alt"); [done|].
       rewrite !has_col_add_ne by done. exact H6. }
  rewrite (get_col_has "pointing_alt"), bind_Ok_l by by do 2 apply has_col_add.
  cbn [rows].
  rewrite (map4_rows calculate_source_fov_offset), set_col_fmap, bind_Ok_l.
  rewrite (get_col_has "reco_az"), bind_Ok_l by by do 3 apply has_col_add.
  rewrite (get_col_has "reco_alt"), bind_Ok_l by by do 3 apply has_col_add.
  rewrite (get_col_has "pointing_az"), bind_Ok_l by by do 3 apply has_col_add.
  rewrite (get_col_has "pointing_alt"), bind_Ok_l by by do 3 apply has_col_add.
  cbn [rows].
  rewrite (map4_rows calculate_source_fov_offset), set_col_fmap, bind_Ok_l.
  rewrite (get_col_has "pointing_alt"), bind_Ok_l by by do 4 apply has_col_add.
  rewrite (get_col_has "pointing_az"), bind_Ok_l by by do 4 apply has_col_add.
  rewrite (get_col_has "reco_alt"), bind_Ok_l by by do 4 apply has_col_add.
  rewrite (get_col_has "reco_az"), bind_Ok_l by by do 4 apply has_col_add.
  cbn [rows].
  rewrite (map4_rows (fun a b c d => float_neg (nominal_fov_lon a b c d))).
  rewrite set_col_fmap, bind_Ok_l.
  rewrite (map4_rows nominal_fov_lat), set_col_fmap2.
  eexists. f_equal. f_equal.
  rewrite <- !list_fmap_compose. by apply list_fmap_ext.
Qed.

End derived_more.

(** ** C10: events outside the offset bins keep their weight *)

(** C10, as stated, fails: nothing in [make_event_weights] asks the edges
    to be in order.  With the edges 0, 2, 1 the event at the offset 3/2 lies
    outside [first edge, last edge) = [0, 1), yet the bin [0, 2) holds it and
    its weight is overwritten. *)
Lemma unsorted_edges_overwrite_outside_event :
  ~ (forall (self : @EventLoader example_externals) events events' spectrum
            target kind edges first lst,
       kind = "gammas" ->
       target_spectrum self = Some target ->
       normalization_unit target = POINT_SOURCE_FLUX_UNIT ->
       normalization_unit spectrum = DIFFUSE_FLUX_UNIT ->
       head edges = Some first -> last edges = Some lst ->
       make_event_weights self events spectrum kind (Some edges) = Ok events' ->
       forall i r,
         rows events !! i = Some r ->
         float_eqb (as_float (r !! "true_source_fov_offset")) lst = true
         \/ float_ge (as_float (r !! "true_source_fov_offset")) first
            && float_lt (as_float (r !! "true_source_fov_offset")) lst
            = false ->
         rows events' !! i = Some r).
Proof.
  intros Hclaim.
  destruct (@make_event_weights example_externals
              (example_loader weighted_events) weighted_events
              diffuse_spectrum "gammas" (Some [Real 0; Real 2; Real 1]))
    as [events'|e] eqn:Hrun.
  - pose proof (f_equal (fun res => match res with
                                    | Ok t => rows t !! 1 ≫= (.!! "weight")
                                    | Raise _ => None
                                    end) Hrun) as Hweight.
    cbv beta iota in Hweight.
    specialize (Hclaim (example_loader weighted_events) weighted_events
                  events' diffuse_spectrum (POINT_SOURCE_FLUX_UNIT, 3%Q)
                  "gammas" [Real 0; Real 2; Real 1] (Real 0) (Real 1)
                  eq_refl eq_refl eq_refl eq_refl eq_refl eq_refl Hrun
                  1 (weighted_row 4 (3 # 2)) eq_refl
                  (or_intror eq_refl)).
    rewrite Hclaim in Hweight. vm_compute in Hweight. discriminate Hweight.
  - apply (f_equal is_ok) in Hrun. vm_compute in Hrun. discriminate Hrun.
Qed.

(** C10 (amended): [make_derived_columns], on a table with the columns it
    reads, completes and gives every event, in its place, the weight 1.0;
    the loop of [make_event_weights] over offset bins with edges in
    nondecreasing order then completes on a table with the columns it reads,
    keeps the number of events, and an event whose true offset equals the
    last edge, or lies outside [first edge, last edge), is in no half-open
    bin [low <= offset < high]: its row, and so its weight, is returned as it
    was. *)
Theorem offsets_outside_bins_keep_weight `{Externals}
    (self : EventLoader) (events : Table) (spectrum target : Spectrum)
    (kind : string) (edges : list float) (first lst : float) :
  kind = "gammas" ->
  target_spectrum self = Some target ->
  normalization_unit target = POINT_SOURCE_FLUX_UNIT ->
  normalization_unit spectrum = DIFFUSE_FLUX_UNIT ->
  edges_sorted edges = true ->
  head edges = Some first -> last edges = Some lst ->
  (forall raw,
     (forall c, c ∈ derived_reads -> c ∈ colnames raw) ->
     exists derived,
       make_derived_columns raw = Ok derived
       /\ len derived = len raw
       /\ forall i r,
            rows raw !! i = Some r ->
            exists r',
              rows derived !! i = Some r'
              /\ r' !! "weight" = Some (VFloat (Real 1)))
  /\ (forall raw derived r,
        make_derived_columns raw = Ok derived -> r ∈ rows derived ->
        r !! "weight" = Some (VFloat (Real 1)))
  /\ (weight_columns (colnames events) = true ->
      is_ok (make_event_weights self events spectrum kind (Some edges))
      = true)
  /\ forall events',
       make_event_weights self events spectrum kind (Some edges) = Ok events' ->
       len events' = len events
       /\ forall i r,
            rows events !! i = Some r ->
            float_eqb (as_float (r !! "true_source_fov_offset")) lst = true
            \/ float_ge (as_float (r !! "true_source_fov_offset")) first
               && float_lt (as_float (r !! "true_source_fov_offset")) lst
               = false ->
            rows events' !! i = Some r.
Proof.
  intros Hkind Htarget Hpoint Hdiffuse Hsorted Hfirst Hlast.
  assert (forall r0 : row,
            derive_row r0 !! "weight" = Some (VFloat (Real 1))) as Hone.
  { intros r0. unfold derive_row. cbv zeta.
    do 5 (rewrite lookup_insert_ne by done). apply lookup_insert_eq. }
  split; [|split; [|split]].
  - intros [names info rs] Hcols.
    pose proof (make_derived_columns_runs names info rs) as Hrun.
    rewrite find_missing_none in Hrun by done.
    destruct Hrun as (info' & ->). eexists. split; [done|].
    split; [unfold len; simpl; by rewrite length_fmap|].
    intros i r Hr. cbn [rows] in *. rewrite list_lookup_fmap, Hr.
    eexists. split; [done|]. apply Hone.
  - intros raw derived r Hd%make_derived_columns_rows Hr.
    rewrite Hd in Hr. apply list_elem_of_fmap in Hr as (r0 & -> & _).
    apply Hone.
  - intros Hcols. unfold make_event_weights.
    rewrite Htarget, point_like_test by done.
    destruct events as [names info rs]. by rewrite weight_bins_eq.
  - intros events' Hrun. unfold make_event_weights in Hrun.
    rewrite Htarget, point_like_test in Hrun by done.
    destruct events as [names info rs].
    apply weight_bins_Ok in Hrun as [-> _].
    split; [unfold len; simpl; by rewrite length_fmap|].
    intros i r Hr Hout.
    assert (float_ge (as_float (r !! "true_source_fov_offset")) first
            && float_lt (as_float (r !! "true_source_fov_offset")) lst = false)
      as Hout'.
    { destruct Hout as [Heq|Hout]; [|done].
      rewrite (float_eqb_not_lt _ _ Heq). apply andb_false_r. }
    cbn [rows] in *.
    rewrite list_lookup_fmap, Hr. simpl. f_equal.
    rewrite weight_row_last, last_bin_None; [done|].
    intros lo hi Hin. by eapply outside_no_bin.
Qed.

Lemma offsets_outside_bins_keep_weight_witness :
  (exists derived r',
     @make_derived_columns example_externals
       (MkTable derived_reads ∅ [cut_row 1 2 3]) = Ok derived
     /\ rows derived !! 0 = Some r'
     /\ r' !! "weight" = Some (VFloat (Real 1)))
  /\ exists events',
       @make_event_weights example_externals (example_loader weighted_events)
         weighted_events diffuse_spectrum "gammas" (Some offset_edges)
       = Ok events'
       /\ len events' = 4
       /\ rows events' !! 2 = Some (weighted_row 2 2)
       /\ rows events' !! 3 = Some (weighted_row 2 5).
Proof.
  destruct (offsets_outside_bins_keep_weight (H := example_externals)
              (example_loader weighted_events) weighted_events
              diffuse_spectrum (POINT_SOURCE_FLUX_UNIT, 3%Q) "gammas"
              offset_edges (Real 0) (Real 2)
              eq_refl eq_refl eq_refl eq_refl eq_refl eq_refl eq_refl)
    as (Hderive & _ & Hcompletes & Hkeep).
  split.
  - destruct (Hderive (MkTable derived_reads ∅ [cut_row 1 2 3]))
      as (derived & Hrun & _ & Hrows); [by intros c Hc|].
    destruct (Hrows 0 (cut_row 1 2 3) eq_refl) as (r' & Hr' & Hw).
    exists derived, r'. split; [exact Hrun|]. split; [exact Hr'|exact Hw].
  - destruct (@make_event_weights example_externals
                (example_loader weighted_events) weighted_events
                diffuse_spectrum "gammas" (Some offset_edges))
      as [events'|e] eqn:Hrun.
    + exists events'. split; [reflexivity|].
      destruct (Hkeep events' eq_refl) as [Hlen Hsame].
      split; [exact Hlen|]. split.
      * apply Hsame; [reflexivity|]. left. reflexivity.
      * apply Hsame; [reflexivity|]. right. reflexivity.
    + specialize (Hcompletes eq_refl). discriminate Hcompletes.
Defined.

(** ** C4: the combined selection flag *)

Lemma has_col_added c names info rs :
  has_col c (MkTable (add_colname c names) info rs) = true.
Proof.
  unfold has_col, add_colname; simpl. apply bool_decide_eq_true.
  case_bool_decide; [done|]. apply elem_of_app. right. by left.
Qed.

Lemma set_col_cells_fmap c u (g : row -> option value) names info rs :
  set_col_cells c u (g <$> rs) (MkTable names info rs) =
  Ok (MkTable (add_colname c names) (<[c := ColAttrs u None]> info)
              ((fun r => partial_alter (fun _ => g r) c r) <$> rs)).
Proof.
  unfold set_col_cells, len; simpl.
  rewrite length_fmap, bool_decide_eq_true_2 by done.
  do 2 f_equal. induction rs as [|r rs IH]; csimpl; [done|].
  by rewrite IH.
Qed.

Section selection_facts.
Context `{Externals}.

Lemma binned_cut_rows a b cuts op (rs : list row) :
  binned_cut (look a <$> rs) (look b <$> rs) cuts op
  = (fun r => VBool (evaluate_binned_cut (as_float (r !! a))
                                         (as_float (r !! b)) cuts op)) <$> rs.
Proof.
  unfold binned_cut. induction rs as [|r rs IH]; csimpl; [done|].
  by rewrite IH.
Qed.

Lemma column_and_rows a b (rs : list row) :
  column_and (look a <$> rs) (look b <$> rs)
  = (fun r => VBool (as_bool (r !! a) && as_bool (r !! b))) <$> rs.
Proof.
  unfold column_and. induction rs as [|r rs IH]; csimpl; [done|].
  by rewrite IH.
Qed.

Lemma add_selections_flags self events :
  cut_columns self events = true ->
  exists events',
    add_selections self events = Ok events'
    /\ selection_flags self events events'.
Proof.
  unfold cut_columns.
  intros [[Hgh He]%andb_true_iff Htheta]%andb_true_iff.
  destruct events as [names info rs]. unfold add_selections.
  rewrite (get_col_has "gh_score"), bind_Ok_l by done.
  rewrite (get_col_has "reco_energy"), bind_Ok_l by done. cbn [rows].
  rewrite binned_cut_rows, set_col_fmap, bind_Ok_l.
  destruct (full_enclosure self) eqn:Hfull; cbn [negb].
  - rewrite (get_col_has "selected_gh"), bind_Ok_l by apply has_col_added.
    cbn [rows]. rewrite set_col_cells_fmap. eexists. split; [done|].
    unfold selection_flags. rewrite Hfull.
    split; [unfold len; simpl; by rewrite !length_fmap|].
    split; [by apply has_col_add, has_col_added|].
    split; [by apply has_col_added|]. split; [done|].
    intros i r Hr. cbn [rows] in *.
    rewrite !list_lookup_fmap, Hr. eexists. split; [done|].
    unfold look, gh_cut.
    rewrite lookup_partial_alter_ne, lookup_partial_alter_eq by done.
    by rewrite lookup_insert_eq.
  - simpl in Htheta.
    rewrite (get_col_has "theta"), bind_Ok_l by by apply has_col_add.
    rewrite (get_col_has "reco_energy"), bind_Ok_l by by apply has_col_add.
    cbn [rows]. rewrite binned_cut_rows, set_col_fmap, bind_Ok_l.
    rewrite (get_col_has "selected_theta"), bind_Ok_l by apply has_col_added.
    rewrite (get_col_has "selected_gh"), bind_Ok_l
      by apply has_col_add, has_col_added.
    cbn [rows]. rewrite column_and_rows, set_col_fmap. eexists.
    split; [done|]. unfold selection_flags. rewrite Hfull.
    split; [unfold len; simpl; by rewrite !length_fmap|].
    split; [by apply has_col_add, has_col_add, has_col_added|].
    split; [by apply has_col_added|].
    split; [intros _; by apply has_col_add, has_col_added|].
    intros i r Hr. cbn [rows] in *.
    rewrite !list_lookup_fmap, Hr. eexists. split; [done|].
    unfold gh_cut, theta_cut.
    repeat first [ rewrite lookup_insert_eq
                 | rewrite lookup_insert_ne by done ].
    done.
Qed.

End selection_facts.

(** C4: for every tool whose event tables hold the columns the cuts read,
    [calculate_selections] completes, and in every row of the signal table,
    and of the background table when there is one, [selected_gh] is the
    classifier cut of the row; in full-enclosure mode [selected] equals it,
    and in point-like mode [selected_theta] is the angular cut of the row,
    whatever its classifier cut, and [selected] is the conjunction of the
    two. *)
Theorem selected_combines_independent_cuts `{Externals} (self : IrfTool) :
  cut_columns self (signal_events self) = true ->
  (do_background self = true ->
   cut_columns self (background_events self) = true) ->
  exists self',
    calculate_selections self = Ok self'
    /\ selection_flags self (signal_events self) (signal_events self')
    /\ (do_background self = true ->
        selection_flags self (background_events self)
                        (background_events self')).
Proof.
  intros Hsignal Hbackground. unfold calculate_selections.
  destruct (add_selections_flags self _ Hsignal) as (signal & -> & Hs).
  rewrite bind_Ok_l. destruct (do_background self).
  - destruct (add_selections_flags self _ (Hbackground eq_refl))
      as (background & -> & Hb).
    rewrite bind_Ok_l. eexists. split; [done|]. by split.
  - rewrite bind_Ok_l. eexists. split; [done|]. by split.
Qed.

Lemma selected_combines_independent_cuts_witness :
  exists self',
    @calculate_selections example_externals (example_irf_tool false)
    = Ok self'
    /\ @selection_flags example_externals (example_irf_tool false)
         (signal_events (example_irf_tool false)) (signal_events self')
    /\ @selection_flags example_externals (example_irf_tool false)
         (background_events (example_irf_tool false))
         (background_events self').
Proof.
  destruct (selected_combines_independent_cuts (H := example_externals)
              (example_irf_tool false) eq_refl (fun _ => eq_refl))
    as (self' & Hrun & Hs & Hb).
  exists self'. split; [exact Hrun|]. split; [exact Hs|].
  apply Hb. reflexivity.
Defined.

(** ** C5: no events after the quality query *)

Section too_few_events_facts.
Context `{Externals}.

Lemma total_len_concat (ts : list Table) :
  total_len ts = length (concat (rows <$> ts)).
Proof.
  unfold total_len. induction ts as [|t ts IH]; csimpl; [done|].
  by rewrite length_app, IH.
Qed.

Lemma read_chunked_empty c names info :
  read_chunked c (MkTable names info []) = [].
Proof.
  unfold read_chunked, len. simpl.
  destruct c as [|c]; [done|].
  by rewrite Nat.div_small by lia.
Qed.

(** With at least one chunk the check of [_read_table] does what C5 says:
    no retained row raises [TooFewEvents] with the telescope type in its
    message, and one retained row is enough for no [TooFewEvents] at all. *)
Lemma too_few_events_with_chunks self tel chunks s sels :
  chunks <> [] ->
  train_chunks self chunks = Ok sels ->
  (concat (rows <$> sels) = [] ->
   (read_table_chunks self tel chunks s).1
   = Raise (TooFewEvents
              ("No events after quality query for telescope type " +:+ tel)))
  /\ (concat (rows <$> sels) <> [] ->
      forall msg,
        (read_table_chunks self tel chunks s).1 <> Raise (TooFewEvents msg)).
Proof.
  intros Hchunks Hsels.
  destruct (train_chunks_Ok _ _ _ Hsels) as (Hcols & Hlen & _).
  assert (sels <> []) as Hne.
  { intros ->. destruct chunks; [done | discriminate]. }
  destruct (vstack_nonempty _ Hne) as [t Hv].
  pose proof (vstack_rows _ _ Hv) as Hrows.
  destruct (reduce_table_run self tel chunks s) as (dbg & _ & Hred).
  rewrite Hsels, Hv in Hred. unfold read_table_chunks.
  rewrite run_bind, Hred. unfold validated, len. rewrite Hrows.
  split; intros Hret.
  - by rewrite Hret.
  - rewrite bool_decide_eq_false_2
      by (intros Hz; by apply nil_length_inv in Hz).
    intros msg Hraise. unfold sample_events in Hraise.
    destruct (n_events self tel) as [n|]; [|done].
    case_bool_decide; [done|].
    rewrite run_emit, run_bind in Hraise. unfold rng_choice in Hraise.
    destruct (choice _ _ _) as [idx g]. unfold lift, take_rows in Hraise.
    by destruct (mapM _ _).
Qed.

End too_few_events_facts.

(** C5, at the input where the code departs from it: an input without any
    event gives the chunk iterator no chunk ([n_total = 0]), [table] stays
    the empty list, and [vstack] raises its own [ValueError] before the
    check that would raise [TooFewEvents]; nothing is logged. *)
Theorem no_chunk_raises_value_error `{Externals}
    (self : TrainEnergyRegressor) (telescope_type : string) (s : ToolState) :
  (forall c names info, read_chunked c (MkTable names info []) = [])
  /\ read_table_chunks self telescope_type [] s
     = (Raise (ValueError "no values provided to stack."), s).
Proof.
  split; [apply read_chunked_empty | reflexivity].
Qed.

(** ** C6: the header in the stacked list *)

Lemma merge_info_lookup m1 m2 c :
  merge_info m1 m2 !! c =
  match m1 !! c, m2 !! c with
  | Some a, Some b => Some (merge_attrs a b)
  | Some a, None => Some a
  | None, b => b
  end.
Proof.
  unfold merge_info. rewrite lookup_union_with.
  by destruct (m1 !! c), (m2 !! c).
Qed.

Lemma header_lookup_described c a :
  list_to_map (M := gmap string colattrs) header_columns !! c = Some a ->
  is_Some (description a).
Proof.
  intros Hc%elem_of_list_to_map_2.
  assert (header_described = true) as Hd by reflexivity.
  unfold header_described in Hd. rewrite forallb_forall in Hd.
  apply list_elem_of_In, Hd in Hc. simpl in Hc.
  destruct a as [u [d|]]; [by eexists | done].
Qed.

Lemma vstack_exact_cons t0 t1 rest t :
  vstack_exact (t0 :: t1 :: rest) = Ok t ->
  colnames t = colnames t0
  /\ colinfo t = foldl merge_info (colinfo t0) (colinfo <$> t1 :: rest).
Proof.
  unfold vstack_exact. destruct (forallb _ _); [|done]. by intros [= <-].
Qed.

(** Stacked between two copies of a header, the chunks leave the columns,
    the descriptions and the units of the header. *)
Lemma vstack_exact_header h sels t :
  vstack_exact (h :: sels ++ [h]) = Ok t ->
  colnames t = colnames h
  /\ forall c a,
       colinfo h !! c = Some a -> is_Some (description a) ->
       exists a',
         colinfo t !! c = Some a'
         /\ description a' = description a
         /\ (is_Some (unit a) -> unit a' = unit a).
Proof.
  destruct (sels ++ [h]) as [|t1 rest] eqn:Hrest; [by destruct sels|].
  intros [Hnames Hinfo]%vstack_exact_cons. split; [done|].
  intros c a Hc [d Hd].
  rewrite Hinfo, <- Hrest, fmap_app, foldl_app.
  cbn [fmap list_fmap foldl]. rewrite merge_info_lookup, Hc.
  destruct (foldl _ _ _ !! c) as [a0|].
  - eexists. split; [done|]. unfold merge_attrs. rewrite Hd.
    split; [done|]. by intros [u ->].
  - by eexists.
Qed.

(** C6, as stated, fails: [bits] starts as [[header]] and the header is
    appended once more after the loop, so the list handed to [vstack] holds
    the header twice, first and last, not once. *)
Lemma header_is_stacked_twice :
  ~ (forall epp chunks bits,
       @stacked_bits example_externals epp chunks = Ok bits ->
       length bits = length chunks + 1).
Proof.
  intros Hclaim.
  specialize (Hclaim (default_epp []) []
                     [make_empty_table; make_empty_table] eq_refl).
  discriminate.
Qed.

(** C6 (amended): the list handed to [vstack] is the header, the reduced
    chunks in chunk order, and the header again, last.  The header has no
    row, so the rows of the reduced table are the retained rows in chunk
    order; the columns are the header's, in its order; and every column has
    the description of the header, and its unit where the header gives one,
    whatever the chunks carried. *)
Theorem header_first_and_last `{Externals}
    (epp : EventPreprocessor) (chunks : list (nat * nat * Table))
    (t : Table) :
  load_chunks epp chunks = Ok t ->
  exists sels,
    stacked_bits epp chunks
    = Ok ([make_empty_table] ++ sels ++ [make_empty_table])
    /\ Forall2 (fun ch sel => preselect_chunk epp ch.2 = Ok sel) chunks sels
    /\ rows make_empty_table = []
    /\ rows t = concat (rows <$> sels)
    /\ colnames t = colnames make_empty_table
    /\ forall c a,
         colinfo make_empty_table !! c = Some a ->
         exists a',
           colinfo t !! c = Some a'
           /\ description a' = description a
           /\ (is_Some (unit a) -> unit a' = unit a).
Proof.
  unfold load_chunks. intros Hl. inv_bind Hl.
  destruct (stacked_bits_Ok _ _ _ E) as (sels & -> & HF).
  exists sels. split; [done|]. split; [done|]. split; [done|].
  pose proof (vstack_exact_rows _ _ Hl) as Hrows.
  split.
  { rewrite Hrows. csimpl. rewrite fmap_app, concat_app. csimpl.
    by rewrite !app_nil_r. }
  apply vstack_exact_header in Hl as [Hnames Hinfo]. split; [done|].
  intros c a Hc. apply Hinfo; [done|].
  exact (header_lookup_described _ _ Hc).
Qed.

Lemma header_first_and_last_witness :
  exists t sels,
    @load_chunks example_externals (default_epp positive_score)
      (read_chunked 2 steady_file) = Ok t
    /\ @stacked_bits example_externals (default_epp positive_score)
         (read_chunked 2 steady_file)
       = Ok ([make_empty_table] ++ sels ++ [make_empty_table])
    /\ rows t = concat (rows <$> sels)
    /\ colnames t = colnames make_empty_table.
Proof.
  destruct (@load_chunks example_externals (default_epp positive_score)
              (read_chunked 2 steady_file)) as [t|e] eqn:Hrun.
  - destruct (header_first_and_last (H := example_externals) _ _ _ Hrun)
      as (sels & Hbits & _ & _ & Hrows & Hcols & _).
    exists t, sels. split; [reflexivity|]. split; [exact Hbits|].
    split; [exact Hrows | exact Hcols].
  - apply (f_equal is_ok) in Hrun. vm_compute in Hrun. discriminate.
Defined.

(** ** C7: invalid rows are dropped after the chunks are stacked *)

(** C7: when every chunk is reduced without error and at least one row
    passes the quality query, [_read_table] reaches its sampling step with
    the valid rows of the stacked table: rows with a non-finite or masked
    feature or target are dropped, with the warning when there is one, and
    nothing is raised.  The validity check runs once on the stacked table:
    the tables collected per chunk, and the counter logged as the events
    after the quality query, still hold the rows that are dropped. *)
Theorem invalid_rows_dropped_after_stacking `{Externals}
    (self : TrainEnergyRegressor) (telescope_type : string)
    (chunks : list (nat * nat * Table)) (s : ToolState)
    (sels : list Table) :
  train_chunks self chunks = Ok sels ->
  concat (rows <$> sels) <> [] ->
  let retained := concat (rows <$> sels) in
  let all_valid := forallb (row_valid (feature_names self)) retained in
  retained = train_rows self (concat ((fun ch => rows ch.2) <$> chunks))
  /\ exists t dbg,
       Forall (fun e => level e = DEBUG) dbg
       /\ reduce_table self telescope_type chunks s
          = (Ok t,
             add_log s
               (dbg
                ++ [ Log INFO "Events read from input: %d"
                         [total_len (snd <$> chunks)];
                     Log INFO "Events after applying quality query: %d"
                         [length retained] ]
                ++ (if all_valid then []
                    else [Log WARNING "Dropping non-predictable events." []])))
       /\ rows t = List.filter (row_valid (feature_names self)) retained
       /\ colnames t = feature_names self.
Proof.
  intros Hsels Hret retained all_valid.
  destruct (train_chunks_Ok _ _ _ Hsels) as (Hcols & _ & Hrows).
  split; [done|].
  assert (sels <> []) as Hne by (by intros ->).
  destruct (vstack_nonempty _ Hne) as [st Hv].
  pose proof (vstack_rows _ _ Hv) as Hst.
  pose proof (vstack_colnames _ _ _ Hcols Hv) as Hnames.
  destruct (reduce_table_run self telescope_type chunks s)
    as (dbg & Hdbg & Hred).
  rewrite Hsels, Hv in Hred.
  unfold validated, validation_log, counters_log, dropping_warning in Hred.
  unfold len in Hred. rewrite Hst, Hnames in Hred.
  rewrite bool_decide_eq_false_2 in Hred
    by (intros Hz; by apply nil_length_inv in Hz).
  rewrite (total_len_concat sels) in Hred.
  eexists _, dbg. split; [exact Hdbg|]. split; [exact Hred|].
  split; reflexivity.
Qed.

Lemma invalid_rows_dropped_after_stacking_witness :
  exists sels t s',
    train_chunks (example_tool None training_events)
                 (read_chunked 2 training_events) = Ok sels
    /\ length (concat (rows <$> sels)) = 5
    /\ @reduce_table example_externals (example_tool None training_events)
         "LST" (read_chunked 2 training_events) start_state = (Ok t, s')
    /\ length (rows t) = 4
    /\ last (log s') = Some (Log WARNING "Dropping non-predictable events." []).
Proof.
  destruct (train_chunks (example_tool None training_events)
                         (read_chunked 2 training_events))
    as [sels|e] eqn:Hsels.
  - assert (length (concat (rows <$> sels)) = 5) as Hlen.
    { apply (f_equal (fun r => match r with
                               | Ok ts => length (concat (rows <$> ts))
                               | Raise _ => 0
                               end)) in Hsels.
      vm_compute in Hsels. symmetry. exact Hsels. }
    assert (forallb (row_valid (feature_names
                                  (example_tool None training_events)))
                    (concat (rows <$> sels)) = false) as Hinvalid.
    { apply (f_equal (fun r => match r with
                               | Ok ts =>
                                   forallb (row_valid (feature_names
                                     (example_tool None training_events)))
                                     (concat (rows <$> ts))
                               | Raise _ => true
                               end)) in Hsels.
      vm_compute in Hsels. symmetry. exact Hsels. }
    assert (length (List.filter
                      (row_valid (feature_names
                                    (example_tool None training_events)))
                      (concat (rows <$> sels))) = 4) as Hvalid.
    { apply (f_equal (fun r => match r with
                               | Ok ts =>
                                   length (List.filter
                                     (row_valid (feature_names
                                        (example_tool None training_events)))
                                     (concat (rows <$> ts)))
                               | Raise _ => 0
                               end)) in Hsels.
      vm_compute in Hsels. symmetry. exact Hsels. }
    destruct (invalid_rows_dropped_after_stacking (H := example_externals)
                (example_tool None training_events) "LST"
                (read_chunked 2 training_events) start_state sels Hsels)
      as (_ & t & dbg & _ & Hrun & Hrows & _).
    { intros Hnil. rewrite Hnil in Hlen. discriminate Hlen. }
    exists sels, t. eexists. split; [reflexivity|]. split; [exact Hlen|].
    split; [exact Hrun|]. split; [rewrite Hrows; exact Hvalid|].
    rewrite Hinvalid. cbn [log add_log].
    rewrite !app_assoc. apply last_snoc.
  - apply (f_equal is_ok) in Hsels. vm_compute in Hsels. discriminate.
Defined.

(** ** C9: the seeded sample *)

Lemma strictly_sorted (l : list nat) :
  StronglySorted le l -> NoDup l -> StronglySorted lt l.
Proof.
  induction 1 as [|x l Hl IH Hx]; intros Hnd; [constructor|].
  apply NoDup_cons in Hnd as [Hnotin Hnd].
  constructor; [by apply IH|].
  rewrite Forall_forall in Hx |- *. intros y Hy.
  specialize (Hx y Hy). assert (x <> y) by (by intros ->). lia.
Qed.

Lemma lookups_in_range {A} (l : list A) (idx : list nat) :
  Forall (fun i => i < length l) idx ->
  exists k, Forall2 (fun i x => l !! i = Some x) idx k.
Proof.
  induction 1 as [|i idx Hi _ [k IH]]; [by exists []|].
  destruct (lookup_lt_is_Some_2 l i Hi) as [x Hx].
  exists (x :: k). by constructor.
Qed.

Lemma Forall2_impl_Forall {A B} (P P' : A -> B -> Prop) (Q : A -> Prop)
    (l : list A) (k : list B) :
  Forall2 P l k -> Forall Q l ->
  (forall x y, Q x -> P x y -> P' x y) -> Forall2 P' l k.
Proof.
  intros HP HQ Himpl. induction HP as [|x y l k Hxy HP IH]; [constructor|].
  apply Forall_cons in HQ as [Hx HQ]. constructor; [by apply Himpl | by apply IH].
Qed.

(** The elements of a list at increasing positions, in that order, are a
    sublist of it. *)
Lemma sublist_of_increasing {A} (idx : list nat) (l k : list A) (off : nat) :
  StronglySorted lt idx ->
  Forall (fun i => off <= i) idx ->
  Forall2 (fun i x => l !! (i - off) = Some x) idx k ->
  k `sublist_of` l.
Proof.
  revert l k off. induction idx as [|i idx IH]; intros l k off Hs Hoff Hk.
  - apply Forall2_nil_inv_l in Hk as ->. apply sublist_nil_l.
  - apply Forall2_cons_inv_l in Hk as (x & k' & Hx & Hk & ->).
    apply StronglySorted_inv in Hs as [Hs Hlt].
    apply Forall_cons in Hoff as [Hi Hoff].
    rewrite <- (take_drop_middle l (i - off) x Hx).
    apply sublist_inserts_l, sublist_skip.
    apply (IH _ _ (S i)); [done| |].
    + eapply Forall_impl; [exact Hlt|]. intros j Hj. simpl in Hj. lia.
    + eapply Forall2_impl_Forall; [exact Hk | exact Hlt |].
      intros j y Hj Hjy. simpl in Hj. rewrite lookup_drop, <- Hjy.
      f_equal. lia.
Qed.

(** C9: when a sample count [n] is configured, the reduced table has at
    least [n] rows and the generator returns [n] distinct indices below the
    number of rows, [_read_table] sorts the indices and returns the rows at
    these indices: exactly [n] rows, a sublist of the reduced table, so in
    the same relative order; the generator is advanced and one message is
    logged.  The sample is a function of the seed, the count and the table:
    two tools that agree on them return the same sample. *)
Theorem sample_is_sorted_draw `{Externals}
    (self : TrainEnergyRegressor) (telescope_type : string) (table : Table)
    (s : ToolState) (n : nat) (idx : list nat) (g : Generator) :
  n_events self telescope_type = Some n ->
  n <= len table ->
  choice (rng s) (len table) n = (idx, g) ->
  NoDup idx -> length idx = n -> Forall (fun i => i < len table) idx ->
  (exists t',
     sample_events self telescope_type table s
     = (Ok t', {| rng := g;
                  log := log s ++ [Log INFO "Sampling %d events" [n]] |})
     /\ len t' = n
     /\ StronglySorted lt (merge_sort le idx)
     /\ merge_sort le idx ≡ₚ idx
     /\ Forall2 (fun i r => rows table !! i = Some r)
                (merge_sort le idx) (rows t')
     /\ rows t' `sublist_of` rows table
     /\ colnames t' = colnames table)
  /\ forall other : TrainEnergyRegressor,
       random_seed other = random_seed self ->
       n_events other telescope_type = n_events self telescope_type ->
       sample_events other telescope_type table (setup other)
       = sample_events self telescope_type table (setup self).
Proof.
  intros Hn Hle Hchoice Hnodup Hlen Hrange. split.
  - pose proof (merge_sort_Permutation le idx) as Hperm.
    assert (StronglySorted lt (merge_sort le idx)) as Hsorted.
    { apply strictly_sorted; [apply StronglySorted_merge_sort; apply _|].
      by rewrite Hperm. }
    assert (Forall (fun i => i < length (rows table)) (merge_sort le idx))
      as Hrange' by (by rewrite Hperm).
    destruct (lookups_in_range _ _ Hrange') as [k Hk].
    exists (MkTable (colnames table) (colinfo table) k).
    unfold sample_events. rewrite Hn.
    rewrite bool_decide_eq_false_2 by lia.
    rewrite run_emit, run_bind. unfold rng_choice. cbn [rng add_log log].
    rewrite Hchoice. unfold lift, take_rows.
    rewrite (mapM_Some_2 _ _ _ Hk). split; [done|].
    split.
    { unfold len. cbn [rows]. rewrite <- (Forall2_length _ _ _ Hk).
      by rewrite Hperm. }
    split; [done|]. split; [done|]. split; [done|]. split; [|done].
    cbn [rows]. apply (sublist_of_increasing (merge_sort le idx) _ _ 0).
    + done.
    + apply Forall_forall. intros; lia.
    + eapply Forall2_impl; [exact Hk|]. intros i r Hir.
      by rewrite Nat.sub_0_r.
  - intros other Hseed Hcount. unfold sample_events, setup.
    by rewrite Hseed, Hcount.
Qed.

Lemma sample_is_sorted_draw_witness :
  exists t',
    @sample_events example_externals (example_tool (Some 2) training_events)
      "LST" training_events start_state
    = (Ok t', @Build_ToolState example_externals 1
                [Log INFO "Sampling %d events" [2]])
    /\ len t' = 2
    /\ rows t' `sublist_of` rows training_events.
Proof.
  destruct (sample_is_sorted_draw (H := example_externals)
              (example_tool (Some 2) training_events) "LST" training_events
              start_state 2 [5; 4] 1)
    as [(t' & Hrun & Hlen & _ & _ & _ & Hsub & _) _].
  - reflexivity.
  - vm_compute. lia.
  - reflexivity.
  - apply (bool_decide_unpack _). vm_compute. exact I.
  - reflexivity.
  - repeat constructor; vm_compute; lia.
  - exists t'. split; [exact Hrun|]. split; [exact Hlen | exact Hsub].
Defined.

(** ** C8: the columns [normalise_column_names] requires *)

Lemma chars_append s t :
  String.list_ascii_of_string (s +:+ t)
  = String.list_ascii_of_string s ++ String.list_ascii_of_string t.
Proof. induction s as [|c s IH]; simpl; [done|]. by rewrite IH. Qed.

Lemma append_suffix_eq {A} (l1 l2 k1 k2 : list A) :
  l1 ++ k1 = l2 ++ k2 ->
  drop (length k1 - length k2) k1 = drop (length k2 - length k1) k2.
Proof.
  intros Heq. pose proof (f_equal length Heq) as Hlen.
  rewrite !length_app in Hlen.
  pose proof (f_equal (drop (length l1 + (length k1 - length k2))) Heq) as Hd.
  rewrite drop_app_ge in Hd by lia.
  replace (length l1 + (length k1 - length k2))
    with (length l2 + (length k2 - length k1)) in Hd at 2 by lia.
  rewrite drop_app_ge in Hd by lia.
  by replace (length l1 + (length k1 - length k2) - length l1)
       with (length k1 - length k2) in Hd by lia;
     replace (length l2 + (length k2 - length k1) - length l2)
       with (length k2 - length k1) in Hd by lia.
Qed.

Lemma suffix_clash_neq s1 s2 t1 t2 :
  suffix_clash t1 t2 = true -> s1 +:+ t1 <> s2 +:+ t2.
Proof.
  unfold suffix_clash. intros Hclash Heq.
  apply (f_equal String.list_ascii_of_string) in Heq. rewrite !chars_append in Heq.
  apply append_suffix_eq in Heq.
  apply negb_true_iff, bool_decide_eq_false in Hclash. done.
Qed.

Lemma pairwise_clash_NoDup (parts : list (string * string)) :
  pairwise_clash parts.*2 = true ->
  NoDup ((fun p => p.1 +:+ p.2) <$> parts).
Proof.
  induction parts as [|[s t] parts IH]; csimpl; [constructor|].
  intros [Ht Hrest]%andb_true_iff. constructor; [|by apply IH].
  intros ([s' t'] & Heq & Hin)%list_elem_of_fmap. simpl in Heq.
  rewrite forallb_forall in Ht.
  assert (In t' parts.*2) as Hin'.
  { apply list_elem_of_In, list_elem_of_fmap. by exists (s', t'). }
  by apply (suffix_clash_neq s s' t t' (Ht _ Hin')).
Qed.

Lemma filter_sublist {A} (p : A -> bool) (l : list A) :
  List.filter p l `sublist_of` l.
Proof.
  induction l as [|x l IH]; simpl; [constructor|].
  destruct (p x); by constructor.
Qed.

Lemma renames_sublist epp events :
  renames epp events `sublist_of` all_renames epp.
Proof.
  unfold renames, all_renames.
  change (zip (rename_from_required epp ++ rename_from_optional epp)
              (rename_to_required ++ rename_to_optional))
    with (zip (rename_from_required epp) rename_to_required
          ++ zip (rename_from_optional epp) rename_to_optional).
  apply sublist_app; [done|].
  destruct (optional_dl3_columns epp); [|apply sublist_nil_l].
  destruct (negb _); [apply filter_sublist | done].
Qed.

Lemma renames_NoDup epp events :
  NoDup (renames epp events).*1 /\ NoDup (renames epp events).*2.
Proof.
  pose proof (renames_sublist epp events) as Hsub. split.
  - eapply sublist_NoDup; [|by apply fmap_sublist].
    change ((all_renames epp).*1)
      with ((fun p => p.1 +:+ p.2) <$> rename_from_parts epp).
    by apply pairwise_clash_NoDup.
  - eapply sublist_NoDup; [|by apply fmap_sublist].
    change ((all_renames epp).*2)
      with (rename_to_required ++ rename_to_optional).
    apply (bool_decide_unpack _). by vm_compute.
Qed.

(** Sequential renames go through when the old names are distinct and
    present, the new names are distinct, and no new name is taken by another
    column.  The new names are columns of the result, and so is every column
    that was not renamed. *)
Lemma rename_columns_succeeds (pairs : list (string * string)) (t : Table) :
  NoDup pairs.*1 -> NoDup pairs.*2 ->
  (forall p, p ∈ pairs -> p.1 ∈ colnames t) ->
  (forall p, p ∈ pairs -> p.2 ∈ colnames t -> p.1 = p.2) ->
  exists t',
    rename_columns pairs.*1 pairs.*2 t = Ok t'
    /\ (forall p, p ∈ pairs -> p.2 ∈ colnames t')
    /\ (forall c, c ∈ colnames t ->
                 (forall p, p ∈ pairs -> p.1 <> p.2 -> c <> p.1) ->
                 c ∈ colnames t').
Proof.
  revert t. induction pairs as [|[a b] pairs IH]; intros t Hn1 Hn2 Hin Hfree.
  - exists t. split; [done|]. split; [by intros p ?%elem_of_nil | done].
  - csimpl in *. apply NoDup_cons in Hn1 as [Ha Hn1], Hn2 as [Hb Hn2].
    assert (a ∈ colnames t) as Hat by (apply (Hin (a, b)); by left).
    unfold rename_column, has_col.
    rewrite (bool_decide_eq_true_2 _ Hat). cbn [negb].
    destruct (decide (a = b)) as [<-|Hab].
    + rewrite bool_decide_eq_true_2, bind_Ok_l by done.
      destruct (IH t Hn1 Hn2) as (t' & Hrun & Hnew & Hold).
      { intros p Hp. apply Hin. by right. }
      { intros p Hp. apply Hfree. by right. }
      exists t'. split; [done|]. split.
      * intros p [->|Hp]%elem_of_cons; [|by apply Hnew].
        apply Hold; [done|]. intros q Hq _ Heq. simpl in Heq. apply Ha.
        apply list_elem_of_fmap. by exists q.
      * intros c Hc Hne. apply Hold; [done|].
        intros p Hp. apply Hne. by right.
    + rewrite bool_decide_eq_false_2 by done.
      assert (b ∉ colnames t) as Hbt.
      { intros Hbt. apply Hab, (Hfree (a, b)); [by left | done]. }
      rewrite (bool_decide_eq_false_2 _ Hbt), bind_Ok_l.
      set (t1 := MkTable _ _ _).
      assert (forall c, c ∈ colnames t -> c <> a -> c ∈ colnames t1) as Hkeep.
      { intros c Hc Hca. unfold t1. cbn [colnames].
        apply list_elem_of_fmap. exists c. by rewrite bool_decide_eq_false_2. }
      destruct (IH t1 Hn1 Hn2) as (t' & Hrun & Hnew & Hold).
      { intros p Hp. apply Hkeep; [apply Hin; by right|].
        intros Hpa. apply Ha, list_elem_of_fmap. by exists p. }
      { intros p Hp Hp2. unfold t1 in Hp2. cbn [colnames] in Hp2.
        apply list_elem_of_fmap in Hp2 as (c & Hc & Hct).
        case_bool_decide; subst.
        - destruct Hb. apply list_elem_of_fmap. by exists p.
        - apply Hfree; [by right | done]. }
      exists t'. split; [done|]. split.
      * intros p [->|Hp]%elem_of_cons; [|by apply Hnew].
        apply Hold.
        -- unfold t1. cbn [colnames]. apply list_elem_of_fmap.
           exists a. by rewrite bool_decide_eq_true_2.
        -- intros q Hq _ Heq. simpl in Heq. apply Hbt. rewrite Heq.
           apply Hin. by right.
      * intros c Hc Hne. apply Hold.
        -- apply Hkeep; [done|]. apply (Hne (a, b)); [by left | done].
        -- intros p Hp. apply Hne. by right.
Qed.

Section normalise_facts.
Context `{Externals}.

(** Past its two guards, [normalise_column_names] reports the first
    required column that is missing, or renames. *)
Lemma normalise_past_guards epp events :
  pointing_guards epp events = true ->
  normalise_column_names epp events =
  match List.find (fun c => negb (has_col c events))
                  (required_columns epp events) with
  | Some c => Raise (missing_column_error c)
  | None =>
      rename_columns (renames epp events).*1 (renames epp events).*2 events
  end.
Proof.
  unfold pointing_guards.
  intros [[Hlat Hframe]%andb_true_iff Haltaz]%andb_true_iff.
  apply negb_true_iff in Haltaz. unfold normalise_column_names.
  destruct (irf_pre_processing epp).
  - apply andb_true_iff in Hlat as [Hlat Hstd]. apply negb_true_iff in Hstd.
    rewrite (get_col_has _ _ Hlat), !bind_Ok_l, Hstd.
    by rewrite (get_col_has _ _ Hframe), bind_Ok_l, Haltaz.
  - rewrite bind_Ok_l.
    by rewrite (get_col_has _ _ Hframe), bind_Ok_l, Haltaz.
Qed.

End normalise_facts.

(** C8, as stated, fails: all required columns can be present and the
    normalisation still raises, because two guards on the pointing come
    first.  The event of [icrs_file] has every required column and a
    pointing frame other than ALTAZ. *)
Lemma required_columns_do_not_suffice :
  ~ (forall (epp : EventPreprocessor) (events : Table),
       forallb (fun c => has_col c events) (required_columns epp events)
       = true ->
       is_ok (@normalise_column_names example_externals epp events) = true).
Proof.
  intros Hclaim. specialize (Hclaim (default_epp []) icrs_file eq_refl).
  vm_compute in Hclaim. discriminate.
Qed.

Lemma find_first {A} (p : A -> bool) (before after : list A) (c : A) :
  (forall b, b ∈ before -> p b = false) -> p c = true ->
  List.find p (before ++ c :: after) = Some c.
Proof.
  intros Hbefore Hc. induction before as [|b before IH]; simpl.
  - by rewrite Hc.
  - rewrite (Hbefore b) by left. apply IH. intros b' Hb'.
    apply Hbefore. by right.
Qed.

(** C8 (amended): for every chunk that passes the two pointing guards,
    column normalisation raises the [ValueError] that names the first
    required column absent from the chunk's columns, in the order of the
    required columns (identity, truth or time, then the columns to rename):
    the column after which every earlier required column is present.  So
    it raises as soon as one required column is absent; and when all
    required columns are present and no canonical name is already the name
    of another column, it succeeds: the result has as many rows, each the
    row of the chunk with the renamed cells moved, and every canonical name
    is one of its columns. *)
Theorem normalise_requires_columns `{Externals}
    (epp : EventPreprocessor) (events : Table) :
  pointing_guards epp events = true ->
  (forall before c after,
     required_columns epp events = before ++ c :: after ->
     (forall b, b ∈ before -> b ∈ colnames events) ->
     c ∉ colnames events ->
     normalise_column_names epp events = Raise (missing_column_error c))
  /\ (forall c,
        c ∈ required_columns epp events -> c ∉ colnames events ->
        exists c',
          c' ∈ required_columns epp events
          /\ (c' ∉ colnames events)
          /\ normalise_column_names epp events
             = Raise (missing_column_error c'))
  /\ ((forall c, c ∈ required_columns epp events -> c ∈ colnames events) ->
      (forall p, p ∈ renames epp events -> p.2 ∈ colnames events ->
                 p.1 = p.2) ->
      exists events',
        normalise_column_names epp events = Ok events'
        /\ len events' = len events
        /\ rows events' = normalise_row (renames epp events) <$> rows events
        /\ forall p, p ∈ renames epp events -> p.2 ∈ colnames events').
Proof.
  intros Hguards. rewrite (normalise_past_guards _ _ Hguards).
  split; [|split].
  - intros before c after Hreq Hbefore Hc. rewrite Hreq.
    rewrite find_first; [done| |].
    + intros b Hb. apply negb_false_iff, bool_decide_eq_true.
      by apply Hbefore.
    + by apply negb_true_iff, bool_decide_eq_false.
  - intros c Hc Hmissing.
    destruct (List.find _ _) as [c'|] eqn:Hfind.
    + apply List.find_some in Hfind as [Hin Hc'].
      exists c'. split; [by apply list_elem_of_In|]. split; [|done].
      apply negb_true_iff, bool_decide_eq_false in Hc'. done.
    + apply list_elem_of_In in Hc.
      pose proof (List.find_none _ _ Hfind c Hc) as Hn. simpl in Hn.
      apply negb_false_iff, bool_decide_eq_true in Hn. done.
  - intros Hall Hfree.
    destruct (List.find _ _) as [c'|] eqn:Hfind.
    { apply List.find_some in Hfind as [Hin Hc'].
      apply negb_true_iff, bool_decide_eq_false in Hc'.
      destruct Hc'. by apply Hall, list_elem_of_In. }
    destruct (renames_NoDup epp events) as [Hn1 Hn2].
    destruct (rename_columns_succeeds (renames epp events) events Hn1 Hn2)
      as (events' & Hrun & Hnew & _); [|done|].
    { intros p Hp. apply Hall. unfold required_columns.
      apply elem_of_app. right. apply list_elem_of_fmap. by exists p. }
    exists events'. split; [done|].
    pose proof (rename_columns_rows _ _ _ Hrun) as Hrows.
    split; [unfold len; by rewrite Hrows, length_fmap|]. by split.
Qed.

Lemma normalise_requires_columns_witness :
  @normalise_column_names example_externals (default_epp []) incomplete_file
  = Raise (missing_column_error "true_energy")
  /\ exists events',
       @normalise_column_names example_externals (default_epp []) steady_file
       = Ok events'
       /\ len events' = 5
       /\ "gh_score" ∈ colnames events'.
Proof.
  split.
  - destruct (normalise_requires_columns (H := example_externals)
                (default_epp []) incomplete_file eq_refl) as [Hfirst _].
    apply (Hfirst ["obs_id"; "event_id"] "true_energy"
             [ "true_az"; "true_alt"; "RandomForestRegressor_energy";
               "HillasReconstructor_az"; "HillasReconstructor_alt";
               "RandomForestClassifier_prediction"; "subarray_pointing_lat";
               "subarray_pointing_lon" ]).
    + reflexivity.
    + apply Forall_forall. apply (bool_decide_unpack _). by vm_compute.
    + apply (bool_decide_unpack _). by vm_compute.
  - destruct (normalise_requires_columns (H := example_externals)
                (default_epp []) steady_file eq_refl) as (_ & _ & Hok).
    destruct Hok as (events' & Hrun & Hlen & _ & Hnew).
    + apply Forall_forall. apply (bool_decide_unpack _). by vm_compute.
    + intros p Hp Hp2. exfalso. revert p Hp Hp2.
      apply (Forall_forall (fun p => p.2 ∉ colnames steady_file)).
      apply (bool_decide_unpack _). by vm_compute.
    + exists events'. split; [exact Hrun|]. split; [exact Hlen|].
      apply (Hnew ("RandomForestClassifier_prediction", "gh_score")).
      apply (bool_decide_unpack _). by vm_compute.
Defined.

(** * Further properties of the code *)

(** ** [make_event_weights]: the global ratio and the loop over the bins *)

(** Unless the events are gammas with a point-like target on a diffuse
    simulation, [make_event_weights] ignores the offset bins.  It reads the
    column [true_energy], a KeyError when it is missing; then
    [calculate_event_weights] raises [UnitConversionError] unless the
    normalisations of the target and of the simulated spectrum have
    equivalent units; with equivalent units every event gets the weight
    [calculate_event_weights] computes from its true energy and the two
    spectra as they are, and every other cell is left alone. *)
Theorem global_ratio_ignores_bins `{Externals}
    (self : EventLoader) (events : Table) (spectrum target : Spectrum)
    (kind : string) (fov_offset_bins : option (list float)) :
  target_spectrum self = Some target ->
  kind <> "gammas"
  \/ normalization_unit target <> POINT_SOURCE_FLUX_UNIT
  \/ normalization_unit spectrum <> DIFFUSE_FLUX_UNIT ->
  (has_col "true_energy" events = false ->
   make_event_weights self events spectrum kind fov_offset_bins
   = Raise (KeyError "true_energy"))
  /\ (has_col "true_energy" events = true ->
      normalization_unit target <> normalization_unit spectrum ->
      make_event_weights self events spectrum kind fov_offset_bins
      = Raise (UnitConversionError (normalization_unit target)
                                   (normalization_unit spectrum)))
  /\ (has_col "true_energy" events = true ->
      normalization_unit target = normalization_unit spectrum ->
      exists events',
        make_event_weights self events spectrum kind fov_offset_bins
        = Ok events'
        /\ len events' = len events
        /\ has_col "weight" events' = true
        /\ forall i r,
             rows events !! i = Some r ->
             exists r',
               rows events' !! i = Some r'
               /\ r' !! "weight"
                  = Some (VFloat (calculate_event_weights
                                    (as_float (r !! "true_energy"))
                                    target spectrum))
               /\ forall c, c <> "weight" -> r' !! c = r !! c).
Proof.
  intros Htarget Hother. unfold make_event_weights. rewrite Htarget.
  assert (bool_decide (kind = "gammas")
          && is_equivalent (normalization_unit target) POINT_SOURCE_FLUX_UNIT
          && is_equivalent (normalization_unit spectrum) DIFFUSE_FLUX_UNIT
          = false) as ->.
  { unfold is_equivalent. apply not_true_iff_false.
    intros [[Hk Hp]%andb_true_iff Hd]%andb_true_iff.
    apply bool_decide_eq_true in Hk, Hp, Hd. tauto. }
  split; [|split].
  - intros Hno. unfold get_col. by rewrite Hno.
  - intros Hyes Hunits. rewrite (get_col_has _ _ Hyes), bind_Ok_l.
    unfold event_weights, is_equivalent.
    by rewrite bool_decide_eq_false_2.
  - intros Hyes Hunits. rewrite (get_col_has _ _ Hyes), bind_Ok_l.
    rewrite event_weights_eq, bind_Ok_l by done.
    destruct events as [names info rs]. cbn [rows].
    rewrite <- list_fmap_compose, set_col_fmap. eexists. split; [done|].
    split; [unfold len; simpl; by rewrite length_fmap|].
    split; [apply has_col_added|].
    intros i r Hr. cbn [rows]. rewrite list_lookup_fmap, Hr.
    eexists. split; [done|]. split; [by rewrite lookup_insert_eq|].
    intros c Hc. by rewrite lookup_insert_ne.
Qed.

Lemma global_ratio_ignores_bins_witness :
  @make_event_weights example_externals (example_loader weighted_events)
    weighted_events diffuse_spectrum "protons" (Some offset_edges)
  = Raise (UnitConversionError POINT_SOURCE_FLUX_UNIT DIFFUSE_FLUX_UNIT)
  /\ exists events' r',
       @make_event_weights example_externals (example_loader weighted_events)
         weighted_events (POINT_SOURCE_FLUX_UNIT, 1%Q) "gammas"
         (Some offset_edges)
       = Ok events'
       /\ rows events' !! 3 = Some r'
       /\ r' !! "weight" = Some (VFloat (Real 6)).
Proof.
  split.
  - destruct (global_ratio_ignores_bins (H := example_externals)
                (example_loader weighted_events) weighted_events
                diffuse_spectrum (POINT_SOURCE_FLUX_UNIT, 3%Q) "protons"
                (Some offset_edges) eq_refl) as (_ & Hunits & _).
    + left. discriminate.
    + apply Hunits; [reflexivity|discriminate].
  - destruct (global_ratio_ignores_bins (H := example_externals)
                (example_loader weighted_events) weighted_events
                (POINT_SOURCE_FLUX_UNIT, 1%Q) (POINT_SOURCE_FLUX_UNIT, 3%Q)
                "gammas" (Some offset_edges) eq_refl) as (_ & _ & Hok).
    + right. right. discriminate.
    + destruct (Hok eq_refl eq_refl) as (events' & Hrun & _ & _ & Hrows).
      destruct (Hrows 3 (weighted_row 2 5) eq_refl) as (r' & Hr' & Hw & _).
      exists events', r'. split; [exact Hrun|]. split; [exact Hr'|].
      rewrite Hw. reflexivity.
Defined.

(** In the loop over the offset bins nothing asks the edges to be sorted:
    for any edges, an event gets the weight of the last bin, in the order of
    the edges, whose half-open interval holds its offset, and keeps its
    weight when no bin does.  The columns, their attributes, the number of
    rows and every cell other than the weight are returned as they were. *)
Theorem last_offset_bin_sets_weight `{Externals}
    (self : EventLoader) (events events' : Table) (spectrum target : Spectrum)
    (kind : string) (edges : list float) :
  kind = "gammas" ->
  target_spectrum self = Some target ->
  normalization_unit target = POINT_SOURCE_FLUX_UNIT ->
  normalization_unit spectrum = DIFFUSE_FLUX_UNIT ->
  make_event_weights self events spectrum kind (Some edges) = Ok events' ->
  colnames events' = colnames events
  /\ colinfo events' = colinfo events
  /\ len events' = len events
  /\ forall i r,
       rows events !! i = Some r ->
       exists r',
         rows events' !! i = Some r'
         /\ (forall c, c <> "weight" -> r' !! c = r !! c)
         /\ r' !! "weight"
            = match last_bin (bin_pairs edges) r with
              | Some (low, high) =>
                  Some (VFloat (calculate_event_weights
                                  (as_float (r !! "true_energy")) target
                                  (integrate_cone spectrum low high)))
              | None => r !! "weight"
              end.
Proof.
  intros Hkind Htarget Hpoint Hdiffuse Hrun.
  unfold make_event_weights in Hrun.
  rewrite Htarget, point_like_test in Hrun by done.
  destruct events as [names info rs].
  apply weight_bins_Ok in Hrun as [-> _].
  split; [done|]. split; [done|].
  split; [unfold len; simpl; by rewrite length_fmap|].
  intros i r Hr. cbn [rows] in *. rewrite list_lookup_fmap, Hr.
  eexists. split; [done|]. rewrite weight_row_last.
  destruct (last_bin (bin_pairs edges) r) as [[low high]|].
  - split; [|by rewrite lookup_insert_eq].
    intros c Hc. by rewrite lookup_insert_ne.
  - done.
Qed.

Lemma last_offset_bin_sets_weight_witness :
  exists events' r',
    @make_event_weights example_externals (example_loader weighted_events)
      weighted_events diffuse_spectrum "gammas"
      (Some [Real 0; Real 2; Real 1; Real 3])
    = Ok events'
    /\ rows events' !! 1 = Some r'
    /\ r' !! "weight" = Some (VFloat (Real 3)).
Proof.
  destruct (@make_event_weights example_externals
              (example_loader weighted_events) weighted_events
              diffuse_spectrum "gammas"
              (Some [Real 0; Real 2; Real 1; Real 3]))
    as [events'|e] eqn:Hrun.
  - destruct (last_offset_bin_sets_weight (H := example_externals)
                (example_loader weighted_events) weighted_events events'
                diffuse_spectrum (POINT_SOURCE_FLUX_UNIT, 3%Q) "gammas"
                [Real 0; Real 2; Real 1; Real 3]
                eq_refl eq_refl eq_refl eq_refl Hrun)
      as (_ & _ & _ & Hrows).
    destruct (Hrows 1 (weighted_row 4 (3 # 2)) eq_refl)
      as (r' & Hr' & _ & Hw).
    exists events', r'. split; [reflexivity|]. split; [exact Hr'|].
    rewrite Hw. reflexivity.
  - apply (f_equal is_ok) in Hrun. vm_compute in Hrun. discriminate.
Defined.

(** With fewer than two edges there is no bin: the loop body never runs and
    the table is returned as it is, whatever its columns. *)
Theorem fewer_than_two_edges_no_weighting `{Externals}
    (self : EventLoader) (events : Table) (spectrum target : Spectrum)
    (kind : string) (edges : list float) :
  kind = "gammas" ->
  target_spectrum self = Some target ->
  normalization_unit target = POINT_SOURCE_FLUX_UNIT ->
  normalization_unit spectrum = DIFFUSE_FLUX_UNIT ->
  length edges < 2 ->
  make_event_weights self events spectrum kind (Some edges) = Ok events.
Proof.
  intros Hkind Htarget Hpoint Hdiffuse Hlen.
  unfold make_event_weights. rewrite Htarget, point_like_test by done.
  destruct edges as [|a [|b l]]; [done | done | simpl in Hlen; lia].
Qed.

Lemma fewer_than_two_edges_no_weighting_witness :
  @make_event_weights example_externals (example_loader steady_file)
    steady_file diffuse_spectrum "gammas" (Some [Real 1])
  = Ok steady_file.
Proof.
  apply (fewer_than_two_edges_no_weighting (H := example_externals)
           (example_loader steady_file) steady_file diffuse_spectrum
           (POINT_SOURCE_FLUX_UNIT, 3%Q) "gammas" [Real 1]);
    [reflexivity..|simpl; lia].
Defined.

(** ** [calculate_selections]: its errors and what it leaves alone *)

Lemma elem_of_add_colname c c' names :
  c ∈ names -> c ∈ add_colname c' names.
Proof.
  intros Hc. unfold add_colname. case_bool_decide; [done|].
  apply elem_of_app. by left.
Qed.

Section selection_more.
Context `{Externals}.

Lemma add_selections_eq self names info rs :
  add_selections self (MkTable names info rs) =
  match missing_cut_column self (MkTable names info rs) with
  | Some c => Raise (KeyError c)
  | None =>
      Ok (MkTable
            (add_colname "selected"
               (if full_enclosure self then add_colname "selected_gh" names
                else add_colname "selected_theta"
                       (add_colname "selected_gh" names)))
            (<["selected" := ColAttrs None None]>
               (if full_enclosure self
                then <["selected_gh" := ColAttrs None None]> info
                else <["selected_theta" := ColAttrs None None]>
                       (<["selected_gh" := ColAttrs None None]> info)))
            (select_row self <$> rs))
  end.
Proof.
  unfold add_selections, missing_cut_column.
  destruct (has_col "gh_score" _) eqn:Hgh;
    [|by rewrite (get_col_missing "gh_score")].
  rewrite (get_col_has "gh_score"), bind_Ok_l by done.
  destruct (has_col "reco_energy" _) eqn:He;
    [|by rewrite (get_col_missing "reco_energy")].
  rewrite (get_col_has "reco_energy"), bind_Ok_l by done. cbn [rows negb].
  rewrite (binned_cut_rows "gh_score" "reco_energy"), set_col_fmap, bind_Ok_l.
  destruct (full_enclosure self) eqn:Hfull; cbn [negb andb].
  - rewrite (get_col_has "selected_gh"), bind_Ok_l by apply has_col_added.
    cbn [rows]. rewrite set_col_cells_fmap. do 2 f_equal.
    rewrite <- list_fmap_compose. apply list_fmap_ext. intros i r _.
    unfold select_row, gh_cut, look. simpl. by rewrite Hfull.
  - destruct (has_col "theta" _) eqn:Ht.
    2: { rewrite (get_col_missing "theta"); [done|].
         by rewrite has_col_add_ne. }
    rewrite (get_col_has "theta"), bind_Ok_l by by apply has_col_add.
    rewrite (get_col_has "reco_energy"), bind_Ok_l by by apply has_col_add.
    cbn [rows negb]. rewrite (binned_cut_rows "theta" "reco_energy").
    rewrite set_col_fmap, bind_Ok_l.
    rewrite (get_col_has "selected_theta"), bind_Ok_l by apply has_col_added.
    rewrite (get_col_has "selected_gh"), bind_Ok_l
      by apply has_col_add, has_col_added.
    cbn [rows]. rewrite (column_and_rows "selected_theta" "selected_gh").
    rewrite set_col_fmap. do 2 f_equal.
    rewrite <- !list_fmap_compose. apply list_fmap_ext. intros i r _.
    unfold select_row, gh_cut, theta_cut. simpl. rewrite Hfull.
    by repeat first [ rewrite lookup_insert_eq
                    | rewrite lookup_insert_ne by done ].
Qed.

Lemma select_row_outside self r c :
  c ∉ selection_columns -> select_row self r !! c = r !! c.
Proof.
  unfold selection_columns. intros Hc.
  assert (c <> "selected_gh" /\ c <> "selected_theta" /\ c <> "selected")
    as (H1 & H2 & H3).
  { repeat split; intros ->; apply Hc; set_solver. }
  unfold select_row. destruct (full_enclosure self).
  - rewrite lookup_partial_alter_ne by done. by rewrite lookup_insert_ne.
  - by rewrite !lookup_insert_ne.
Qed.

Lemma add_selections_outside self events events' :
  add_selections self events = Ok events' ->
  same_outside selection_columns events events'.
Proof.
  destruct events as [names info rs]. rewrite add_selections_eq.
  destruct (missing_cut_column _ _); [done|]. intros [= <-].
  split; [unfold len; simpl; by rewrite length_fmap|]. split.
  - intros c Hc. cbn [colnames] in *.
    destruct (full_enclosure self); by repeat apply elem_of_add_colname.
  - intros i r Hr. cbn [rows] in *. rewrite list_lookup_fmap, Hr.
    eexists. split; [done|]. intros c. apply select_row_outside.
Qed.

End selection_more.

(** [calculate_selections] raises the KeyError of the first column it reads
    and does not find: [gh_score], then [reco_energy], then, unless a full
    enclosure is asked for, [theta]; it reads the signal table first and the
    background table only with [do_background].  When no such column is
    missing it completes. *)
Theorem calculate_selections_first_missing_column `{Externals}
    (self : IrfTool) :
  match missing_cut_column self (signal_events self) with
  | Some c => calculate_selections self = Raise (KeyError c)
  | None =>
      match (if do_background self
             then missing_cut_column self (background_events self)
             else None) with
      | Some c => calculate_selections self = Raise (KeyError c)
      | None => is_ok (calculate_selections self) = true
      end
  end.
Proof.
  unfold calculate_selections.
  destruct (signal_events self) as [names info rs].
  rewrite add_selections_eq.
  destruct (missing_cut_column self (MkTable names info rs)); [done|].
  rewrite bind_Ok_l. destruct (do_background self); [|done].
  destruct (background_events self) as [names' info' rs'].
  rewrite add_selections_eq.
  by destruct (missing_cut_column self (MkTable names' info' rs')).
Qed.

(** A run of [calculate_selections] that completes keeps the configuration
    and the cut tables, the number of rows of both event tables, their
    columns and every cell outside [selected_gh], [selected_theta] and
    [selected]; without [do_background] the background table is returned
    as it was. *)
Theorem calculate_selections_keeps_cells `{Externals} (self self' : IrfTool) :
  calculate_selections self = Ok self' ->
  full_enclosure self' = full_enclosure self
  /\ do_background self' = do_background self
  /\ opt_result self' = opt_result self
  /\ same_outside selection_columns (signal_events self) (signal_events self')
  /\ (if do_background self
      then same_outside selection_columns (background_events self)
                        (background_events self')
      else background_events self' = background_events self).
Proof.
  unfold calculate_selections. intros Hrun.
  inv_bind Hrun. apply add_selections_outside in E.
  inv_bind Hrun. injection Hrun as <-. cbn.
  do 3 (split; [done|]). split; [done|].
  destruct (do_background self).
  - by apply (add_selections_outside self).
  - by injection E0 as <-.
Qed.

Lemma calculate_selections_keeps_cells_witness :
  exists self' r',
    @calculate_selections example_externals (example_irf_tool false)
    = Ok self'
    /\ rows (signal_events self') !! 1 = Some r'
    /\ r' !! "theta" = Some (VFloat (Real 2)).
Proof.
  destruct (@calculate_selections example_externals (example_irf_tool false))
    as [self'|e] eqn:Hrun.
  - destruct (calculate_selections_keeps_cells (H := example_externals)
                (example_irf_tool false) self' Hrun)
      as (_ & _ & _ & (_ & _ & Hrows) & _).
    destruct (Hrows 1 (cut_row (9 # 10) 1 2) eq_refl) as (r' & Hr' & Hc).
    exists self', r'. split; [reflexivity|]. split; [exact Hr'|].
    rewrite (Hc "theta"); [reflexivity|].
    unfold selection_columns. intros Hin.
    apply (bool_decide_pack _) in Hin. vm_compute in Hin. exact Hin.
  - apply (f_equal is_ok) in Hrun. vm_compute in Hrun. discriminate.
Defined.

Section selection_twice.
Context `{Externals}.

Lemma select_row_lookup self r c :
  select_row self r !! c =
  if bool_decide (c = "selected") then
    Some (VBool (if full_enclosure self then gh_cut self r
                 else theta_cut self r && gh_cut self r))
  else if bool_decide (c = "selected_theta") then
    if full_enclosure self then r !! c else Some (VBool (theta_cut self r))
  else if bool_decide (c = "selected_gh") then Some (VBool (gh_cut self r))
  else r !! c.
Proof.
  unfold select_row. destruct (full_enclosure self).
  - repeat case_bool_decide; subst;
      repeat first [ rewrite lookup_partial_alter_eq
                   | rewrite lookup_partial_alter_ne by done
                   | rewrite lookup_insert_eq
                   | rewrite lookup_insert_ne by done ]; done.
  - assert (theta_cut self (<["selected_gh" := VBool (gh_cut self r)]> r)
            = theta_cut self r) as Htheta
      by (unfold theta_cut; by rewrite !lookup_insert_ne).
    repeat case_bool_decide; subst;
      repeat first [ rewrite lookup_insert_eq
                   | rewrite lookup_insert_ne by done ];
      rewrite ?Htheta; done.
Qed.

Lemma cuts_after_select_row self r :
  gh_cut self (select_row self r) = gh_cut self r
  /\ theta_cut self (select_row self r) = theta_cut self r.
Proof.
  unfold gh_cut, theta_cut. by rewrite !select_row_lookup.
Qed.

Lemma select_row_idemp self r :
  select_row self (select_row self r) = select_row self r.
Proof.
  apply map_eq. intros c. rewrite (select_row_lookup self (select_row self r)).
  destruct (cuts_after_select_row self r) as [-> ->].
  rewrite !(select_row_lookup self r).
  repeat case_bool_decide; subst; try done.
  by destruct (full_enclosure self).
Qed.

Lemma add_colname_present c names : c ∈ names -> add_colname c names = names.
Proof. intros Hc. unfold add_colname. by rewrite bool_decide_eq_true_2. Qed.

Lemma elem_of_add_colname_same c names : c ∈ add_colname c names.
Proof.
  unfold add_colname. case_bool_decide; [done|]. set_solver.
Qed.

Lemma add_selections_twice self events events' :
  add_selections self events = Ok events' ->
  add_selections self events' = Ok events'.
Proof.
  destruct events as [names info rs]. rewrite add_selections_eq.
  unfold missing_cut_column.
  destruct (has_col "gh_score" _) eqn:Hgh; [|done].
  destruct (has_col "reco_energy" _) eqn:He; [|done]. cbn [negb].
  destruct (full_enclosure self) eqn:Hfull; cbn [negb andb].
  - intros [= <-]. rewrite add_selections_eq. unfold missing_cut_column.
    rewrite Hfull. cbn [negb andb].
    rewrite !has_col_add_ne by done.
    rewrite (has_col_names "gh_score" names _ _ info rs), Hgh.
    rewrite (has_col_names "reco_energy" names _ _ info rs), He.
    cbn [negb]. rewrite <- list_fmap_compose.
    f_equal. f_equal.
    + rewrite (add_colname_present "selected_gh")
        by apply elem_of_add_colname, elem_of_add_colname_same.
      by rewrite add_colname_idemp.
    + apply map_eq. intros c. rewrite !lookup_insert.
      by repeat case_decide.
    + apply list_fmap_ext. intros i r _. apply select_row_idemp.
  - destruct (has_col "theta" _) eqn:Ht; [|done]. cbn [negb].
    intros [= <-]. rewrite add_selections_eq. unfold missing_cut_column.
    rewrite Hfull. cbn [negb andb].
    rewrite !has_col_add_ne by done.
    rewrite (has_col_names "gh_score" names _ _ info rs), Hgh.
    rewrite (has_col_names "reco_energy" names _ _ info rs), He.
    rewrite (has_col_names "theta" names _ _ info rs), Ht.
    cbn [negb]. rewrite <- list_fmap_compose.
    f_equal. f_equal.
    + rewrite (add_colname_present "selected_gh")
        by (do 2 apply elem_of_add_colname; apply elem_of_add_colname_same).
      rewrite (add_colname_present "selected_theta")
        by (apply elem_of_add_colname; apply elem_of_add_colname_same).
      by rewrite add_colname_idemp.
    + apply map_eq. intros c. rewrite !lookup_insert.
      by repeat case_decide.
    + apply list_fmap_ext. intros i r _. apply select_row_idemp.
Qed.

Lemma add_selections_config (a b : IrfTool) events :
  full_enclosure a = full_enclosure b -> opt_result a = opt_result b ->
  add_selections a events = add_selections b events.
Proof. unfold add_selections. by intros -> ->. Qed.

End selection_twice.

(** Running [calculate_selections] again on its own result changes nothing:
    the flags are computed from columns the method does not write, so the
    second run completes and returns the same tool. *)
Theorem calculate_selections_idempotent `{Externals} (self self' : IrfTool) :
  calculate_selections self = Ok self' ->
  calculate_selections self' = Ok self'.
Proof.
  unfold calculate_selections. intros Hrun.
  inv_bind Hrun. inv_bind Hrun. injection Hrun as <-. cbn.
  rewrite (add_selections_config _ self x) by done.
  rewrite (add_selections_twice self _ _ E), bind_Ok_l.
  destruct (do_background self).
  - rewrite (add_selections_config _ self x0) by done.
    by rewrite (add_selections_twice self _ _ E0).
  - done.
Qed.

Lemma calculate_selections_idempotent_witness :
  exists self',
    @calculate_selections example_externals (example_irf_tool false)
    = Ok self'
    /\ @calculate_selections example_externals self' = Ok self'.
Proof.
  destruct (@calculate_selections example_externals (example_irf_tool false))
    as [self'|e] eqn:Hrun.
  - exists self'. split; [reflexivity|].
    exact (calculate_selections_idempotent (H := example_externals)
             (example_irf_tool false) self' Hrun).
  - apply (f_equal is_ok) in Hrun. vm_compute in Hrun. discriminate.
Defined.

(** ** [make_derived_columns]: its errors and what it leaves alone *)

(** [make_derived_columns] raises the KeyError of the first column it reads
    and does not find, in the order [gh_score], [true_az], [true_alt],
    [reco_az], [reco_alt], [pointing_az], [pointing_alt].  With the seven
    columns it completes: the table keeps its rows, its columns and every
    cell outside the six columns it writes, and the new columns are appended
    in the order [weight], [theta], [true_source_fov_offset],
    [reco_source_fov_offset], [reco_fov_lon], [reco_fov_lat]. *)
Theorem make_derived_columns_first_missing_column `{Externals}
    (events : Table) :
  match List.find (fun c => negb (has_col c events)) derived_reads with
  | Some c => make_derived_columns events = Raise (KeyError c)
  | None =>
      exists events',
        make_derived_columns events = Ok events'
        /\ same_outside derived_columns events events'
        /\ colnames events'
           = foldl (fun a c => add_colname c a) (colnames events)
                   derived_columns
  end.
Proof.
  destruct events as [names info rs].
  pose proof (make_derived_columns_runs names info rs) as Hrun.
  destruct (List.find _ derived_reads); [done|].
  destruct Hrun as (info' & ->). eexists. split; [done|]. split; [|done].
  split; [unfold len; simpl; by rewrite length_fmap|]. split.
  - intros c Hc. cbn [colnames foldl derived_columns] in *.
    by repeat apply elem_of_add_colname.
  - intros i r Hr. cbn [rows] in *. rewrite list_lookup_fmap, Hr.
    eexists. split; [done|]. intros c. apply derive_row_outside.
Qed.

(** ** [keep_nescessary_columns_only] *)

Lemma lookup_restrict {A} (names : list string) (m : gmap string A) c :
  filter (fun kv => kv.1 ∈ names) m !! c
  = if bool_decide (c ∈ names) then m !! c else None.
Proof.
  apply option_eq. intros a. rewrite map_lookup_filter_Some. simpl.
  destruct (bool_decide_reflect (c ∈ names)) as [Hin|Hout].
  - split; [by intros [? _] | by intros ?].
  - split; [by intros [_ ?] | done].
Qed.

Lemma restrict_twice {A} (names : list string) (m : gmap string A) :
  filter (fun kv => kv.1 ∈ names) (filter (fun kv => kv.1 ∈ names) m)
  = filter (fun kv => kv.1 ∈ names) m.
Proof.
  apply map_eq. intros c. rewrite !lookup_restrict. by case_bool_decide.
Qed.

Lemma project_runs (cols : list string) names info rs :
  NoDup cols ->
  project cols (MkTable names info rs) =
  match List.find (fun c => negb (has_col c (MkTable names info rs))) cols with
  | Some c => Raise (KeyError c)
  | None => Ok (MkTable cols (filter (fun kv => kv.1 ∈ cols) info)
                        (restrict_row cols <$> rs))
  end.
Proof.
  intros Hnd. unfold project. destruct (List.find _ cols); [done|].
  by rewrite bool_decide_eq_true_2.
Qed.

Lemma persisted_columns_NoDup : NoDup persisted_columns.
Proof. apply (bool_decide_unpack _). by vm_compute. Qed.

(** [keep_nescessary_columns_only] raises the KeyError of the first of the
    seventeen persisted columns the table lacks.  Otherwise the result has
    exactly the persisted columns, in their fixed order, and the rows of the
    input: a cell of a persisted column is kept as it is, every other cell
    is gone; applied to its own result the method returns it unchanged. *)
Theorem keep_nescessary_columns_only_exact (events : Table) :
  match List.find (fun c => negb (has_col c events)) persisted_columns with
  | Some c => keep_nescessary_columns_only events = Raise (KeyError c)
  | None =>
      exists events',
        keep_nescessary_columns_only events = Ok events'
        /\ colnames events' = persisted_columns
        /\ len events' = len events
        /\ (forall i r,
              rows events !! i = Some r ->
              exists r',
                rows events' !! i = Some r'
                /\ forall c,
                     r' !! c = if bool_decide (c ∈ persisted_columns)
                               then r !! c else None)
        /\ keep_nescessary_columns_only events' = Ok events'
  end.
Proof.
  destruct events as [names info rs]. unfold keep_nescessary_columns_only.
  rewrite (project_runs _ _ _ _ persisted_columns_NoDup).
  destruct (List.find _ persisted_columns); [done|].
  eexists. split; [done|]. split; [done|].
  split; [unfold len; simpl; by rewrite length_fmap|]. split.
  - intros i r Hr. cbn [rows] in *. rewrite list_lookup_fmap, Hr.
    eexists. split; [done|]. intros c. apply lookup_restrict.
  - rewrite (project_runs _ _ _ _ persisted_columns_NoDup).
    rewrite find_missing_none by done. f_equal. f_equal.
    + apply restrict_twice.
    + rewrite <- list_fmap_compose. apply list_fmap_ext.
      intros i r _. apply restrict_twice.
Qed.

Lemma keep_nescessary_columns_only_exact_witness :
  exists events' r',
    keep_nescessary_columns_only
      (MkTable (persisted_columns ++ ["tel_id"]) ∅
               [list_to_map [("weight", num 1); ("tel_id", VInt 4)]])
    = Ok events'
    /\ colnames events' = persisted_columns
    /\ rows events' !! 0 = Some r'
    /\ r' !! "weight" = Some (num 1)
    /\ r' !! "tel_id" = None.
Proof.
  pose proof (keep_nescessary_columns_only_exact
                (MkTable (persisted_columns ++ ["tel_id"]) ∅
                   [list_to_map [("weight", num 1); ("tel_id", VInt 4)]]))
    as Hkeep.
  vm_compute (List.find _ _) in Hkeep.
  destruct Hkeep as (events' & Hrun & Hnames & _ & Hrows & _).
  destruct (Hrows 0 _ eq_refl) as (r' & Hr' & Hcells).
  exists events', r'. split; [exact Hrun|]. split; [exact Hnames|].
  split; [exact Hr'|]. rewrite !Hcells. split; reflexivity.
Defined.

(** ** The varying-pointing guard of [normalise_column_names] *)

Lemma Qsum_const (q : Q) (qs : list Q) :
  Forall (fun x => x == q)%Q qs ->
  (Qsum qs == inject_Z (Z.of_nat (length qs)) * q)%Q.
Proof.
  induction 1 as [|x l Hx Hl IH]; simpl length; unfold Qsum; simpl foldr.
  - ring.
  - fold (Qsum l). rewrite IH, Hx, Nat2Z.inj_succ.
    unfold Z.succ. rewrite inject_Z_plus. ring.
Qed.

Lemma Qmean_const (q : Q) (qs : list Q) :
  qs <> [] -> Forall (fun x => x == q)%Q qs -> (Qmean qs == q)%Q.
Proof.
  intros Hne Hall. unfold Qmean. rewrite (Qsum_const q qs Hall).
  field. destruct qs as [|x l]; [done|]. simpl length.
  rewrite Nat2Z.inj_succ. unfold Z.succ. rewrite inject_Z_plus.
  pose proof (Nat2Z.is_nonneg (length l)) as Hpos.
  apply Qnot_eq_sym, Qlt_not_eq.
  rewrite <- inject_Z_plus. change 0%Q with (inject_Z 0).
  rewrite <- Zlt_Qlt. lia.
Qed.

Lemma Qvariance_const (q : Q) (qs : list Q) :
  qs <> [] -> Forall (fun x => x == q)%Q qs -> (Qvariance qs == 0)%Q.
Proof.
  intros Hne Hall. unfold Qvariance.
  apply Qmean_const; [by destruct qs|].
  apply Forall_fmap. eapply Forall_impl; [exact Hall|].
  intros x Hx. simpl. rewrite (Qmean_const q qs Hne Hall), Hx. ring.
Qed.

Lemma std_gt_const (q : Q) (xs : list float) (tol : Q) :
  Forall (fun x => x = Real q) xs -> std_gt xs tol = false.
Proof.
  intros Hall. unfold std_gt.
  destruct (mapM finite_value xs) as [[|q0 qs]|] eqn:Hm; [done| |done].
  assert (Forall (fun x => x == q)%Q (q0 :: qs)) as Hq.
  { apply mapM_Some in Hm. revert Hall.
    induction Hm as [|x y l k Hxy Hlk IH]; [constructor|].
    intros [-> Hl]%Forall_cons. injection Hxy as <-.
    constructor; [reflexivity|]. by apply IH. }
  unfold Qlt_bool. apply negb_false_iff, Qle_bool_iff.
  rewrite (Qvariance_const q (q0 :: qs)) by done.
  unfold Qle, Qmult. simpl. nia.
Qed.

Lemma std_gt_short (xs : list float) (tol : Q) :
  length xs <= 1 -> std_gt xs tol = false.
Proof.
  destruct xs as [|x [|y l]]; simpl; [done| |lia]. intros _.
  destruct x as [q| | |]; [|done..].
  apply (std_gt_const q). by repeat constructor.
Qed.

Lemma bind_Raise {A B} (m : result A) (f : A -> result B) (e : exn) :
  mbind f m = Raise e -> m = Raise e \/ exists a, m = Ok a /\ f a = Raise e.
Proof. destruct m as [a|e']; simpl; [eauto | by intros [= ->]; left]. Qed.

Lemma rename_columns_error names new_names t e :
  rename_columns names new_names t = Raise e -> table_error e.
Proof.
  revert new_names t.
  induction names as [|a names IH]; intros [|b new_names] t; simpl;
    try by intros [= <-].
  intros [Hr|(t' & _ & Hr)]%bind_Raise; [|by eapply IH].
  unfold rename_column in Hr.
  destruct (negb _); [by injection Hr as <-|].
  case_bool_decide; [done|].
  destruct (has_col b t); [by injection Hr as <-|done].
Qed.

Section varying_guard.
Context `{Externals}.

Lemma normalise_varying epp events :
  normalise_column_names epp events = Raise varying_pointing_error ->
  std_gt (as_float <$> (look "subarray_pointing_lat" <$> rows events))
         (1 # 1000) = true.
Proof.
  unfold normalise_column_names.
  intros [Hr|(varying & Hv & Hr)]%bind_Raise.
  - destruct (irf_pre_processing epp); [|done].
    apply bind_Raise in Hr as [Hr|(lat & _ & Hr)]; [|done].
    unfold get_col in Hr. by destruct (has_col _ _).
  - destruct varying.
    + destruct (irf_pre_processing epp); [|done].
      inv_bind Hv. apply get_col_Ok in E as [_ ->]. by injection Hv as ->.
    + apply bind_Raise in Hr as [Hr|(frame & _ & Hr)].
      { unfold get_col in Hr. by destruct (has_col _ _). }
      destruct (existsb _ _); [done|].
      destruct (List.find _ _); [done|].
      by apply rename_columns_error in Hr.
Qed.

Lemma preselect_chunk_varying epp events :
  preselect_chunk epp events = Raise varying_pointing_error ->
  std_gt (as_float <$> (look "subarray_pointing_lat" <$> rows events))
         (1 # 1000) = true.
Proof.
  unfold preselect_chunk.
  intros [Hr|(t1 & _ & Hr)]%bind_Raise; [by apply (normalise_varying epp)|].
  exfalso. apply bind_Raise in Hr as [Hr|(t2 & _ & Hr)].
  { destruct t1 as [names info rs].
    pose proof (make_derived_columns_runs names info rs) as Hrun.
    destruct (List.find _ derived_reads).
    - rewrite Hrun in Hr. done.
    - destruct Hrun as (info' & Hrun). rewrite Hrun in Hr. done. }
  destruct t2 as [names info rs]. unfold calculate_selection in Hr.
  cbn [rows] in Hr.
  rewrite (set_col_fmap "selected"), bind_Ok_l in Hr.
  rewrite (get_col_has "selected"), bind_Ok_l in Hr by apply has_col_added.
  cbn [rows] in Hr.
  rewrite <- list_fmap_compose, select_mask_fmap, bind_Ok_l in Hr.
  unfold keep_nescessary_columns_only in Hr.
  rewrite (project_runs _ _ _ _ persisted_columns_NoDup) in Hr.
  by destruct (List.find _ persisted_columns).
Qed.

Lemma preselect_chunks_varying epp chunks bits :
  preselect_chunks epp chunks bits = Raise varying_pointing_error ->
  Exists (fun ch =>
            std_gt (as_float <$> (look "subarray_pointing_lat"
                                  <$> rows ch.2)) (1 # 1000) = true) chunks.
Proof.
  revert bits. induction chunks as [|[[start stop] events] chunks IH];
    intros bits; simpl; [done|].
  intros [Hr|(sel & _ & Hr)]%bind_Raise.
  - left. by apply (preselect_chunk_varying epp).
  - right. by eapply IH.
Qed.

Lemma load_chunks_varying epp chunks :
  load_chunks epp chunks = Raise varying_pointing_error ->
  Exists (fun ch =>
            std_gt (as_float <$> (look "subarray_pointing_lat"
                                  <$> rows ch.2)) (1 # 1000) = true) chunks.
Proof.
  unfold load_chunks, stacked_bits.
  intros [Hr|(bits & _ & Hr)]%bind_Raise.
  - apply bind_Raise in Hr as [Hr|(bits & _ & Hr)]; [|done].
    by eapply preselect_chunks_varying.
  - exfalso. unfold vstack_exact in Hr.
    destruct bits as [|t0 [|t1 bits]]; [done..|].
    by destruct (forallb _ _).
Qed.

End varying_guard.

(** The varying-pointing guard looks at one chunk at a time, and the
    standard deviation of at most one latitude is zero or NaN.  So
    [normalise_column_names] never raises the varying-pointing error on a
    chunk that holds at most one event, and a load over chunks of this kind,
    from whatever source, never raises it either, whatever the pointings of
    different chunks. *)
Theorem steady_chunks_pass_pointing_guard `{Externals}
    (epp : EventPreprocessor) (chunks : list (nat * nat * Table)) :
  Forall (fun ch => len ch.2 <= 1) chunks ->
  Forall (fun ch =>
            normalise_column_names epp ch.2 <> Raise varying_pointing_error)
         chunks
  /\ load_chunks epp chunks <> Raise varying_pointing_error.
Proof.
  intros Hsteady.
  assert (Forall (fun ch =>
            std_gt (as_float <$> (look "subarray_pointing_lat"
                                  <$> rows ch.2)) (1 # 1000) = false) chunks)
    as Hstd.
  { eapply Forall_impl; [exact Hsteady|]. intros ch Hlen.
    apply std_gt_short. by rewrite !length_fmap. }
  split.
  - eapply Forall_impl; [exact Hstd|]. intros ch Hch Hr.
    apply normalise_varying in Hr. simpl in Hch. congruence.
  - intros Hr%load_chunks_varying.
    apply Exists_exists in Hr as (ch & Hin & Hch).
    rewrite Forall_forall in Hstd. specialize (Hstd ch Hin). congruence.
Qed.

Lemma steady_chunks_pass_pointing_guard_witness :
  @load_chunks example_externals (default_epp positive_score)
    [(0, 1, dl2_table [dl2_row 1 70 1 0]);
     (1, 2, dl2_table [dl2_row 2 71 1 0])]
  <> Raise varying_pointing_error.
Proof.
  apply (steady_chunks_pass_pointing_guard (H := example_externals)
           (default_epp positive_score)
           [(0, 1, dl2_table [dl2_row 1 70 1 0]);
            (1, 2, dl2_table [dl2_row 2 71 1 0])]).
  repeat constructor.
Defined.

(** Read one event at a time, no input file raises the varying-pointing
    error: the guard of [normalise_column_names] never sees two events
    together. *)
Theorem unit_chunks_never_report_varying_pointing `{Externals}
    (self : EventLoader) :
  load_preselected_events self 1 <> Raise varying_pointing_error.
Proof.
  unfold load_preselected_events. intros Hr%load_chunks_varying.
  apply Exists_exists in Hr as (ch & Hin & Hch).
  unfold read_chunked in Hin. apply list_elem_of_fmap in Hin as (i & -> & _).
  rewrite std_gt_short in Hch; [done|].
  rewrite !length_fmap. simpl. rewrite length_take. lia.
Qed.

(** ** [normalise_column_names]: what the renaming does to the table *)

Lemma normalise_row_cons a b pairs (r : row) :
  normalise_row ((a, b) :: pairs) r
  = normalise_row pairs (if bool_decide (a = b) then r else rename_row a b r).
Proof. done. Qed.

Lemma rename_row_other a b c (r : row) :
  c <> a -> c <> b -> rename_row a b r !! c = r !! c.
Proof.
  intros Ha Hb. unfold rename_row.
  rewrite lookup_partial_alter_ne by done. by rewrite lookup_delete_ne.
Qed.

Lemma rename_columns_cells (pairs : list (string * string)) (t t' : Table) :
  NoDup pairs.*1 ->
  (forall p, p ∈ pairs -> p.1 ∈ colnames t) ->
  rename_columns pairs.*1 pairs.*2 t = Ok t' ->
  length (colnames t') = length (colnames t)
  /\ (forall c, c ∈ colnames t -> c ∉ pairs.*1 ->
                c ∈ colnames t'
                /\ forall r : row, normalise_row pairs r !! c = r !! c)
  /\ (forall p, p ∈ pairs ->
                forall r : row, normalise_row pairs r !! p.2 = r !! p.1).
Proof.
  revert t. induction pairs as [|[a b] pairs IH]; intros t Hnd Hsrc Hrun;
    csimpl in Hnd; csimpl in Hrun.
  { injection Hrun as <-. split; [done|]. split; [done|].
    by intros p Hp%elem_of_nil. }
  apply NoDup_cons in Hnd as [Ha Hnd].
  inv_bind Hrun. rename x into t1. unfold rename_column in E.
  assert (a ∈ colnames t) as Hat by (apply (Hsrc (a, b)); left).
  destruct (negb (has_col a t)); [done|].
  destruct (bool_decide_reflect (a = b)) as [Hab|Hab].
  - injection E as <-. subst b.
    destruct (IH t Hnd) as (Hlen & Hkeep & Hmove); [|done|].
    { intros p Hp. apply Hsrc. by right. }
    split; [done|]. split.
    + intros c Hc Hnot. apply not_elem_of_cons in Hnot as [_ Hnot].
      destruct (Hkeep c Hc Hnot) as [Hin Hcell]. split; [done|].
      intros r. rewrite normalise_row_cons, bool_decide_eq_true_2 by done.
      apply Hcell.
    + intros p Hp r.
      rewrite normalise_row_cons, bool_decide_eq_true_2 by done.
      apply elem_of_cons in Hp as [->|Hp]; [|by apply Hmove].
      by apply Hkeep.
  - destruct (has_col b t) eqn:Hb; [done|]. injection E as <-.
    apply bool_decide_eq_false in Hb.
    assert (forall c, c ∈ colnames t -> c <> a ->
                      c ∈ (fun c => if bool_decide (c = a) then b else c)
                          <$> colnames t) as Hstay.
    { intros c Hc Hca. apply list_elem_of_fmap. exists c.
      by rewrite bool_decide_eq_false_2. }
    assert (forall p, p ∈ pairs -> p.1 <> a /\ p.1 <> b) as Hfresh.
    { intros p Hp. split.
      - intros Heq. apply Ha. apply list_elem_of_fmap. by exists p.
      - intros Heq. apply Hb. rewrite <- Heq. apply Hsrc. by right. }
    match type of Hrun with rename_columns _ _ ?t1 = _ =>
      destruct (IH t1 Hnd) as (Hlen & Hkeep & Hmove); [|done|] end.
    { intros p Hp. cbn [colnames]. apply Hstay; [apply Hsrc; by right|].
      by apply Hfresh. }
    cbn [colnames] in *. rewrite length_fmap in Hlen.
    split; [done|]. split.
    + intros c Hc Hnot. apply not_elem_of_cons in Hnot as [Hca Hnot].
      assert (c <> b) as Hcb by (by intros ->).
      destruct (Hkeep c) as [Hin Hcell]; [by apply Hstay|done|].
      split; [done|]. intros r.
      rewrite normalise_row_cons, bool_decide_eq_false_2 by done.
      rewrite Hcell. by apply rename_row_other.
    + intros p Hp r.
      rewrite normalise_row_cons, bool_decide_eq_false_2 by done.
      apply elem_of_cons in Hp as [->|Hp]; simpl.
      * destruct (Hkeep b) as [_ Hcell].
        { apply list_elem_of_fmap. exists a.
          by rewrite bool_decide_eq_true_2. }
        { intros (p & Hpb & Hp)%list_elem_of_fmap.
          destruct (Hfresh p Hp) as [_ Hne]. by apply Hne. }
        rewrite Hcell. unfold rename_row.
        by rewrite lookup_partial_alter_eq.
      * rewrite (Hmove p Hp). destruct (Hfresh p Hp) as [Hpa Hpb].
        by apply rename_row_other.
Qed.

(** A normalisation that completes drops nothing: the table has as many
    columns and rows as before, a column that is not renamed is still there
    with its cells, and the cell under each canonical name is the cell the
    row had under the old name.  The list [keep_columns] of the method is
    only checked, not applied. *)
Theorem normalise_moves_cells `{Externals}
    (epp : EventPreprocessor) (events events' : Table) :
  normalise_column_names epp events = Ok events' ->
  length (colnames events') = length (colnames events)
  /\ len events' = len events
  /\ (forall c, c ∈ colnames events -> c ∉ (renames epp events).*1 ->
                c ∈ colnames events')
  /\ forall i r,
       rows events !! i = Some r ->
       exists r',
         rows events' !! i = Some r'
         /\ (forall p, p ∈ renames epp events -> r' !! p.2 = r !! p.1)
         /\ (forall c, c ∈ colnames events -> c ∉ (renames epp events).*1 ->
                       r' !! c = r !! c).
Proof.
  intros Hrun.
  pose proof (normalise_column_names_rows _ _ _ Hrun) as Hrows.
  unfold normalise_column_names in Hrun.
  inv_bind Hrun. destruct x; [done|].
  inv_bind Hrun. destruct (existsb _ _); [done|].
  destruct (List.find _ _) eqn:Hfind; [done|].
  destruct (renames_NoDup epp events) as [Hnd _].
  destruct (rename_columns_cells (renames epp events) events events' Hnd)
    as (Hlen & Hkeep & Hmove); [|exact Hrun|].
  { intros p Hp.
    assert (p.1 ∈ required_columns epp events) as Hreq.
    { unfold required_columns. apply elem_of_app. right.
      apply list_elem_of_fmap. by exists p. }
    apply list_elem_of_In in Hreq.
    pose proof (List.find_none _ _ Hfind _ Hreq) as Hn. simpl in Hn.
    by apply negb_false_iff, bool_decide_eq_true in Hn. }
  split; [done|]. split; [unfold len; by rewrite Hrows, length_fmap|].
  split; [intros c Hc Hnot; by apply Hkeep|].
  intros i r Hr. rewrite Hrows, list_lookup_fmap, Hr. eexists.
  split; [done|]. split.
  - intros p Hp. by apply Hmove.
  - intros c Hc Hnot. by apply Hkeep.
Qed.

Lemma normalise_moves_cells_witness :
  exists events' r',
    @normalise_column_names example_externals (default_epp []) steady_file
    = Ok events'
    /\ rows events' !! 0 = Some r'
    /\ r' !! "gh_score" = Some (num 1).
Proof.
  destruct (@normalise_column_names example_externals (default_epp [])
              steady_file) as [events'|e] eqn:Hrun.
  - destruct (normalise_moves_cells (H := example_externals)
                (default_epp []) steady_file events' Hrun)
      as (_ & _ & _ & Hrows).
    destruct (Hrows 0 (dl2_row 1 70 1 0) eq_refl) as (r' & Hr' & Hmove & _).
    exists events', r'. split; [reflexivity|]. split; [exact Hr'|].
    assert (("RandomForestClassifier_prediction", "gh_score")
            ∈ @renames (default_epp []) steady_file) as Hin
      by (apply (bool_decide_unpack _); by vm_compute).
    apply Hmove in Hin. simpl in Hin. rewrite Hin. reflexivity.
  - apply (f_equal is_ok) in Hrun. vm_compute in Hrun. discriminate.
Defined.

(** ** [load_preselected_events]: the errors of the loop and the final join *)

Lemma same_columns_names t1 t2 :
  colnames t1 = colnames t2 -> same_columns t1 t2 = true.
Proof.
  intros Heq. unfold same_columns, has_col. rewrite Heq.
  assert (forallb (fun c => bool_decide (c ∈ colnames t2)) (colnames t2)
          = true) as ->; [|done].
  apply forallb_forall. intros c Hc%list_elem_of_In.
  by apply bool_decide_eq_true.
Qed.

Lemma merge_info_idemp m : merge_info m m = m.
Proof.
  apply map_eq. intros c. rewrite merge_info_lookup.
  destruct (m !! c) as [[u d]|]; [|done].
  unfold merge_attrs. simpl. by destruct u, d.
Qed.

Section loader_errors.
Context `{Externals}.

Lemma preselect_chunk_colnames epp events sel :
  preselect_chunk epp events = Ok sel -> colnames sel = persisted_columns.
Proof.
  unfold preselect_chunk. intros Hp. do 5 inv_bind Hp.
  unfold keep_nescessary_columns_only in Hp.
  by apply project_Ok in Hp as (? & _).
Qed.

Lemma preselect_chunks_all_ok epp chunks bits :
  Forall (fun ch => is_ok (preselect_chunk epp ch.2) = true) chunks ->
  exists sels,
    preselect_chunks epp chunks bits = Ok (bits ++ sels)
    /\ Forall (fun t => colnames t = persisted_columns) sels.
Proof.
  intros Hall. revert bits.
  induction Hall as [|[[start stop] events] chunks Hch Hall IH]; intros bits.
  - exists []. by rewrite app_nil_r.
  - simpl in *. destruct (preselect_chunk epp events) as [sel|e] eqn:Hsel;
      [|done].
    rewrite bind_Ok_l. destruct (IH (bits ++ [sel])) as (sels & -> & Hsels).
    exists (sel :: sels). rewrite <- app_assoc. split; [done|].
    constructor; [|done]. by eapply preselect_chunk_colnames.
Qed.

Lemma preselect_chunks_first_error epp before ch rest bits e :
  Forall (fun ch => is_ok (preselect_chunk epp ch.2) = true) before ->
  preselect_chunk epp ch.2 = Raise e ->
  preselect_chunks epp (before ++ ch :: rest) bits = Raise e.
Proof.
  intros Hall Hch. revert bits.
  induction Hall as [|[[start stop] events] chunks Hok Hall IH]; intros bits.
  - destruct ch as [[start stop] events]. simpl in *. by rewrite Hch.
  - simpl in *. destruct (preselect_chunk epp events) as [sel|e'] eqn:Hsel;
      [|done].
    rewrite bind_Ok_l. apply IH.
Qed.

Lemma vstack_exact_same_columns t0 ts :
  Forall (fun t => colnames t = colnames t0) ts ->
  is_ok (vstack_exact (t0 :: ts)) = true.
Proof.
  intros Hall. unfold vstack_exact. destruct ts as [|t1 ts]; [done|].
  assert (forallb (same_columns t0) (t1 :: ts) = true) as ->; [|done].
  apply forallb_forall. intros t Ht%list_elem_of_In.
  rewrite Forall_forall in Hall. apply same_columns_names.
  symmetry. by apply Hall.
Qed.

End loader_errors.

(** The only errors of [load_preselected_events] are those of its loop: the
    run raises the error of the first chunk whose normalisation, derivation,
    selection or projection raises, without a look at the chunks after it,
    and when every chunk goes through, the exact join of the pieces with the
    header succeeds, every piece having the header's columns. *)
Theorem load_chunks_raises_first_chunk_error `{Externals}
    (epp : EventPreprocessor) :
  (forall before ch rest e,
     Forall (fun ch => is_ok (preselect_chunk epp ch.2) = true) before ->
     preselect_chunk epp ch.2 = Raise e ->
     load_chunks epp (before ++ ch :: rest) = Raise e)
  /\ (forall chunks,
        Forall (fun ch => is_ok (preselect_chunk epp ch.2) = true) chunks ->
        is_ok (load_chunks epp chunks) = true).
Proof.
  split.
  - intros before ch rest e Hall Hch. unfold load_chunks, stacked_bits.
    by rewrite (preselect_chunks_first_error _ _ _ _ _ _ Hall Hch).
  - intros chunks Hall. unfold load_chunks, stacked_bits.
    destruct (preselect_chunks_all_ok epp chunks [make_empty_table] Hall)
      as (sels & -> & Hsels).
    rewrite !bind_Ok_l. cbn [app].
    apply vstack_exact_same_columns, Forall_app. split; [done|].
    by repeat constructor.
Qed.

Lemma load_chunks_raises_first_chunk_error_witness :
  @load_chunks example_externals (default_epp positive_score)
    (read_chunked 2 steady_file ++ (0, 1, icrs_file) :: read_chunked 2 steady_file)
  = Raise pointing_frame_error
  /\ is_ok (@load_chunks example_externals (default_epp positive_score)
              (read_chunked 2 steady_file)) = true.
Proof.
  destruct (load_chunks_raises_first_chunk_error (H := example_externals)
              (default_epp positive_score)) as [Hfirst Hall].
  split.
  - apply Hfirst; [|by vm_compute].
    apply (bool_decide_unpack _). by vm_compute.
  - apply Hall. apply (bool_decide_unpack _). by vm_compute.
Defined.

(** A file without events is not checked at all: for every positive chunk
    size no chunk is read, so no column is asked for, and the header alone
    is returned, with the persisted columns and no row. *)
Theorem empty_file_loads_header `{Externals}
    (self : EventLoader) (chunk_size : nat) :
  0 < chunk_size ->
  rows (file self) = [] ->
  exists t,
    load_preselected_events self chunk_size = Ok t
    /\ rows t = []
    /\ colnames t = persisted_columns
    /\ colinfo t = colinfo make_empty_table.
Proof.
  intros _ Hempty. unfold load_preselected_events.
  destruct (file self) as [names info rs]. simpl in Hempty. subst rs.
  rewrite read_chunked_empty. unfold load_chunks, stacked_bits.
  cbn [preselect_chunks]. rewrite !bind_Ok_l. cbn [app].
  unfold vstack_exact. cbn [forallb].
  rewrite (same_columns_names make_empty_table make_empty_table eq_refl).
  cbn [andb]. eexists. split; [reflexivity|]. cbn [rows colnames colinfo].
  split; [reflexivity|]. split; [by vm_compute|].
  cbn [fmap list_fmap foldl]. apply merge_info_idemp.
Qed.

Lemma empty_file_loads_header_witness :
  exists t,
    @load_preselected_events example_externals
      (example_loader (MkTable [] ∅ [])) 3 = Ok t
    /\ rows t = [] /\ colnames t = persisted_columns.
Proof.
  destruct (empty_file_loads_header (H := example_externals)
              (example_loader (MkTable [] ∅ [])) 3 ltac:(lia) eq_refl)
    as (t & Hrun & Hrows & Hnames & _).
  exists t. split; [exact Hrun|]. split; [exact Hrows|exact Hnames].
Defined.

(** ** [_read_table]: a missing feature, and the size of the sample *)

Lemma Sorted_le_seq (j n : nat) : Sorted le (seq j n).
Proof.
  revert j. induction n as [|n IH]; intros j; simpl; constructor; [done|].
  destruct n; simpl; constructor. lia.
Qed.

Lemma sorted_draw_all (idx : list nat) (n : nat) :
  NoDup idx -> length idx = n -> Forall (fun i => i < n) idx ->
  merge_sort le idx = seq 0 n.
Proof.
  intros Hnd Hlen Hrange.
  assert (idx ≡ₚ seq 0 n) as Hperm.
  { apply submseteq_length_Permutation; [|by rewrite length_seq, Hlen].
    apply NoDup_submseteq; [done|]. intros i Hi. apply elem_of_seq.
    rewrite Forall_forall in Hrange. specialize (Hrange i Hi). lia. }
  apply (Sorted_unique le).
  - apply Sorted_merge_sort. apply _.
  - apply Sorted_le_seq.
  - by rewrite merge_sort_Permutation.
Qed.

Lemma lookup_all {A} (l : list A) :
  mapM (fun i => l !! i) (seq 0 (length l)) = Some l.
Proof.
  apply mapM_Some_2.
  induction l as [|x l IH] using rev_ind; [constructor|].
  rewrite length_app. simpl length. rewrite Nat.add_1_r, seq_S.
  apply Forall2_app.
  - eapply Forall2_impl; [exact IH|]. intros i y Hi. simpl in Hi.
    by apply lookup_app_l_Some.
  - repeat constructor. simpl. by rewrite list_lookup_middle.
Qed.

Section sample_size.
Context `{Externals}.

Lemma read_table_chunks_sample self tel chunks s sels :
  train_chunks self chunks = Ok sels ->
  concat (rows <$> sels) <> [] ->
  exists info lg,
    read_table_chunks self tel chunks s
    = sample_events self tel
        (MkTable (feature_names self) info
           (List.filter (row_valid (feature_names self))
                        (concat (rows <$> sels))))
        (add_log s lg).
Proof.
  intros Hsels Hne. unfold read_table_chunks. rewrite run_bind.
  destruct (reduce_table_run self tel chunks s) as (dbg & _ & ->).
  rewrite Hsels.
  destruct (vstack_nonempty sels) as [st Hst]; [by intros ->|].
  rewrite Hst.
  apply train_chunks_Ok in Hsels as (Hcols & _ & _).
  pose proof (vstack_colnames _ _ _ Hcols Hst) as Hnames.
  pose proof (vstack_rows _ _ Hst) as Hrows.
  unfold validated, len. rewrite Hrows, Hnames.
  rewrite bool_decide_eq_false_2 by (by destruct (concat (rows <$> sels))).
  by eexists _, _.
Qed.

End sample_size.

(** [_read_table] raises the KeyError of the first of [features + [target]]
    that is neither a column of the first chunk nor a generated feature.  It
    does so at the first chunk, before any counting: also when the chunk
    holds no event or no event passes the quality query, where a complete
    run would have raised [TooFewEvents]. *)
Theorem missing_feature_is_key_error `{Externals}
    (self : TrainEnergyRegressor) (telescope_type : string)
    (start stop : nat) (table_chunk : Table)
    (rest : list (nat * nat * Table)) (s : ToolState) (c : string) :
  List.find (fun c => negb (has_col c (featured self table_chunk)))
            (feature_names self) = Some c ->
  (read_table_chunks self telescope_type
     ((start, stop, table_chunk) :: rest) s).1 = Raise (KeyError c).
Proof.
  intros Hfind. unfold read_table_chunks. rewrite run_bind.
  destruct (reduce_table_run self telescope_type
              ((start, stop, table_chunk) :: rest) s) as (dbg & _ & ->).
  cbn [train_chunks snd]. rewrite train_chunk_eq. unfold project.
  by rewrite Hfind.
Qed.

Lemma missing_feature_is_key_error_witness :
  (@read_table_chunks example_externals
     (example_tool None (MkTable ["hillas_intensity"] ∅ [])) "LST"
     [(0, 0, MkTable ["hillas_intensity"] ∅ [])] start_state).1
  = Raise (KeyError "true_energy").
Proof.
  apply (missing_feature_is_key_error (H := example_externals)).
  reflexivity.
Defined.

(** When more events are asked for than there are valid ones, and also when
    no event at all is valid, [_read_table] returns every valid event, in
    order, warns, and leaves the generator as it was: no event is drawn and
    nothing is raised, not even [TooFewEvents] for an empty result. *)
Theorem oversized_request_returns_valid_events `{Externals}
    (self : TrainEnergyRegressor) (telescope_type : string)
    (chunks : list (nat * nat * Table)) (s : ToolState)
    (sels : list Table) (n : nat) :
  train_chunks self chunks = Ok sels ->
  concat (rows <$> sels) <> [] ->
  n_events self telescope_type = Some n ->
  let valid := List.filter (row_valid (feature_names self))
                           (concat (rows <$> sels)) in
  length valid < n ->
  exists t s',
    read_table_chunks self telescope_type chunks s = (Ok t, s')
    /\ rows t = valid
    /\ colnames t = feature_names self
    /\ rng s' = rng s
    /\ last (log s')
       = Some (Log WARNING
                 "Number of events in table (%d) is less than requested number of events %d"
                 [length valid; n]).
Proof.
  intros Hsels Hne Hn valid Hlt.
  destruct (read_table_chunks_sample self telescope_type chunks s sels
              Hsels Hne) as (info & lg & ->).
  unfold sample_events. rewrite Hn. unfold len. cbn [rows].
  fold valid. rewrite bool_decide_eq_true_2 by done. rewrite run_emit.
  eexists _, _. split; [reflexivity|]. cbn [rows colnames rng log add_log].
  split; [done|]. split; [done|]. split; [done|]. by rewrite last_snoc.
Qed.

Lemma oversized_request_returns_valid_events_witness :
  exists t s',
    @read_table_chunks example_externals
      (example_tool (Some 5) training_events) "LST"
      (read_chunked 2 training_events) start_state = (Ok t, s')
    /\ length (rows t) = 4
    /\ rng s' = rng start_state.
Proof.
  destruct (train_chunks (example_tool (Some 5) training_events)
              (read_chunked 2 training_events)) as [sels|e] eqn:Hsels.
  - pose proof (f_equal (fun r => match r with
                                  | Ok l => concat (rows <$> l)
                                  | Raise _ => []
                                  end) Hsels) as Hret.
    cbv beta iota in Hret.
    destruct (oversized_request_returns_valid_events (H := example_externals)
                (example_tool (Some 5) training_events) "LST"
                (read_chunked 2 training_events) start_state sels 5 Hsels)
      as (t & s' & Hrun & Hrows & _ & Hrng & _).
    + rewrite <- Hret. intros Hnil. apply (f_equal length) in Hnil.
      vm_compute in Hnil. discriminate Hnil.
    + reflexivity.
    + rewrite <- Hret. vm_compute. lia.
    + exists t, s'. split; [exact Hrun|]. split; [|exact Hrng].
      rewrite Hrows, <- Hret. by vm_compute.
  - apply (f_equal is_ok) in Hsels. vm_compute in Hsels. discriminate.
Defined.

(** Asking for exactly as many events as are valid still draws: the
    generator is advanced, and, the draw being a choice of that many
    distinct indices, the table returned is the whole table of valid events
    in its order. *)
Theorem exact_request_returns_valid_events `{Externals}
    (self : TrainEnergyRegressor) (telescope_type : string)
    (chunks : list (nat * nat * Table)) (s : ToolState)
    (sels : list Table) (idx : list nat) (g : Generator) :
  train_chunks self chunks = Ok sels ->
  concat (rows <$> sels) <> [] ->
  let valid := List.filter (row_valid (feature_names self))
                           (concat (rows <$> sels)) in
  n_events self telescope_type = Some (length valid) ->
  choice (rng s) (length valid) (length valid) = (idx, g) ->
  NoDup idx -> length idx = length valid ->
  Forall (fun i => i < length valid) idx ->
  exists t s',
    read_table_chunks self telescope_type chunks s = (Ok t, s')
    /\ rows t = valid
    /\ rng s' = g
    /\ last (log s')
       = Some (Log INFO "Sampling %d events" [length valid]).
Proof.
  intros Hsels Hne valid Hn Hchoice Hnd Hlen Hrange.
  destruct (read_table_chunks_sample self telescope_type chunks s sels
              Hsels Hne) as (info & lg & ->).
  unfold sample_events. rewrite Hn. unfold len. cbn [rows].
  fold valid. rewrite bool_decide_eq_false_2 by lia.
  rewrite run_emit, run_bind. unfold rng_choice. cbn [rng add_log log].
  rewrite Hchoice. unfold lift, take_rows. cbn [rows].
  rewrite (sorted_draw_all idx (length valid)) by done.
  rewrite lookup_all. eexists _, _. split; [reflexivity|].
  cbn [rows rng log]. split; [done|]. split; [done|]. by rewrite last_snoc.
Qed.

Lemma exact_request_returns_valid_events_witness :
  exists t s',
    @read_table_chunks example_externals
      (example_tool (Some 4) training_events) "LST"
      (read_chunked 2 training_events) start_state = (Ok t, s')
    /\ length (rows t) = 4
    /\ rng s' <> rng start_state.
Proof.
  destruct (train_chunks (example_tool (Some 4) training_events)
              (read_chunked 2 training_events)) as [sels|e] eqn:Hsels.
  - pose proof (f_equal (fun r => match r with
                                  | Ok l => concat (rows <$> l)
                                  | Raise _ => []
                                  end) Hsels) as Hret.
    cbv beta iota in Hret.
    destruct (exact_request_returns_valid_events (H := example_externals)
                (example_tool (Some 4) training_events) "LST"
                (read_chunked 2 training_events) start_state sels
                [3; 2; 1; 0] 1%nat Hsels)
      as (t & s' & Hrun & Hrows & Hrng & _).
    + rewrite <- Hret. intros Hnil. apply (f_equal length) in Hnil.
      vm_compute in Hnil. discriminate Hnil.
    + rewrite <- Hret. by vm_compute.
    + rewrite <- Hret. by vm_compute.
    + apply (bool_decide_unpack _). by vm_compute.
    + rewrite <- Hret. by vm_compute.
    + rewrite <- Hret. apply (bool_decide_unpack _). by vm_compute.
    + exists t, s'. split; [exact Hrun|]. split.
      * rewrite Hrows, <- Hret. by vm_compute.
      * rewrite Hrng. by vm_compute.
  - apply (f_equal is_ok) in Hsels. vm_compute in Hsels. discriminate.
Defined.

(** ** [IrfTool._stack_background] *)

Lemma elem_of_foldl_add_colname (names l : list string) (c : string) :
  c ∈ foldl (fun a c => add_colname c a) names l <-> c ∈ names \/ c ∈ l.
Proof.
  revert names. induction l as [|x l IH]; intros names; simpl.
  - rewrite elem_of_nil. tauto.
  - rewrite IH, elem_of_cons. unfold add_colname.
    destruct (bool_decide_reflect (x ∈ names)) as [Hx|Hx].
    + split; [tauto|]. intros [?|[->|?]]; tauto.
    + rewrite elem_of_app, list_elem_of_singleton. tauto.
Qed.

(** With a proton and an electron file the background is the reduced proton
    table followed by the reduced electron table: the rows of the one, then
    the rows of the other, under the columns of both.  With one file it is
    that file's table as it is, whatever else [reduced_events] holds; a
    table that [reduced_events] lacks is a KeyError, and with no file at all
    the method raises IndexError. *)
Theorem stack_background_appends_electrons
    (proton_file electron_file : string)
    (reduced_events : gmap string Table) :
  (forall protons electrons,
     reduced_events !! "protons" = Some protons ->
     reduced_events !! "electrons" = Some electrons ->
     exists background,
       _stack_background (Some proton_file) (Some electron_file)
                         reduced_events = Ok background
       /\ rows background = rows protons ++ rows electrons
       /\ len background = len protons + len electrons
       /\ forall c, c ∈ colnames background
                    <-> c ∈ colnames protons \/ c ∈ colnames electrons)
  /\ (reduced_events !! "protons" = None ->
      _stack_background (Some proton_file) (Some electron_file)
                        reduced_events = Raise (KeyError "protons"))
  /\ _stack_background (Some proton_file) None reduced_events
     = dict_get "protons" reduced_events
  /\ _stack_background None (Some electron_file) reduced_events
     = dict_get "electrons" reduced_events
  /\ _stack_background None None reduced_events
     = Raise (IndexError "list index out of range").
Proof.
  split; [|split; [|done]].
  - intros protons electrons Hp He. unfold _stack_background, dict_get.
    simpl. rewrite Hp, He. simpl. eexists. split; [reflexivity|].
    cbn [rows colnames]. split; [by rewrite app_nil_r|].
    split; [unfold len; simpl; by rewrite app_nil_r, length_app|].
    intros c. apply elem_of_foldl_add_colname.
  - intros Hp. unfold _stack_background, dict_get. simpl. by rewrite Hp.
Qed.

Lemma stack_background_appends_electrons_witness :
  exists background,
    _stack_background (Some "protons.h5") (Some "electrons.h5")
      (<["protons" := cut_events [cut_row 1 2 3]]>
         (<["electrons" := cut_events [cut_row 4 5 6; cut_row 7 8 9]]> ∅))
    = Ok background
    /\ len background = 3.
Proof.
  destruct (stack_background_appends_electrons "protons.h5" "electrons.h5"
              (<["protons" := cut_events [cut_row 1 2 3]]>
                 (<["electrons" := cut_events [cut_row 4 5 6; cut_row 7 8 9]]>
                    ∅)))
    as [Hboth _].
  destruct (Hboth (cut_events [cut_row 1 2 3])
                  (cut_events [cut_row 4 5 6; cut_row 7 8 9])
                  eq_refl eq_refl)
    as (background & Hrun & _ & Hlen & _).
  exists background. split; [exact Hrun|]. exact Hlen.
Defined.

(** ** [EventLoader.get_simulation_information] *)

Lemma same_float_refl x : same_float x x = true.
Proof. destruct x; simpl; try done. apply Qeq_bool_iff. reflexivity. Qed.

Lemma same_float_sym x y : same_float x y = true -> same_float y x = true.
Proof.
  destruct x, y; simpl; try done.
  rewrite !Qeq_bool_iff. by intros ->.
Qed.

Lemma same_float_trans x y z :
  same_float x y = true -> same_float y z = true -> same_float x z = true.
Proof.
  destruct x, y, z; simpl; try done.
  rewrite !Qeq_bool_iff. by intros -> ->.
Qed.

Lemma np_unique_sub xs z : z ∈ np_unique xs -> z ∈ xs.
Proof.
  induction xs as [|x xs IH]; simpl; [done|].
  intros [->|Hz]%elem_of_cons; [left|right].
  apply IH. apply list_elem_of_In in Hz.
  apply List.filter_In in Hz as [Hz _]. by apply list_elem_of_In.
Qed.

Lemma np_unique_repr xs y :
  y ∈ xs -> exists z, z ∈ np_unique xs /\ same_float z y = true.
Proof.
  induction xs as [|x xs IH]; simpl; [by intros ?%elem_of_nil|].
  intros [->|Hy]%elem_of_cons.
  - exists x. split; [left|apply same_float_refl].
  - destruct (IH Hy) as (z & Hz & Hzy).
    destruct (same_float x z) eqn:Hxz.
    + exists x. split; [left|]. by eapply same_float_trans.
    + exists z. split; [|done]. right. apply list_elem_of_In.
      apply List.filter_In. split; [by apply list_elem_of_In|].
      by rewrite Hxz.
Qed.

Lemma unique_test (col : SimulationRun -> float) (sim : list SimulationRun) :
  Nat.ltb 1 (length (np_unique (col <$> sim))) = false <-> constant col sim.
Proof.
  destruct sim as [|x rest].
  { split; [|done]. by intros _ a b Ha%elem_of_nil. }
  csimpl. rewrite Nat.ltb_ge. split.
  - intros Hlen.
    assert (forall a, a ∈ x :: rest -> same_float (col x) (col a) = true)
      as Hfirst.
    { intros a [->|Ha]%elem_of_cons; [apply same_float_refl|].
      destruct (np_unique_repr (col <$> rest) (col a)) as (z & Hz & Hza).
      { apply list_elem_of_fmap. by exists a. }
      destruct (same_float (col x) z) eqn:Hxz;
        [by eapply same_float_trans|].
      assert (z ∈ List.filter (fun y => negb (same_float (col x) y))
                              (np_unique (col <$> rest))) as Hin.
      { apply list_elem_of_In, List.filter_In.
        split; [by apply list_elem_of_In|]. by rewrite Hxz. }
      destruct (List.filter _ _); [by apply elem_of_nil in Hin|].
      simpl in Hlen. lia. }
    intros a b Ha Hb. eapply same_float_trans; [|by apply Hfirst].
    by apply same_float_sym, Hfirst.
  - intros Hconst.
    assert (List.filter (fun y => negb (same_float (col x) y))
                        (np_unique (col <$> rest)) = []) as ->; [|simpl; lia].
    destruct (List.filter _ _) as [|z l] eqn:Hf; [done|].
    assert (In z (List.filter (fun y => negb (same_float (col x) y))
                              (np_unique (col <$> rest)))) as Hin
      by (rewrite Hf; by left).
    apply List.filter_In in Hin as [Hz Hxz].
    apply list_elem_of_In, np_unique_sub, list_elem_of_fmap in Hz
      as (a & -> & Ha).
    rewrite (Hconst x a) in Hxz; [done|left|by right].
Qed.

(** [get_simulation_information] accepts the simulation runs only when the
    spectral index and the two ends of the energy range are the same in
    every run, and it names the first of the three, in this order, that is
    not; it raises before pyirf is called.  A configuration without any run
    is an IndexError. *)
Theorem simulation_runs_must_agree `{Externals}
    (SimulatedEventsInfo : Type)
    (simulated_events_info :
       Z -> float -> float -> float -> float -> float -> float ->
       result SimulatedEventsInfo)
    (from_simulation : SimulatedEventsInfo -> float -> result Spectrum)
    (sim : list SimulationRun) (shower_distribution : option (list Z))
    (obs_time : float) :
  let run := get_simulation_information SimulatedEventsInfo
               simulated_events_info from_simulation in
  (~ constant spectral_index sim ->
   run sim shower_distribution obs_time
   = Raise (differs_error "spectral_index"))
  /\ (constant spectral_index sim -> ~ constant energy_range_min sim ->
      run sim shower_distribution obs_time
      = Raise (differs_error "energy_range_min"))
  /\ (constant spectral_index sim -> constant energy_range_min sim ->
      ~ constant energy_range_max sim ->
      run sim shower_distribution obs_time
      = Raise (differs_error "energy_range_max"))
  /\ run [] shower_distribution obs_time
     = Raise (IndexError "index 0 is out of bounds for axis 0 with size 0").
Proof.
  intros run. unfold run, get_simulation_information. cbn [List.find checked_items snd fst].
  split; [|split; [|split; [|done]]].
  - intros Hsi.
    destruct (Nat.ltb 1 (length (np_unique (spectral_index <$> sim))))
      eqn:Htest; [done|].
    by apply unique_test in Htest.
  - intros Hsi Hmin. apply unique_test in Hsi. rewrite Hsi.
    destruct (Nat.ltb 1 (length (np_unique (energy_range_min <$> sim))))
      eqn:Htest; [done|].
    by apply unique_test in Htest.
  - intros Hsi Hmin Hmax. apply unique_test in Hsi, Hmin.
    rewrite Hsi, Hmin.
    destruct (Nat.ltb 1 (length (np_unique (energy_range_max <$> sim))))
      eqn:Htest; [done|].
    by apply unique_test in Htest.
Qed.

Lemma simulation_runs_must_agree_witness :
  @get_simulation_information example_externals _ example_sim_info
    example_from_simulation
    (example_runs
     ++ [ {| spectral_index := Real (-2); energy_range_min := Real (1 # 10);
             energy_range_max := Real 50; max_scatter_range := Real 1000;
             max_viewcone_radius := Real 10; min_viewcone_radius := Real 0;
             n_showers := 100 |} ])
    None (Real 50)
  = Raise (differs_error "energy_range_min").
Proof.
  apply (simulation_runs_must_agree (H := example_externals)).
  - apply unique_test. reflexivity.
  - intros Hconst. apply unique_test in Hconst. vm_compute in Hconst.
    discriminate Hconst.
Defined.

(** Of the runs after the first, [get_simulation_information] looks at the
    three checked columns only, and at the number of showers when the file
    has no shower distribution: the scatter range and the viewcone radii of
    later runs are neither checked nor used, and with a shower distribution
    the numbers of showers of the run headers are not read at all. *)
Theorem later_runs_are_only_checked `{Externals}
    (SimulatedEventsInfo : Type)
    (simulated_events_info :
       Z -> float -> float -> float -> float -> float -> float ->
       result SimulatedEventsInfo)
    (from_simulation : SimulatedEventsInfo -> float -> result Spectrum)
    (run run' : SimulationRun) (rest rest' : list SimulationRun)
    (shower_distribution : option (list Z)) (obs_time : float) :
  spectral_index run = spectral_index run' ->
  energy_range_min run = energy_range_min run' ->
  energy_range_max run = energy_range_max run' ->
  max_scatter_range run = max_scatter_range run' ->
  max_viewcone_radius run = max_viewcone_radius run' ->
  min_viewcone_radius run = min_viewcone_radius run' ->
  Forall2 (fun a b => spectral_index a = spectral_index b
                      /\ energy_range_min a = energy_range_min b
                      /\ energy_range_max a = energy_range_max b)
          rest rest' ->
  (shower_distribution = None ->
   n_showers <$> run :: rest = n_showers <$> run' :: rest') ->
  get_simulation_information SimulatedEventsInfo simulated_events_info
    from_simulation (run :: rest) shower_distribution obs_time
  = get_simulation_information SimulatedEventsInfo simulated_events_info
      from_simulation (run' :: rest') shower_distribution obs_time.
Proof.
  intros Hsi Hmin Hmax Hscatter Hvmax Hvmin Hrest Hshowers.
  assert (forall col : SimulationRun -> float,
            col run = col run' -> Forall2 (fun a b => col a = col b) rest rest' ->
            col <$> run :: rest = col <$> run' :: rest') as Hcol.
  { intros col Hrun Hall. csimpl. rewrite Hrun. f_equal.
    clear -Hall. induction Hall as [|a b l k Hab Hlk IH]; csimpl; [done|].
    by rewrite Hab, IH. }
  unfold get_simulation_information.
  cbn [List.find checked_items snd fst].
  rewrite (Hcol spectral_index), (Hcol energy_range_min),
    (Hcol energy_range_max); try done;
    try (eapply Forall2_impl; [exact Hrest|]; by intros a b (? & ? & ?)).
  rewrite <- Hmin, <- Hmax, <- Hscatter, <- Hsi, <- Hvmax, <- Hvmin.
  destruct shower_distribution as [n_entries|]; [done|].
  by rewrite Hshowers.
Qed.

Lemma later_runs_are_only_checked_witness :
  @get_simulation_information example_externals _ example_sim_info
    example_from_simulation example_runs (Some [400; 600]%Z) (Real 50)
  = @get_simulation_information example_externals _ example_sim_info
      example_from_simulation (take 1 example_runs ++ take 1 example_runs)
      (Some [400; 600]%Z) (Real 50).
Proof.
  apply (later_runs_are_only_checked (H := example_externals));
    try reflexivity.
  - repeat constructor.
  - discriminate.
Defined.

(** ** [normalise_column_names]: optional columns that may be missing *)

(** With [optional_dl3_columns] set and [raise_error_for_optional] unset, a
    table that passes the pointing guards and holds the identity columns
    and the six columns to rename is normalised whatever optional columns
    it lacks, provided no canonical name is already taken: the optional
    columns it does hold are renamed and the others are passed over. *)
Theorem missing_optional_columns_are_skipped `{Externals}
    (epp : EventPreprocessor) (events : Table) :
  optional_dl3_columns epp = true ->
  raise_error_for_optional epp = false ->
  pointing_guards epp events = true ->
  (forall c, c ∈ base_keep_columns epp ++ rename_from_required epp ->
             c ∈ colnames events) ->
  (forall p, p ∈ all_renames epp -> p.2 ∈ colnames events -> p.1 = p.2) ->
  exists events',
    normalise_column_names epp events = Ok events'
    /\ (forall p, p ∈ zip (rename_from_required epp) rename_to_required ->
                  p.2 ∈ colnames events')
    /\ (forall p, p ∈ zip (rename_from_optional epp) rename_to_optional ->
                  p.1 ∈ colnames events -> p.2 ∈ colnames events').
Proof.
  intros Hopt Hraise Hguards Hrequired Hfree.
  rewrite (normalise_past_guards _ _ Hguards).
  assert (renames epp events
          = zip (rename_from_required epp) rename_to_required
            ++ List.filter (fun p => has_col p.1 events)
                 (zip (rename_from_optional epp) rename_to_optional))
    as Hrenames by (unfold renames; by rewrite Hopt, Hraise).
  assert (forall p, p ∈ renames epp events -> p.1 ∈ colnames events) as Hsrc.
  { intros p. rewrite Hrenames. intros [Hp|Hp]%elem_of_app.
    - apply Hrequired, elem_of_app. right.
      destruct p as [a b]. by apply elem_of_zip_l in Hp.
    - apply list_elem_of_In, List.filter_In in Hp as [_ Hp].
      by apply bool_decide_eq_true in Hp. }
  destruct (List.find _ _) as [c|] eqn:Hfind.
  { apply List.find_some in Hfind as [Hin Hc]. exfalso.
    apply negb_true_iff, bool_decide_eq_false in Hc. apply Hc.
    apply list_elem_of_In in Hin. unfold required_columns in Hin.
    apply elem_of_app in Hin as [Hin|Hin].
    - apply Hrequired, elem_of_app. by left.
    - apply list_elem_of_fmap in Hin as (p & -> & Hp). by apply Hsrc. }
  destruct (renames_NoDup epp events) as [Hn1 Hn2].
  destruct (rename_columns_succeeds (renames epp events) events Hn1 Hn2 Hsrc)
    as (events' & Hrun & Hnew & _).
  { intros p Hp. apply Hfree.
    eapply elem_of_sublist; [exact Hp|apply renames_sublist]. }
  exists events'. split; [done|]. split.
  - intros p Hp. apply Hnew. rewrite Hrenames. apply elem_of_app. by left.
  - intros p Hp Hhas. apply Hnew. rewrite Hrenames. apply elem_of_app. right.
    apply list_elem_of_In, List.filter_In.
    split; [by apply list_elem_of_In|]. by apply bool_decide_eq_true.
Qed.

Lemma missing_optional_columns_are_skipped_witness :
  exists events',
    @normalise_column_names example_externals
      {| energy_reconstructor := "RandomForestRegressor";
         geometry_reconstructor := "HillasReconstructor";
         gammaness_classifier := "RandomForestClassifier";
         irf_pre_processing := true;
         optional_dl3_columns := true;
         raise_error_for_optional := false;
         event_selection := [] |}
      steady_file
    = Ok events'
    /\ "reco_energy" ∈ colnames events'.
Proof.
  destruct (missing_optional_columns_are_skipped (H := example_externals)
              {| energy_reconstructor := "RandomForestRegressor";
                 geometry_reconstructor := "HillasReconstructor";
                 gammaness_classifier := "RandomForestClassifier";
                 irf_pre_processing := true;
                 optional_dl3_columns := true;
                 raise_error_for_optional := false;
                 event_selection := [] |}
              steady_file eq_refl eq_refl eq_refl)
    as (events' & Hrun & Hnew & _).
  - apply Forall_forall. apply (bool_decide_unpack _). by vm_compute.
  - intros p Hp Hp2. exfalso. revert p Hp Hp2.
    apply (Forall_forall (fun p => p.2 ∉ colnames steady_file)).
    apply (bool_decide_unpack _). by vm_compute.
  - exists events'. split; [exact Hrun|].
    apply (Hnew ("RandomForestRegressor_energy", "reco_energy")).
    apply (bool_decide_unpack _). by vm_compute.
Defined.

(** ** [load_preselected_events]: what every loaded event looks like *)

Section loaded_events.
Context `{Externals}.

Lemma reduce_rows_invariant epp pairs rs r :
  r ∈ reduce_rows epp pairs rs ->
  r !! "weight" = Some (VFloat (Real 1))
  /\ (forall c, c ∉ persisted_columns -> r !! c = None)
  /\ exists event,
       event ∈ rs
       /\ r = restrict_row persisted_columns
                (derive_row (normalise_row pairs event))
       /\ passes (event_selection epp)
                 (derive_row (normalise_row pairs event)) = true.
Proof.
  unfold reduce_rows.
  intros (r1 & -> & Hr1)%list_elem_of_fmap.
  apply list_elem_of_In, List.filter_In in Hr1 as [Hr1 Hsel].
  apply list_elem_of_In, list_elem_of_fmap in Hr1 as (r2 & -> & Hr2).
  apply list_elem_of_fmap in Hr2 as (r3 & -> & Hr3).
  apply list_elem_of_fmap in Hr3 as (event & -> & Hevent).
  unfold restrict_row. split; [|split].
  - rewrite lookup_restrict, bool_decide_eq_true_2
      by (apply (bool_decide_unpack _); by vm_compute).
    unfold mark_selected, derive_row.
    rewrite !lookup_insert_ne by done. by rewrite lookup_insert_eq.
  - intros c Hc. by rewrite lookup_restrict, bool_decide_eq_false_2.
  - exists event. split; [done|]. split.
    + apply map_eq. intros c. rewrite !lookup_restrict.
      case_bool_decide as Hc; [|done]. unfold mark_selected.
      apply lookup_insert_ne. intros <-. revert Hc.
      apply (bool_decide_unpack _). by vm_compute.
    + unfold look, mark_selected in Hsel.
      by rewrite lookup_insert_eq in Hsel.
Qed.

Lemma reduce_rows_length epp pairs rs :
  length (reduce_rows epp pairs rs) <= length rs.
Proof.
  unfold reduce_rows. rewrite length_fmap.
  etrans; [apply List.filter_length_le|]. by rewrite !length_fmap.
Qed.

End loaded_events.

(** Whatever the chunks, every event of a table that
    [load_preselected_events] returns comes from an event of a chunk: it is
    that event renamed and with its derived columns, which passes the
    quality criteria, projected on the persisted columns.  It has the
    weight 1 and no cell outside the persisted columns, and the table has at
    most as many events as were read. *)
Theorem loaded_events_are_selected `{Externals}
    (epp : EventPreprocessor) (chunks : list (nat * nat * Table))
    (t : Table) :
  load_chunks epp chunks = Ok t ->
  len t <= total_len (snd <$> chunks)
  /\ forall r,
       r ∈ rows t ->
       r !! "weight" = Some (VFloat (Real 1))
       /\ (forall c, c ∉ persisted_columns -> r !! c = None)
       /\ exists ch event,
            ch ∈ chunks /\ event ∈ rows ch.2
            /\ r = restrict_row persisted_columns
                     (derive_row (normalise_row (renames epp ch.2) event))
            /\ passes (event_selection epp)
                      (derive_row (normalise_row (renames epp ch.2) event))
               = true.
Proof.
  intros (sels & Hsels & Hrows)%load_chunks_Ok. unfold len. rewrite Hrows.
  clear Hrows. induction Hsels as [|ch sel chunks sels Hch Hsels [IHlen IH]].
  - split; [done|]. by intros r Hr%elem_of_nil.
  - apply preselect_chunk_rows in Hch.
    rewrite !fmap_cons, concat_cons, Hch. split.
    + rewrite length_app. unfold total_len in *.
      rewrite !fmap_cons. cbn [sum_list sum_list_with].
      pose proof (reduce_rows_length epp (renames epp ch.2) (rows ch.2)).
      change (id (len ch.2)) with (length (rows ch.2)). lia.
    + intros r [Hr|Hr]%elem_of_app.
      * apply reduce_rows_invariant in Hr
          as (Hw & Hout & event & Hevent & Hr & Hpass).
        split; [exact Hw|]. split; [exact Hout|].
        exists ch, event. split; [left|]. split; [exact Hevent|].
        split; [exact Hr|exact Hpass].
      * destruct (IH r Hr) as (Hw & Hout & ch' & event & Hch' & Hrest).
        split; [exact Hw|]. split; [exact Hout|].
        exists ch', event. split; [by right|exact Hrest].
Qed.

Lemma loaded_events_are_selected_witness :
  exists t,
    @load_chunks example_externals (default_epp positive_score)
      (read_chunked 2 steady_file) = Ok t
    /\ len t <= 5.
Proof.
  destruct (@load_chunks example_externals (default_epp positive_score)
              (read_chunked 2 steady_file)) as [t|e] eqn:Hrun.
  - exists t. split; [reflexivity|].
    destruct (loaded_events_are_selected (H := example_externals)
                (default_epp positive_score) (read_chunked 2 steady_file)
                t Hrun) as [Hlen _].
    exact Hlen.
  - apply (f_equal is_ok) in Hrun. vm_compute in Hrun. discriminate.
Defined.

(** ** [make_event_weights]: the columns the loop over the bins reads *)

(** With at least one offset bin, the loop of [make_event_weights] raises
    the KeyError of the first column it does not find, in the order
    [true_source_fov_offset], [true_energy], [weight]: the weight column
    must exist before the call, it is not created.  With the three columns
    the loop completes, whatever the edges. *)
Theorem offset_bins_first_missing_column `{Externals}
    (self : EventLoader) (events : Table) (spectrum target : Spectrum)
    (kind : string) (edges : list float) :
  kind = "gammas" ->
  target_spectrum self = Some target ->
  normalization_unit target = POINT_SOURCE_FLUX_UNIT ->
  normalization_unit spectrum = DIFFUSE_FLUX_UNIT ->
  2 <= length edges ->
  match List.find (fun c => negb (has_col c events))
                  ["true_source_fov_offset"; "true_energy"; "weight"] with
  | Some c =>
      make_event_weights self events spectrum kind (Some edges)
      = Raise (KeyError c)
  | None =>
      is_ok (make_event_weights self events spectrum kind (Some edges)) = true
  end.
Proof.
  intros Hkind Htarget Hpoint Hdiffuse Hlen.
  unfold make_event_weights. rewrite Htarget, point_like_test by done.
  destruct edges as [|a [|b l]]; [simpl in Hlen; lia..|].
  rewrite bin_pairs_cons. destruct events as [names info rs].
  cbn [List.find].
  destruct (has_col "true_source_fov_offset" (MkTable names info rs))
    eqn:Ho; cbn [negb].
  2: { cbn [weight_bins]. unfold weight_bin.
       by rewrite (get_col_missing "true_source_fov_offset"). }
  destruct (has_col "true_energy" (MkTable names info rs)) eqn:He;
    cbn [negb].
  2: { cbn [weight_bins]. unfold weight_bin.
       rewrite (get_col_has "true_source_fov_offset"), bind_Ok_l by done.
       cbn [rows]. rewrite <- list_fmap_compose.
       rewrite select_mask_fmap, bind_Ok_l.
       by rewrite (get_col_missing "true_energy"). }
  destruct (has_col "weight" (MkTable names info rs)) eqn:Hw; cbn [negb].
  2: { cbn [weight_bins]. unfold weight_bin.
       rewrite (get_col_has "true_source_fov_offset"), bind_Ok_l by done.
       cbn [rows]. rewrite <- list_fmap_compose.
       rewrite select_mask_fmap, bind_Ok_l.
       rewrite (get_col_has "true_energy"), bind_Ok_l by done.
       unfold set_col_masked. by rewrite Hw. }
  rewrite weight_bins_eq; [done|].
  unfold weight_columns. unfold has_col in Ho, He, Hw. cbn [colnames] in *.
  by rewrite Ho, He, Hw.
Qed.

Lemma offset_bins_first_missing_column_witness :
  @make_event_weights example_externals (example_loader steady_file)
    steady_file diffuse_spectrum "gammas" (Some offset_edges)
  = Raise (KeyError "true_source_fov_offset").
Proof.
  apply (offset_bins_first_missing_column (H := example_externals)
           (example_loader steady_file) steady_file diffuse_spectrum
           (POINT_SOURCE_FLUX_UNIT, 3%Q) "gammas" offset_edges);
    [reflexivity..|simpl; lia].
Defined.
